(** * MedGemaCare: the API routes, the patient bookkeeping and the RAG contract

    A shallow embedding of the request handlers of [app/api/routes.py] and
    [app/api/patients.py], of the schemas of [app/schemas], and of the
    retrieval pipeline they call.

    Conventions.
    - A Python [str] is the list of its code points ([pystr]); [len] is the
      length of that list.
    - A handler is a computation over the state of the process (model loader,
      index, file system, log): it returns a value or raises an exception,
      and leaves a new state ([M]).
    - The collaborators whose code lives outside the handlers (the model
      loader, the RAG pipeline object, the document processor, the logger and
      the platform calls) are interfaces; the handlers are written against
      them. *)

From Stdlib Require Import ZArith NArith QArith List String Ascii Lia Bool.
From Stdlib Require Import DecimalString DecimalN DecimalPos DecimalFacts.
From stdpp Require Import base option list sorting gmap.

Import ListNotations.
Local Open Scope Z_scope.

(* ===================================================================== *)
(** ** Python values *)
(* ===================================================================== *)

(** A Python [str]: its code points in order. *)
Abbreviation pystr := (list N).

(** A string literal of the source, as its code points. *)
Definition lit (s : string) : pystr := map N_of_ascii (list_ascii_of_string s).
Arguments lit : simpl never.

(** [a + b] on [str]. *)
Notation "a +++ b" := (@app N a b) (at level 60, right associativity).

(** A Python [float], an IEEE 754 double: NaN, an infinity, a zero, or the
    number [mantissa * 2 ^ exponent], each but NaN with its sign. *)
Inductive float : Type :=
| FNan
| FInf (negative : bool)
| FZero (negative : bool)
| FNum (negative : bool) (mantissa : positive) (exponent : Z).

(** The values a JSON document decodes to: [None], [bool], [int], [float],
    [str], [list] and [dict] with [str] keys in insertion order. *)
#[warnings="-register-all"]
Inductive json : Type :=
| JNull
| JBool (b : bool)
| JInt (z : Z)
| JFloat (x : float)
| JStr (s : pystr)
| JList (l : list json)
| JDict (d : list (pystr * json)).

(** [d.get(k)]: the value under the key, [None] when the key is missing. *)
Fixpoint dict_get {V : Type} (k : pystr) (d : list (pystr * V)) : option V :=
  match d with
  | [] => None
  | (k', v) :: d' => if decide (k' = k) then Some v else dict_get k d'
  end.

(** [d[k] = v]: the value is replaced in place, a new key goes last. *)
Fixpoint dict_set {V : Type} (k : pystr) (v : V) (d : list (pystr * V)) : list (pystr * V) :=
  match d with
  | [] => [(k, v)]
  | (k', v') :: d' =>
      if decide (k' = k) then (k', v) :: d' else (k', v') :: dict_set k v d'
  end.

Definition dict_keys {V : Type} (d : list (pystr * V)) : list pystr := map fst d.

(* ===================================================================== *)
(** ** Exceptions and the handler monad *)
(* ===================================================================== *)

(** The exceptions a handler sees: FastAPI's [HTTPException] and every other
    subclass of [Exception], with its class name and message. *)
Inductive exn : Type :=
| HTTPException (status_code : Z) (detail : pystr)
| PyException (cls : pystr) (msg : pystr).

(** [str(n)] of an [int]: its decimal digits, with a sign when negative. *)
Fixpoint uint_chars (d : Decimal.uint) : pystr :=
  match d with
  | Decimal.Nil => []
  | Decimal.D0 d => 48%N :: uint_chars d
  | Decimal.D1 d => 49%N :: uint_chars d
  | Decimal.D2 d => 50%N :: uint_chars d
  | Decimal.D3 d => 51%N :: uint_chars d
  | Decimal.D4 d => 52%N :: uint_chars d
  | Decimal.D5 d => 53%N :: uint_chars d
  | Decimal.D6 d => 54%N :: uint_chars d
  | Decimal.D7 d => 55%N :: uint_chars d
  | Decimal.D8 d => 56%N :: uint_chars d
  | Decimal.D9 d => 57%N :: uint_chars d
  end.

Definition str_of_Z (z : Z) : pystr :=
  match z with
  | Z0 => [48%N]
  | Zpos p => uint_chars (Pos.to_uint p)
  | Zneg p => 45%N :: uint_chars (Pos.to_uint p)
  end.

(** [str(e)]: an [HTTPException] prints as [status_code: detail], any other
    exception as its message. *)
Definition str_exn (e : exn) : pystr :=
  match e with
  | HTTPException status_code detail => str_of_Z status_code +++ lit ": " +++ detail
  | PyException _ msg => msg
  end.

Definition is_HTTPException (e : exn) : bool :=
  match e with HTTPException _ _ => true | PyException _ _ => false end.

Inductive outcome (A : Type) : Type :=
| Return (a : A)
| Raise (e : exn).
Arguments Return {A} a.
Arguments Raise {A} e.

(** A computation over the process state [W]. *)
Definition M (W A : Type) : Type := W -> outcome A * W.

Definition ret {W A} (a : A) : M W A := fun w => (Return a, w).
Definition raise {W A} (e : exn) : M W A := fun w => (Raise e, w).
Definition bind {W A B} (m : M W A) (k : A -> M W B) : M W B :=
  fun w => match m w with
           | (Return a, w') => k a w'
           | (Raise e, w') => (Raise e, w')
           end.

(** [try: body  except ...: handler e]. *)
Definition try_except {W A} (body : M W A) (handler : exn -> M W A) : M W A :=
  fun w => match body w with
           | (Return a, w') => (Return a, w')
           | (Raise e, w') => handler e w'
           end.

(** [try: body  finally: cleanup]: the cleanup runs on both exits; an
    exception of the cleanup replaces the outcome of the body. *)
Definition try_finally {W A} (body : M W A) (cleanup : M W unit) : M W A :=
  fun w => match body w with
           | (r, w') =>
               match cleanup w' with
               | (Return _, w'') => (r, w'')
               | (Raise e, w'') => (Raise e, w'')
               end
           end.

(** A read of the state, and a write that cannot fail. *)
Definition gets {W A} (f : W -> A) : M W A := fun w => (Return (f w), w).
Definition modify {W} (f : W -> W) : M W unit := fun w => (Return tt, f w).

Declare Scope monad_scope.
Delimit Scope monad_scope with monad.
Notation "x <- m ;; k" := (bind m (fun x => k))
  (at level 100, m at next level, right associativity) : monad_scope.
Notation "m ;;; k" := (bind m (fun _ => k))
  (at level 100, right associativity) : monad_scope.
Local Open Scope monad_scope.

(** [if c: body] with no [else]. *)
Definition when {W} (c : bool) (body : M W unit) : M W unit :=
  if c then body else ret tt.

(* ===================================================================== *)
(** ** Request schemas (app/schemas/requests.py) *)
(* ===================================================================== *)

(** What request validation reports for a field. *)
Inductive ValidationError : Type :=
| missing (field : pystr)
| greater_than_equal (field : pystr) (bound : Z)
| less_than_equal (field : pystr) (bound : Z).

(** [Optional[int] = Field(None, ge=lo, le=hi)]: an absent (or null) value
    stays [None]; a supplied one must lie in [[lo, hi]]. *)
Definition validate_optional_int (field : pystr) (lo hi : Z) (v : option Z)
  : ValidationError + option Z :=
  match v with
  | None => inr None
  | Some n =>
      if n <? lo then inl (greater_than_equal field lo)
      else if hi <? n then inl (less_than_equal field hi)
      else inr (Some n)
  end.

(** [str = Field(...)]: a required field. *)
Definition validate_required (field : pystr) (v : option pystr)
  : ValidationError + pystr :=
  match v with
  | None => inl (missing field)
  | Some s => inr s
  end.

(** [class RAGSummaryRequest]: the body as it arrives (each field absent or
    a value of the declared type), the validated model, and validation. *)
Module RAGSummaryRequest.

Record body := {
  body_query : option pystr;
  body_top_k : option Z }.

Record t := {
  query : pystr;
  top_k : option Z }.

Definition default_query : pystr :=
  lit "Provide a comprehensive summary of the medical report".

Definition validate (b : body) : ValidationError + t :=
  match validate_optional_int (lit "top_k") 1 20 (body_top_k b) with
  | inl err => inl err
  | inr k => inr {| query := default default_query (body_query b); top_k := k |}
  end.

End RAGSummaryRequest.

(** [class RAGQuestionRequest]. *)
Module RAGQuestionRequest.

Record body := {
  body_question : option pystr;
  body_top_k : option Z }.

Record t := {
  question : pystr;
  top_k : option Z }.

Definition validate (b : body) : ValidationError + t :=
  match validate_required (lit "question") (body_question b) with
  | inl err => inl err
  | inr q =>
      match validate_optional_int (lit "top_k") 1 20 (body_top_k b) with
      | inl err => inl err
      | inr k => inr {| question := q; top_k := k |}
      end
  end.

End RAGQuestionRequest.

(* ===================================================================== *)
(** ** Response schemas (app/schemas/responses.py) *)
(* ===================================================================== *)

(** Each response model with its fields, and the fields as the framework
    serialises them: the declared ones, in declaration order. *)

Module HealthResponse.

Record t := {
  status : pystr;
  model_loaded : bool;
  version : pystr;
  ml_available : bool }.

End HealthResponse.

Module SummaryResponse.

Record t := {
  summary : pystr;
  input_length : Z;
  summary_length : Z }.

Definition dump (r : t) : list (pystr * json) :=
  [ (lit "summary", JStr (summary r));
    (lit "input_length", JInt (input_length r));
    (lit "summary_length", JInt (summary_length r)) ].

End SummaryResponse.

Module RAGAnswerResponse.

Record t := {
  question : pystr;
  answer : pystr;
  num_chunks_used : Z;
  relevant_chunks : option (list pystr) }.

Definition dump (r : t) : list (pystr * json) :=
  [ (lit "question", JStr (question r));
    (lit "answer", JStr (answer r));
    (lit "num_chunks_used", JInt (num_chunks_used r));
    (lit "relevant_chunks",
      match relevant_chunks r with
      | None => JNull
      | Some l => JList (map JStr l)
      end) ].

End RAGAnswerResponse.

Module DocumentUploadResponse.

Record t := {
  filename : pystr;
  file_size : Z;
  format : pystr;
  processed : bool;
  message : pystr }.

Definition dump (r : t) : list (pystr * json) :=
  [ (lit "filename", JStr (filename r));
    (lit "file_size", JInt (file_size r));
    (lit "format", JStr (format r));
    (lit "processed", JBool (processed r));
    (lit "message", JStr (message r)) ].

End DocumentUploadResponse.

(* ===================================================================== *)
(** ** The collaborators of the handlers *)
(* ===================================================================== *)

(** [app.models.model_loader.model_loader]. *)
Class ModelLoader (W : Type) := {
  is_available : W -> bool;
  is_loaded : W -> bool;
  load_model : M W unit }.

(** The dict [answer_question_with_rag] returns, read by the handler under
    the keys [question], [answer], [num_chunks_used] and [relevant_chunks],
    each of the type the response schema declares for it. *)
Record RAGResult := {
  result_question : pystr;
  result_answer : pystr;
  result_num_chunks_used : Z;
  result_relevant_chunks : option (list pystr) }.

(** [app.rag.rag_pipeline.rag_pipeline]: the methods the handlers call.
    [process_large_document] returns a value the handlers never read. *)
Class RagPipeline (W : Type) := {
  process_large_document : pystr -> M W json;
  generate_summary_with_rag : pystr -> option Z -> M W pystr;
  answer_question_with_rag : pystr -> option Z -> M W RAGResult }.

(** [app.processors.document_processor.DocumentProcessor]. *)
Class DocumentProcessor (W : Type) := {
  validate_file_size : pystr -> M W unit;
  process_document : pystr -> M W pystr }.

(** The platform: the logger, the temporary file of
    [tempfile.NamedTemporaryFile(delete=False, suffix=...)] (created with the
    given content, its name returned), [Path.unlink] and [Path(...).suffix]. *)
Class Platform (W : Type) := {
  log_info : pystr -> W -> W;
  log_error : pystr -> W -> W;
  named_temporary_file : pystr -> list N -> M W pystr;
  unlink_missing_ok : pystr -> M W unit;
  path_suffix : pystr -> pystr }.

(** An uploaded file: its name and its bytes. *)
Record UploadFile := {
  upload_filename : pystr;
  upload_content : list N }.

(** [s.lstrip(".")]. *)
Fixpoint lstrip_dot (s : pystr) : pystr :=
  match s with
  | c :: s' => if (c =? 46)%N then lstrip_dot s' else s
  | [] => []
  end.

(** [len(x)] as a Python [int]. *)
Definition len {A} (l : list A) : Z := Z.of_nat (length l).

(* ===================================================================== *)
(** ** The routes (app/api/routes.py) *)
(* ===================================================================== *)

Module Routes.
Import HealthResponse SummaryResponse RAGAnswerResponse DocumentUploadResponse.

Definition ml_unavailable_detail : pystr :=
  lit "ML dependencies not available. Install: pip install torch transformers accelerate".

Section Handlers.
Context {W : Type}.
Context `{!ModelLoader W, !RagPipeline W, !DocumentProcessor W, !Platform W}.

(** [app.__version__]. *)
Context (app_version : pystr).

(** [health_check]. *)
Definition health_check : M W HealthResponse.t :=
  fun w =>
    (Return {| status := lit "healthy";
               model_loaded := if is_available w then is_loaded w else false;
               version := app_version;
               ml_available := is_available w |}, w).

(** [except HTTPException: raise / except Exception as e: log, raise 500]. *)
Definition reraise_http_else_500 {A} (what : pystr) (e : exn) : M W A :=
  if is_HTTPException e then raise e
  else
    modify (log_error (what +++ str_exn e)) ;;;
    raise (HTTPException 500 (str_exn e)).

(** [except Exception as e: log, raise 500] (no clause for HTTPException). *)
Definition wrap_500 {A} (what : pystr) (e : exn) : M W A :=
  modify (log_error (what +++ str_exn e)) ;;;
  raise (HTTPException 500 (str_exn e)).

(** [rag_summarize]. *)
Definition rag_summarize (request : RAGSummaryRequest.t) : M W SummaryResponse.t :=
  try_except
    (modify (log_info (lit "Received RAG summarization request")) ;;;
     avail <- gets is_available ;;
     when (negb avail) (raise (HTTPException 503 ml_unavailable_detail)) ;;;
     loaded <- gets is_loaded ;;
     when (negb loaded) load_model ;;;
     summary <- generate_summary_with_rag
                  (RAGSummaryRequest.query request) (RAGSummaryRequest.top_k request) ;;
     ret {| summary := summary;
            input_length := 0;
            summary_length := len summary |})
    (reraise_http_else_500 (lit "Error in RAG summarization: ")).

(** [rag_question]. *)
Definition rag_question (request : RAGQuestionRequest.t) : M W RAGAnswerResponse.t :=
  try_except
    (modify (log_info (lit "Received RAG question request")) ;;;
     avail <- gets is_available ;;
     when (negb avail) (raise (HTTPException 503 ml_unavailable_detail)) ;;;
     loaded <- gets is_loaded ;;
     when (negb loaded) load_model ;;;
     result <- answer_question_with_rag
                 (RAGQuestionRequest.question request) (RAGQuestionRequest.top_k request) ;;
     ret {| question := result_question result;
            answer := result_answer result;
            num_chunks_used := result_num_chunks_used result;
            relevant_chunks := result_relevant_chunks result |})
    (reraise_http_else_500 (lit "Error in RAG question answering: ")).

(** [upload_document]. *)
Definition upload_document (file : UploadFile) : M W DocumentUploadResponse.t :=
  try_except
    (modify (log_info (lit "Received document upload: " +++ upload_filename file)) ;;;
     let content := upload_content file in
     tmp_path <- named_temporary_file (path_suffix (upload_filename file)) content ;;
     try_finally
       (validate_file_size tmp_path ;;;
        text <- process_document tmp_path ;;
        process_large_document text ;;;
        ret {| filename := upload_filename file;
               file_size := len content;
               format := lstrip_dot (path_suffix (upload_filename file));
               processed := true;
               message := lit "Document processed and indexed successfully" |})
       (unlink_missing_ok tmp_path))
    (wrap_500 (lit "Error processing document: ")).

(** The framework in front of a handler: the body is validated against
    the request schema; a body that fails is answered with status 422
    and the handler does not run. *)
Definition validation_detail (err : ValidationError) : pystr :=
  match err with
  | missing f => f +++ lit ": Field required"
  | greater_than_equal f _ => f +++ lit ": Input should be greater than or equal to the bound"
  | less_than_equal f _ => f +++ lit ": Input should be less than or equal to the bound"
  end.

Definition endpoint {Raw Req Resp} (validate : Raw -> ValidationError + Req)
    (handler : Req -> M W Resp) (raw : Raw) : M W Resp :=
  match validate raw with
  | inl err => raise (HTTPException 422 (validation_detail err))
  | inr request => handler request
  end.

Definition post_rag_summarize : RAGSummaryRequest.body -> M W SummaryResponse.t :=
  endpoint RAGSummaryRequest.validate rag_summarize.

Definition post_rag_question : RAGQuestionRequest.body -> M W RAGAnswerResponse.t :=
  endpoint RAGQuestionRequest.validate rag_question.

End Handlers.
End Routes.

(* ===================================================================== *)
(** ** Python's [float] *)
(* ===================================================================== *)

Definition is_digit (c : N) : bool := ((48 <=? c) && (c <=? 57))%N.

Definition digit_cons (c : N) (d : Decimal.uint) : Decimal.uint :=
  (if c =? 48 then Decimal.D0 d
   else if c =? 49 then Decimal.D1 d
   else if c =? 50 then Decimal.D2 d
   else if c =? 51 then Decimal.D3 d
   else if c =? 52 then Decimal.D4 d
   else if c =? 53 then Decimal.D5 d
   else if c =? 54 then Decimal.D6 d
   else if c =? 55 then Decimal.D7 d
   else if c =? 56 then Decimal.D8 d
   else Decimal.D9 d)%N.

(** The longest run of digits and what follows it. *)
Fixpoint scan_digits (s : pystr) : Decimal.uint * pystr :=
  match s with
  | c :: s' =>
      if is_digit c
      then let '(d, r) := scan_digits s' in (digit_cons c d, r)
      else (Decimal.Nil, s)
  | [] => (Decimal.Nil, [])
  end.

(** [float(s)] and [repr(x)] as CPython computes them: reading rounds the
    decimal to the nearest double, ties to the even mantissa; writing gives
    the shortest decimal that reads back as the double. *)
Module Float.

(** The doubles: a normal number has a mantissa of 53 bits and an exponent
    from -1074 to 971, a subnormal one a shorter mantissa and the least
    exponent. *)
Definition canonical (x : float) : bool :=
  match x with
  | FNum _ m e =>
      ((2 ^ 52 <=? Zpos m) && (Zpos m <? 2 ^ 53) && (-1074 <=? e) && (e <=? 971))
      || ((Zpos m <? 2 ^ 52) && (e =? -1074))
  | _ => true
  end.

Definition is_nan (x : float) : bool :=
  match x with FNan => true | _ => false end.

Definition eqb (x y : float) : bool :=
  match x, y with
  | FNan, FNan => true
  | FInf a, FInf b => Bool.eqb a b
  | FZero a, FZero b => Bool.eqb a b
  | FNum a m e, FNum b m' e' => Bool.eqb a b && (m =? m')%positive && (e =? e')
  | _, _ => false
  end.

(** The value of a whole number, [None] for the others. *)
Definition to_Z (x : float) : option Z :=
  match x with
  | FZero _ => Some 0
  | FNum negative m e =>
      let sign n := if negative : bool then - n else n in
      if 0 <=? e then Some (sign (Zpos m * 2 ^ e))
      else if Zpos m mod 2 ^ (- e) =? 0 then Some (sign (Zpos m / 2 ^ (- e)))
      else None
  | _ => None
  end.

(** [x * 2 ^ 1074], a whole number for every double; for an infinity, a
    number beyond all of these. *)
Definition scaled (x : float) : Z :=
  match x with
  | FNan | FZero _ => 0
  | FInf negative => if negative then - 2 ^ 2100 else 2 ^ 2100
  | FNum negative m e =>
      let n := Zpos m * 2 ^ (e + 1074) in
      if negative then - n else n
  end.

(** [n / d] rounded to the nearest integer, a tie to the even one. *)
Definition round_half_even (n d : Z) : Z :=
  let q := n / d in
  let r := n mod d in
  if 2 * r <? d then q
  else if d <? 2 * r then q + 1
  else if Z.even q then q else q + 1.

(** The double nearest to [a / b / 2 ^ 1074], for [a] and [b] positive:
    the mantissa is [a / b] over the power of two that leaves it 53 bits,
    or over none for a subnormal number, rounded to even. *)
Definition nearest (negative : bool) (a b : Z) : float :=
  let l := Z.log2 a - Z.log2 b in
  let l := if a <? b * 2 ^ l then l - 1 else l in
  let s := Z.max (l - 52) 0 in
  let m := round_half_even a (b * 2 ^ s) in
  let '(m, s) := if m =? 2 ^ 53 then (2 ^ 52, s + 1) else (m, s) in
  if 2045 <? s then FInf negative
  else match m with
       | Zpos p => FNum negative p (s - 1074)
       | _ => FZero negative
       end.

(** The double nearest to [digits * 10 ^ exp10]. *)
Definition of_decimal (negative : bool) (digits : N) (exp10 : Z) : float :=
  match digits with
  | N0 => FZero negative
  | Npos p => nearest negative (Zpos p * 10 ^ Z.max exp10 0 * 2 ^ 1074) (10 ^ Z.max (- exp10) 0)
  end.

(** A minus sign at the head of a text, and what follows. *)
Definition split_sign (s : pystr) : bool * pystr :=
  match s with
  | 45%N :: s' => (true, s')
  | _ => (false, s)
  end.

(** A fraction [.d...] at the head of a text: its digits and what follows. *)
Definition scan_fraction (s : pystr) : Decimal.uint * pystr :=
  match s with
  | 46%N :: c :: r => if is_digit c then scan_digits (c :: r) else (Decimal.Nil, s)
  | _ => (Decimal.Nil, s)
  end.

(** An exponent [e[+-]d...] at the head of a text: its value and what
    follows. *)
Definition scan_exponent (s : pystr) : Z * pystr :=
  match s with
  | e :: r =>
      if ((e =? 101) || (e =? 69))%N then
        match r with
        | c :: r' =>
            if ((c =? 43) || (c =? 45))%N then
              match r' with
              | c' :: _ =>
                  if is_digit c'
                  then let '(d, r'') := scan_digits r' in
                       let n := Z.of_N (N.of_uint d) in
                       (if (c =? 45)%N then - n else n, r'')
                  else (0, s)
              | [] => (0, s)
              end
            else if is_digit c
            then let '(d, r'') := scan_digits r in (Z.of_N (N.of_uint d), r'')
            else (0, s)
        | [] => (0, s)
        end
      else (0, s)
  | [] => (0, s)
  end.

(** [float(s)] for a decimal literal: a minus sign or none, digits, then a
    fraction, an exponent, both or neither. [None] is the ValueError. (The
    other texts [float] reads, such as [inf], [1.], [.5], [+1] and [1_0],
    are left out: neither the decoder nor [repr] gives them to it.) *)
Definition of_literal (s : pystr) : option float :=
  let '(negative, s1) := split_sign s in
  let '(int_digits, s2) := scan_digits s1 in
  let '(frac_digits, s3) := scan_fraction s2 in
  let '(exponent, s4) := scan_exponent s3 in
  match Decimal.nb_digits int_digits, s4 with
  | S _, [] =>
      Some (of_decimal negative
              (N.of_uint (Decimal.app int_digits frac_digits))
              (exponent - Z.of_nat (Decimal.nb_digits frac_digits)))
  | _, _ => None
  end.

(** *** [repr] *)

Definition sign_text (negative : bool) : pystr := if negative then [45%N] else [].

(** [format_float_short] in the exponent form: the first digit, the others
    behind a point, and the exponent with its sign and two digits or
    more. *)
Definition format_exp (digits : pystr) (decpt : Z) : pystr :=
  let e := decpt - 1 in
  take 1 digits
  ++ match drop 1 digits with [] => [] | rest => 46%N :: rest end
  ++ [101%N]
  ++ (if e <? 0 then [45%N] else [43%N])
  ++ (if Z.abs e <? 10 then [48%N] else [])
  ++ str_of_Z (Z.abs e).

(** The fixed form: the point after [decpt] digits, with zeros where the
    digits do not reach it, and [.0] behind a whole number. *)
Definition format_fixed (digits : pystr) (decpt : Z) : pystr :=
  let n := Z.of_nat (length digits) in
  if decpt <=? 0 then [48%N; 46%N] ++ repeat 48%N (Z.to_nat (- decpt)) ++ digits
  else if decpt <? n
       then take (Z.to_nat decpt) digits ++ [46%N] ++ drop (Z.to_nat decpt) digits
       else digits ++ repeat 48%N (Z.to_nat (decpt - n)) ++ [46%N; 48%N].

(** The form [repr] chooses: the value is [0.d1d2... * 10 ^ decpt]. *)
Definition format_short (digits : pystr) (decpt : Z) : pystr :=
  if (decpt <=? -4) || (16 <? decpt) then format_exp digits decpt
  else format_fixed digits decpt.

Definition digits_text (p : positive) : pystr := uint_chars (Pos.to_uint p).

(** [d * 10 ^ e] without the zeros at the end of [d]. *)
Fixpoint strip_zeros (fuel : nat) (d : positive) (e : Z) : positive * Z :=
  match fuel with
  | O => (d, e)
  | S fuel' =>
      if (Zpos d mod 10 =? 0)
      then match Zpos d / 10 with
           | Zpos d' => strip_zeros fuel' d' (e + 1)
           | _ => (d, e)
           end
      else (d, e)
  end.

Definition decimal_text (negative : bool) (d : positive) (e : Z) : pystr :=
  let '(d', e') := strip_zeros (Pos.to_nat (Pos.size d)) d e in
  let digits := digits_text d' in
  sign_text negative ++ format_short digits (e' + Z.of_nat (length digits)).

(** [10 ^ k <= num / den]. *)
Definition pow10_le (k num den : Z) : bool :=
  10 ^ Z.max k 0 * den <=? num * 10 ^ Z.max (- k) 0.

Fixpoint raise_exponent (fuel : nat) (k num den : Z) : Z :=
  match fuel with
  | O => k
  | S fuel' => if pow10_le (k + 1) num den then raise_exponent fuel' (k + 1) num den else k
  end.

Fixpoint lower_exponent (fuel : nat) (k num den : Z) : Z :=
  match fuel with
  | O => k
  | S fuel' => if pow10_le k num den then k else lower_exponent fuel' (k - 1) num den
  end.

(** The [k] with [10 ^ k <= num / den < 10 ^ (k + 1)]. *)
Definition decimal_exponent (num den : Z) : Z :=
  let k := (Z.log2 num - Z.log2 den) * 30103 / 100000 in
  raise_exponent 4 (lower_exponent 4 k num den) num den.

(** The text of [d * 10 ^ e] for a positive [d]. *)
Definition candidate (negative : bool) (d e : Z) : option pystr :=
  match d with
  | Zpos d' => Some (decimal_text negative d' e)
  | _ => None
  end.

(** [float(t) == x]. *)
Definition reads_back (x : float) (t : option pystr) : bool :=
  match t with
  | Some t' => match of_literal t' with
               | Some y => eqb y x
               | None => false
               end
  | None => false
  end.

(** The shortest text of [n] up to [n + fuel - 1] digits that reads back
    as [x = num / den]: of the two decimals of that many digits around
    [x], one that reads back, the nearer one if both do. *)
Fixpoint shortest (fuel : nat) (n : Z) (x : float) (negative : bool) (num den k : Z)
  : option pystr :=
  match fuel with
  | O => None
  | S fuel' =>
      let j := n - 1 - k in
      let p := num * 10 ^ Z.max j 0 in
      let q := den * 10 ^ Z.max (- j) 0 in
      let below := candidate negative (p / q) (- j) in
      let above := candidate negative (p / q + 1) (- j) in
      let r := p mod q in
      match reads_back x below, reads_back x above with
      | true, true => if (2 * r <? q) || ((2 * r =? q) && Z.even (p / q)) then below else above
      | true, false => below
      | false, true => above
      | false, false => shortest fuel' (n + 1) x negative num den k
      end
  end.

(** [repr(x)]: [nan], [inf], and for a number the shortest decimal text
    that reads back as [x]: 17 digits identify a double; were they not to,
    all the digits of the value do. *)
Definition repr (x : float) : pystr :=
  match x with
  | FNan => lit "nan"
  | FInf negative => sign_text negative ++ lit "inf"
  | FZero negative => sign_text negative ++ lit "0.0"
  | FNum negative m e =>
      let num := Zpos m * 2 ^ Z.max e 0 in
      let den := 2 ^ Z.max (- e) 0 in
      match shortest 17 1 x negative num den (decimal_exponent num den) with
      | Some t => t
      | None =>
          let d := Z.to_pos (Zpos m * 2 ^ Z.max e 0 * 5 ^ Z.max (- e) 0) in
          let digits := digits_text d in
          sign_text negative
          ++ format_exp digits (Z.min e 0 + Z.of_nat (length digits))
      end
  end.

(** *** The texts [repr] writes *)

Definition digit_text (ds : pystr) : Prop := Forall (fun c => is_digit c = true) ds.

(** A text that does not go on with a digit. *)
Definition no_digit_head (r : pystr) : Prop :=
  match r with c :: _ => is_digit c = false | [] => True end.

(** The digits before the point: a zero, or digits that start with none. *)
Definition int_shape (i : pystr) : Prop :=
  i = [48%N]
  \/ exists c tl, i = c :: tl /\ is_digit c = true /\ c <> 48%N /\ digit_text tl.

(** No fraction, or a point and digits. *)
Definition frac_shape (f : pystr) : Prop :=
  f = [] \/ exists ds, f = 46%N :: ds /\ ds <> [] /\ digit_text ds.

(** No exponent, or [e], a sign or none, and digits. *)
Definition exp_shape (x : pystr) : Prop :=
  x = []
  \/ exists sign ds,
       x = 101%N :: sign ++ ds
       /\ (sign = [] \/ sign = [43%N] \/ sign = [45%N])
       /\ ds <> [] /\ digit_text ds.

(** A number with a fraction, an exponent or both, as the decoder's
    [NUMBER_RE] matches it. *)
Definition float_shape (t : pystr) : Prop :=
  exists i f x,
    t = i ++ f ++ x /\ int_shape i /\ frac_shape f /\ exp_shape x
    /\ (f <> [] \/ x <> []).

End Float.

(* ===================================================================== *)
(** ** [json.dumps] and [json.loads] *)
(* ===================================================================== *)

(** The encoder and the decoder of Python's [json] module with their default
    settings, on the values of [json]: [dumps] escapes every character
    outside printable ASCII, separates with [", "] and [": "] and writes NaN
    and the infinities by their JavaScript names; [loads] is the
    recursive-descent scanner, which reads those names too, with [None] for
    a [JSONDecodeError] (and for the ValueError of an int too long to
    read). *)
Module Json.
Local Open Scope N_scope.

(** *** Encoding *)

Definition hex_digit (d : N) : N := if d <? 10 then 48 + d else 87 + d.

(** [format(c, "04x")]. *)
Definition hex4 (c : N) : pystr :=
  [ hex_digit (c / 4096 mod 16); hex_digit (c / 256 mod 16);
    hex_digit (c / 16 mod 16); hex_digit (c mod 16) ].

Definition u_escape (c : N) : pystr := 92 :: 117 :: hex4 c.

(** The replacement of one character by [encode_basestring_ascii]. *)
Definition escape_char (c : N) : pystr :=
  if c =? 34 then [92; 34]
  else if c =? 92 then [92; 92]
  else if c =? 10 then [92; 110]
  else if c =? 13 then [92; 114]
  else if c =? 9 then [92; 116]
  else if c =? 12 then [92; 102]
  else if c =? 8 then [92; 98]
  else if (32 <=? c) && (c <=? 126) then [c]
  else if c <? 65536 then u_escape c
  else
    let n := c - 65536 in
    let s1 := N.lor 55296 (N.land (N.shiftr n 10) 1023) in
    let s2 := N.lor 56320 (N.land n 1023) in
    u_escape s1 ++ u_escape s2.

Definition encode_string (s : pystr) : pystr :=
  34 :: flat_map escape_char s ++ [34].

(** [floatstr]: [float.__repr__], and the names of NaN and the
    infinities. *)
Definition floatstr (x : float) : pystr :=
  match x with
  | FNan => lit "NaN"
  | FInf false => lit "Infinity"
  | FInf true => lit "-Infinity"
  | _ => Float.repr x
  end.

Fixpoint dumps (v : json) : pystr :=
  match v with
  | JNull => lit "null"
  | JBool true => lit "true"
  | JBool false => lit "false"
  | JInt z => str_of_Z z
  | JFloat x => floatstr x
  | JStr s => encode_string s
  | JList l =>
      91 :: (fix items (l : list json) : pystr :=
               match l with
               | [] => []
               | x :: l' =>
                   dumps x ++ match l' with
                              | [] => []
                              | _ :: _ => lit ", " ++ items l'
                              end
               end) l ++ [93]
  | JDict d =>
      123 :: (fix items (d : list (pystr * json)) : pystr :=
                match d with
                | [] => []
                | (k, x) :: d' =>
                    encode_string k ++ lit ": " ++ dumps x ++
                    match d' with
                    | [] => []
                    | _ :: _ => lit ", " ++ items d'
                    end
                end) d ++ [125]
  end.

(** The items of a list and of a dict as [dumps] writes them, without the
    brackets. *)
Fixpoint dumps_items (l : list json) : pystr :=
  match l with
  | [] => []
  | x :: l' =>
      dumps x ++ match l' with
                 | [] => []
                 | _ :: _ => lit ", " ++ dumps_items l'
                 end
  end.

Fixpoint dumps_pairs (d : list (pystr * json)) : pystr :=
  match d with
  | [] => []
  | (k, x) :: d' =>
      encode_string k ++ lit ": " ++ dumps x ++
      match d' with
      | [] => []
      | _ :: _ => lit ", " ++ dumps_pairs d'
      end
  end.

(** [sys.int_max_str_digits] as the interpreter starts with it: an [int] of
    more decimal digits is neither written nor read, a ValueError. *)
Definition max_str_digits : nat := 4300.

Definition int_digits (z : Z) : nat := length (str_of_Z (Z.abs z)).

(** The ints of a value are short enough to be written. *)
Fixpoint writable (v : json) : bool :=
  match v with
  | JInt z => (int_digits z <=? max_str_digits)%nat
  | JList l => forallb writable l
  | JDict d => forallb (fun kv => writable (snd kv)) d
  | _ => true
  end.

(** The call [json.dumps(v)]. *)
Definition dumps_call (v : json) : outcome pystr :=
  if writable v then Return (dumps v)
  else Raise (PyException (lit "ValueError")
                (lit "Exceeds the limit (4300 digits) for integer string conversion")).

Definition is_high_surrogate (u : N) : bool := (55296 <=? u) && (u <=? 56319).
Definition is_low_surrogate (u : N) : bool := (56320 <=? u) && (u <=? 57343).

(** A [str] in which no high surrogate stands right before a low one: its
    characters are code points, surrogates among them, but no two that the
    decoder would join into one character. *)
Fixpoint unpaired (s : pystr) : bool :=
  match s with
  | c :: s' =>
      (c <? 1114112)
      && negb (is_high_surrogate c
               && match s' with c' :: _ => is_low_surrogate c' | [] => false end)
      && unpaired s'
  | [] => true
  end.

(** The values a JSON document carries: every int is short enough to be
    written, every float is a double and a number or an infinity (NaN is
    written and read, but no NaN equals another in Python), no string, key
    or value, holds a high surrogate right before a low one, and the keys
    of a dict are distinct. *)
Fixpoint serializable (v : json) : bool :=
  match v with
  | JNull | JBool _ => true
  | JInt z => (int_digits z <=? max_str_digits)%nat
  | JFloat x => Float.canonical x && negb (Float.is_nan x)
  | JStr s => unpaired s
  | JList l => forallb serializable l
  | JDict d =>
      forallb (fun kv => unpaired (fst kv) && serializable (snd kv)) d
      && bool_decide (NoDup (map fst d))
  end.

(** The fuel [scan_once] needs on [dumps v]. *)
Fixpoint jsize (v : json) : nat :=
  match v with
  | JList l => S (list_sum (map (fun x => S (jsize x)) l))
  | JDict d => S (list_sum (map (fun kv => S (jsize (snd kv))) d))
  | _ => 1%nat
  end.

(** Induction on values that reaches the items of a list and of a dict. *)
Fixpoint json_nested_ind (P : json -> Prop)
    (HNull : P JNull) (HBool : forall b, P (JBool b)) (HInt : forall z, P (JInt z))
    (HFloat : forall x, P (JFloat x))
    (HStr : forall s, P (JStr s))
    (HList : forall l, Forall P l -> P (JList l))
    (HDict : forall d, Forall (fun kv => P (snd kv)) d -> P (JDict d))
    (v : json) {struct v} : P v :=
  match v with
  | JNull => HNull
  | JBool b => HBool b
  | JInt z => HInt z
  | JFloat x => HFloat x
  | JStr s => HStr s
  | JList l =>
      HList l
        ((fix go (l : list json) : Forall P l :=
            match l with
            | [] => @List.Forall_nil _ P
            | x :: l' =>
                @List.Forall_cons _ P x l'
                  (json_nested_ind P HNull HBool HInt HFloat HStr HList HDict x) (go l')
            end) l)
  | JDict d =>
      HDict d
        ((fix go (d : list (pystr * json)) : Forall (fun kv => P (snd kv)) d :=
            match d with
            | [] => @List.Forall_nil _ (fun kv => P (snd kv))
            | kv :: d' =>
                @List.Forall_cons _ (fun kv => P (snd kv)) kv d'
                  (json_nested_ind P HNull HBool HInt HFloat HStr HList HDict (snd kv)) (go d')
            end) d)
  end.

(** *** Decoding *)

Definition is_ws (c : N) : bool :=
  (c =? 32) || (c =? 9) || (c =? 10) || (c =? 13).

Fixpoint skip_ws (s : pystr) : pystr :=
  match s with
  | c :: s' => if is_ws c then skip_ws s' else s
  | [] => []
  end.

(** The value of a hexadecimal digit, either case. *)
Definition hex_value (c : N) : option N :=
  if (48 <=? c) && (c <=? 57) then Some (c - 48)
  else if (97 <=? c) && (c <=? 102) then Some (c - 87)
  else if (65 <=? c) && (c <=? 70) then Some (c - 55)
  else None.

(** [_decode_uXXXX]: the four characters after [\u]. *)
Definition decode_uXXXX (h1 h2 h3 h4 : N) : option N :=
  match hex_value h1, hex_value h2, hex_value h3, hex_value h4 with
  | Some a, Some b, Some c, Some d => Some (a * 4096 + b * 256 + c * 16 + d)
  | _, _, _, _ => None
  end.

Definition join_surrogates (u u2 : N) : N :=
  65536 + N.lor (N.shiftl (u - 55296) 10) (u2 - 56320).

(** The character a one-letter escape stands for ([BACKSLASH]). *)
Definition backslash (e : N) : option N :=
  if e =? 34 then Some 34
  else if e =? 92 then Some 92
  else if e =? 47 then Some 47
  else if e =? 98 then Some 8
  else if e =? 102 then Some 12
  else if e =? 110 then Some 10
  else if e =? 114 then Some 13
  else if e =? 116 then Some 9
  else None.

Definition cons_char (c : N) (r : option (pystr * pystr)) : option (pystr * pystr) :=
  match r with
  | Some (t, rest) => Some (c :: t, rest)
  | None => None
  end.

(** [scanstring] (strict), from the character after the opening quote: the
    decoded string and what follows the closing quote. *)
Fixpoint scanstring (s : pystr) : option (pystr * pystr) :=
  match s with
  | [] => None
  | c :: r =>
      if c =? 34 then Some ([], r)
      else if c <? 32 then None
      else if negb (c =? 92) then cons_char c (scanstring r)
      else
        match r with
        | [] => None
        | e :: r1 =>
            if negb (e =? 117) then
              match backslash e with
              | Some ch => cons_char ch (scanstring r1)
              | None => None
              end
            else
              match r1 with
              | h1 :: h2 :: h3 :: h4 :: r2 =>
                  match decode_uXXXX h1 h2 h3 h4 with
                  | None => None
                  | Some uni =>
                      if is_high_surrogate uni then
                        match r2 with
                        | 92 :: 117 :: r3 =>
                            match r3 with
                            | l1 :: l2 :: l3 :: l4 :: r4 =>
                                match decode_uXXXX l1 l2 l3 l4 with
                                | None => None
                                | Some uni2 =>
                                    if is_low_surrogate uni2
                                    then cons_char (join_surrogates uni uni2) (scanstring r4)
                                    else cons_char uni (scanstring r2)
                                end
                            | _ => None
                            end
                        | _ => cons_char uni (scanstring r2)
                        end
                      else cons_char uni (scanstring r2)
                  end
              | _ => None
              end
        end
  end.

(** A fraction [.d] or an exponent [e[+-]d] follows: the number is a float. *)
Definition float_follows (s : pystr) : bool :=
  match s with
  | 46 :: c :: _ => is_digit c
  | e :: r =>
      if (e =? 101) || (e =? 69) then
        match r with
        | c :: r' =>
            if (c =? 43) || (c =? 45)
            then match r' with c' :: _ => is_digit c' | [] => false end
            else is_digit c
        | [] => false
        end
      else false
  | [] => false
  end.

(** [NUMBER_RE] and what [scan_once] makes of its match: an optional minus
    sign, then a zero or a run of digits that starts with none, then a
    fraction, an exponent, both or neither; with a fraction or an exponent
    the text matched is read by [float], else by [int], which refuses more
    than [max_str_digits] digits. *)
Definition match_number (s : pystr) : option (json * pystr) :=
  let '(neg, s1) := Float.split_sign s in
  match s1 with
  | c :: s2 =>
      if is_digit c then
        let '(d, r) := if c =? 48 then (Decimal.D0 Decimal.Nil, s2) else scan_digits s1 in
        if float_follows r then
          let r' := snd (Float.scan_exponent (snd (Float.scan_fraction r))) in
          match Float.of_literal (take (length s - length r') s) with
          | Some x => Some (JFloat x, r')
          | None => None
          end
        else if (Decimal.nb_digits d <=? max_str_digits)%nat then
          let n := Z.of_N (N.of_uint d) in
          Some (JInt (if neg then - n else n)%Z, r)
        else None
      else None
  | [] => None
  end.

(** [dict(pairs)]: a later pair replaces the value of an earlier one with
    the same key. *)
Definition dict_of_pairs (pairs : list (pystr * json)) : list (pystr * json) :=
  fold_left (fun d kv => dict_set (fst kv) (snd kv) d) pairs [].

(** [s[idx:idx+len(w)] == w], and what follows. *)
Fixpoint strip_prefix (w s : pystr) : option pystr :=
  match w, s with
  | [], _ => Some s
  | a :: w', b :: s' => if a =? b then strip_prefix w' s' else None
  | _ :: _, [] => None
  end.

(** [NaN], [Infinity] and [-Infinity], which [scan_once] tries after a
    number. *)
Definition match_constant (s : pystr) : option (json * pystr) :=
  match strip_prefix (lit "NaN") s with
  | Some r' => Some (JFloat FNan, r')
  | None =>
      match strip_prefix (lit "Infinity") s with
      | Some r' => Some (JFloat (FInf false), r')
      | None =>
          match strip_prefix (lit "-Infinity") s with
          | Some r' => Some (JFloat (FInf true), r')
          | None => None
          end
      end
  end.

(** [scan_once] with [JSONArray] and [JSONObject]; the fuel bounds the
    nesting and the number of items, which the length of the text bounds. *)
Fixpoint scan_once (fuel : nat) (s : pystr) : option (json * pystr) :=
  match fuel with
  | O => None
  | S fuel' =>
      match s with
      | [] => None
      | c :: r =>
          if c =? 34 then
            match scanstring r with
            | Some (str, r') => Some (JStr str, r')
            | None => None
            end
          else if c =? 123 then
            match skip_ws r with
            | 125 :: r' => Some (JDict [], r')
            | 34 :: r' =>
                match object_items fuel' r' with
                | Some (pairs, r'') => Some (JDict (dict_of_pairs pairs), r'')
                | None => None
                end
            | _ => None
            end
          else if c =? 91 then
            match skip_ws r with
            | 93 :: r' => Some (JList [], r')
            | r' =>
                match array_items fuel' r' with
                | Some (values, r'') => Some (JList values, r'')
                | None => None
                end
            end
          else
            match strip_prefix (lit "null") s with
            | Some r' => Some (JNull, r')
            | None =>
                match strip_prefix (lit "true") s with
                | Some r' => Some (JBool true, r')
                | None =>
                    match strip_prefix (lit "false") s with
                    | Some r' => Some (JBool false, r')
                    | None =>
                        match match_number s with
                        | Some number => Some number
                        | None => match_constant s
                        end
                    end
                end
            end
      end
  end
with array_items (fuel : nat) (s : pystr) : option (list json * pystr) :=
  match fuel with
  | O => None
  | S fuel' =>
      match scan_once fuel' s with
      | None => None
      | Some (value, r) =>
          match skip_ws r with
          | c :: r' =>
              if c =? 93 then Some ([value], r')
              else if c =? 44 then
                match array_items fuel' (skip_ws r') with
                | Some (values, r'') => Some (value :: values, r'')
                | None => None
                end
              else None
          | [] => None
          end
      end
  end
with object_items (fuel : nat) (s : pystr) : option (list (pystr * json) * pystr) :=
  match fuel with
  | O => None
  | S fuel' =>
      match scanstring s with
      | None => None
      | Some (key, r) =>
          match skip_ws r with
          | 58 :: r1 =>
              match scan_once fuel' (skip_ws r1) with
              | None => None
              | Some (value, r2) =>
                  match skip_ws r2 with
                  | c :: r3 =>
                      if c =? 125 then Some ([(key, value)], r3)
                      else if c =? 44 then
                        match skip_ws r3 with
                        | 34 :: r4 =>
                            match object_items fuel' r4 with
                            | Some (pairs, r5) => Some ((key, value) :: pairs, r5)
                            | None => None
                            end
                        | _ => None
                        end
                      else None
                  | [] => None
                  end
              end
          | _ => None
          end
      end
  end.

(** What may follow a value in the output of [dumps]: the end of the text,
    a comma or a closing bracket. *)
Definition ends_value (s : pystr) : bool :=
  match s with
  | [] => true
  | c :: _ => (c =? 44) || (c =? 93) || (c =? 125)
  end.

(** The characters a value can start with in the output of [dumps]. *)
Definition value_start (c : N) : bool :=
  is_digit c || (c =? 45) || (c =? 34) || (c =? 91) || (c =? 123)
  || (c =? 110) || (c =? 116) || (c =? 102) || (c =? 78) || (c =? 73).

(** [json.loads(s)]: one value, with nothing but whitespace around it. *)
Definition loads (s : pystr) : option json :=
  match scan_once (S (length s)) (skip_ws s) with
  | Some (v, r) => match skip_ws r with [] => Some v | _ :: _ => None end
  | None => None
  end.

End Json.

(* ===================================================================== *)
(** ** The SQLite store (app/database.py) *)
(* ===================================================================== *)

Module Database.

(** A stored value: NULL, INTEGER, REAL or TEXT. *)
Inductive sqlval : Type :=
| SNull
| SInt (z : Z)
| SReal (x : float)
| SText (s : pystr).

(** What the storage engine and the file system decide: the INTEGER or REAL
    a TEXT value converts to when it is stored in a column of INTEGER
    affinity (for a text that looks like a number), the TEXT a REAL value
    converts to in a column of TEXT affinity, and whether a file of the
    upload directory can be written under a name. *)
Class Storage := {
  numeric_of_text : pystr -> option (Z + float);
  text_of_real : float -> pystr;
  can_write : pystr -> bool }.

(** A row of [prescriptions]. *)
Record PrescriptionRow := {
  rx_id : Z;
  rx_patient_id : sqlval;
  rx_doctor_name : sqlval;
  rx_diagnosis : sqlval;
  rx_medicines : sqlval;
  rx_notes : sqlval;
  rx_created_at : sqlval }.

(** A row of [reports]. *)
Record ReportRow := {
  rp_id : Z;
  rp_patient_id : sqlval;
  rp_doctor_name : sqlval;
  rp_title : sqlval;
  rp_file_path : sqlval;
  rp_created_at : sqlval }.

(** The two tables in insertion order, each with the largest row id its
    AUTOINCREMENT key has handed out ([sqlite_sequence]). *)
Record Db := {
  prescriptions : list PrescriptionRow;
  prescriptions_seq : Z;
  reports : list ReportRow;
  reports_seq : Z }.

(** The state the patient routes work on: the database, the files of
    [UPLOAD_DIR] by name, the reading of the clock and the log. *)
Record State := {
  db : Db;
  uploads : gmap pystr (list N);
  now : pystr;
  log : list pystr }.

Definition set_db (d : Db) (st : State) : State :=
  {| db := d; uploads := uploads st; now := now st; log := log st |}.

Definition set_uploads (u : gmap pystr (list N)) (st : State) : State :=
  {| db := db st; uploads := u; now := now st; log := log st |}.

Definition app_logger (msg : pystr) (st : State) : State :=
  {| db := db st; uploads := uploads st; now := now st; log := log st ++ [msg] |}.

Definition int64_max : Z := 9223372036854775807.
Definition int64_min : Z := -9223372036854775808.

Definition is_surrogate (c : N) : bool := ((55296 <=? c) && (c <=? 57343))%N.

(** How [sqlite3] binds a Python value to a [?]: [None], [int], [float] and
    [str] are stored, NaN as NULL; a list or a dict is refused, and so are
    an [int] outside 64 bits and a [str] UTF-8 cannot encode. *)
Definition bind_param (v : option json) : outcome sqlval :=
  match v with
  | None => Return SNull
  | Some JNull => Return SNull
  | Some (JBool b) => Return (SInt (if b then 1 else 0))
  | Some (JInt z) =>
      if (int64_min <=? z) && (z <=? int64_max) then Return (SInt z)
      else Raise (PyException (lit "OverflowError")
                    (lit "Python int too large to convert to SQLite INTEGER"))
  | Some (JFloat FNan) => Return SNull
  | Some (JFloat x) => Return (SReal x)
  | Some (JStr s) =>
      if existsb is_surrogate s
      then Raise (PyException (lit "UnicodeEncodeError") (lit "surrogates not allowed"))
      else Return (SText s)
  | Some (JList _) | Some (JDict _) =>
      Raise (PyException (lit "ProgrammingError")
               (lit "Error binding parameter: type is not supported"))
  end.

(** Column affinity: under INTEGER affinity a text that looks like a number
    becomes that number, and a REAL that is a whole number strictly inside
    64 bits becomes that INTEGER; under TEXT affinity a number becomes its
    text. *)
Definition integer_affinity `{Storage} (v : sqlval) : sqlval :=
  match v with
  | SText s =>
      match numeric_of_text s with
      | Some (inl z) => SInt z
      | Some (inr x) => SReal x
      | None => SText s
      end
  | SReal x =>
      match Float.to_Z x with
      | Some z => if (int64_min <? z) && (z <? int64_max) then SInt z else SReal x
      | None => SReal x
      end
  | _ => v
  end.

Definition text_affinity `{Storage} (v : sqlval) : sqlval :=
  match v with
  | SInt z => SText (str_of_Z z)
  | SReal x => SText (text_of_real x)
  | _ => v
  end.

Definition is_null (v : sqlval) : bool :=
  match v with SNull => true | _ => false end.

Definition integrity_error (column : pystr) : exn :=
  PyException (lit "IntegrityError") (lit "NOT NULL constraint failed: " +++ column).

(** The next AUTOINCREMENT key: one more than the largest key ever used. *)
Definition next_rowid (seq : Z) (ids : list Z) : Z :=
  fold_right Z.max seq ids + 1.

Definition database_full : exn :=
  PyException (lit "OperationalError") (lit "database or disk is full").

(** [INSERT INTO prescriptions (patient_id, doctor_name, diagnosis,
    medicines, notes) VALUES (?,?,?,?,?)]: the new row id and the table
    with the row, or the constraint that failed. *)
Definition insert_prescription `{Storage}
    (patient_id doctor_name diagnosis medicines notes : sqlval) (created_at : pystr)
    (d : Db) : outcome (Z * Db) :=
  let patient_id := integer_affinity patient_id in
  let doctor_name := text_affinity doctor_name in
  let diagnosis := text_affinity diagnosis in
  let medicines := text_affinity medicines in
  let notes := text_affinity notes in
  if is_null patient_id then Raise (integrity_error (lit "prescriptions.patient_id"))
  else if is_null doctor_name then Raise (integrity_error (lit "prescriptions.doctor_name"))
  else if is_null diagnosis then Raise (integrity_error (lit "prescriptions.diagnosis"))
  else if is_null medicines then Raise (integrity_error (lit "prescriptions.medicines"))
  else
    let id := next_rowid (prescriptions_seq d) (map rx_id (prescriptions d)) in
    if int64_max <? id then Raise database_full
    else
      let row := {| rx_id := id; rx_patient_id := patient_id;
                    rx_doctor_name := doctor_name; rx_diagnosis := diagnosis;
                    rx_medicines := medicines; rx_notes := notes;
                    rx_created_at := SText created_at |} in
      Return (id, {| prescriptions := prescriptions d ++ [row];
                     prescriptions_seq := id;
                     reports := reports d;
                     reports_seq := reports_seq d |}).

(** [INSERT INTO reports (patient_id, doctor_name, title, file_path)
    VALUES (?,?,?,?)]. *)
Definition insert_report `{Storage}
    (patient_id doctor_name title file_path : sqlval) (created_at : pystr)
    (d : Db) : outcome (Z * Db) :=
  let patient_id := integer_affinity patient_id in
  let doctor_name := text_affinity doctor_name in
  let title := text_affinity title in
  let file_path := text_affinity file_path in
  if is_null patient_id then Raise (integrity_error (lit "reports.patient_id"))
  else if is_null doctor_name then Raise (integrity_error (lit "reports.doctor_name"))
  else if is_null title then Raise (integrity_error (lit "reports.title"))
  else if is_null file_path then Raise (integrity_error (lit "reports.file_path"))
  else
    let id := next_rowid (reports_seq d) (map rp_id (reports d)) in
    if int64_max <? id then Raise database_full
    else
      let row := {| rp_id := id; rp_patient_id := patient_id;
                    rp_doctor_name := doctor_name; rp_title := title;
                    rp_file_path := file_path;
                    rp_created_at := SText created_at |} in
      Return (id, {| prescriptions := prescriptions d;
                     prescriptions_seq := prescriptions_seq d;
                     reports := reports d ++ [row];
                     reports_seq := id |}).

(** [SELECT * FROM prescriptions WHERE id=?] with [fetchone]. *)
Definition select_prescription_by_id (id : Z) (d : Db) : option PrescriptionRow :=
  find (fun r => rx_id r =? id) (prescriptions d).

Definition select_report_by_id (id : Z) (d : Db) : option ReportRow :=
  find (fun r => rp_id r =? id) (reports d).

(** [column = ?] against an [int] parameter: numbers compare by value. *)
Definition sql_eq_int (v : sqlval) (p : Z) : bool :=
  match v with
  | SInt z => z =? p
  | SReal x => Float.scaled x =? p * 2 ^ 1074
  | _ => false
  end.

(** The order of [ORDER BY]: NULL, then numbers by value, then texts
    character by character. *)
Fixpoint pystr_leb (a b : pystr) : bool :=
  match a, b with
  | [], _ => true
  | _ :: _, [] => false
  | x :: a', y :: b' => if (x <? y)%N then true else if (y <? x)%N then false else pystr_leb a' b'
  end.

Definition numeric_rank (v : sqlval) : option Z :=
  match v with
  | SInt z => Some (z * 2 ^ 1074)
  | SReal x => Some (Float.scaled x)
  | _ => None
  end.

Definition sqlval_leb (a b : sqlval) : bool :=
  match a, b with
  | SNull, _ => true
  | _, SNull => false
  | SText x, SText y => pystr_leb x y
  | SText _, _ => false
  | _, SText _ => true
  | _, _ =>
      match numeric_rank a, numeric_rank b with
      | Some x, Some y => x <=? y
      | _, _ => true
      end
  end.

(** [created_at] of [a] is not before that of [b]: [a] may come first under
    [ORDER BY created_at DESC]. *)
Definition newer_first (a b : PrescriptionRow) : Prop :=
  sqlval_leb (rx_created_at b) (rx_created_at a) = true.

#[global] Instance newer_first_dec a b : Decision (newer_first a b).
Proof. unfold newer_first. apply _. Defined.

(** [SELECT * FROM prescriptions WHERE patient_id=? ORDER BY created_at
    DESC] with [fetchall]. *)
Definition select_prescriptions_of (patient_id : Z) (d : Db) : list PrescriptionRow :=
  merge_sort newer_first
    (filter (fun r => sql_eq_int (rx_patient_id r) patient_id = true) (prescriptions d)).

End Database.

(* ===================================================================== *)
(** ** The patient routes (app/api/patients.py) *)
(* ===================================================================== *)

Module Patients.
Import Database.

(** A prescription as the routes return it: the row as a dict, with
    [medicines] replaced by the decoded list. *)
Record PrescriptionItem := {
  item_id : Z;
  item_patient_id : sqlval;
  item_doctor_name : sqlval;
  item_diagnosis : sqlval;
  item_medicines : json;
  item_notes : sqlval;
  item_created_at : sqlval }.

(** [json.loads(item["medicines"])] on a stored value. *)
Definition loads_column (v : sqlval) : outcome json :=
  match v with
  | SText s =>
      match Json.loads s with
      | Some j => Return j
      | None => Raise (PyException (lit "JSONDecodeError") (lit "Expecting value"))
      end
  | _ => Raise (PyException (lit "TypeError")
                  (lit "the JSON object must be str, bytes or bytearray"))
  end.

(** [item = dict(r); item["medicines"] = json.loads(item["medicines"])]. *)
Definition decode_row (r : PrescriptionRow) : outcome PrescriptionItem :=
  match loads_column (rx_medicines r) with
  | Return medicines =>
      Return {| item_id := rx_id r; item_patient_id := rx_patient_id r;
                item_doctor_name := rx_doctor_name r;
                item_diagnosis := rx_diagnosis r;
                item_medicines := medicines;
                item_notes := rx_notes r;
                item_created_at := rx_created_at r |}
  | Raise e => Raise e
  end.

(** The loop of [list_prescriptions]: the first row that fails to decode
    raises. *)
Fixpoint decode_rows (rows : list PrescriptionRow) : outcome (list PrescriptionItem) :=
  match rows with
  | [] => Return []
  | r :: rows' =>
      match decode_row r with
      | Raise e => Raise e
      | Return item =>
          match decode_rows rows' with
          | Raise e => Raise e
          | Return items => Return (item :: items)
          end
      end
  end.

(** An outcome computed without touching the state. *)
Definition lift_outcome {W A} (o : outcome A) : M W A := fun w => (o, w).

Section Handlers.
Context `{Storage}.

(** [list_prescriptions]: the id is bound to the query, the rows are
    fetched and decoded. *)
Definition list_prescriptions (patient_id : Z) : M State (list PrescriptionItem) :=
  lift_outcome (bind_param (Some (JInt patient_id))) ;;;
  rows <- gets (fun st => select_prescriptions_of patient_id (db st)) ;;
  lift_outcome (decode_rows rows).

(** [create_prescription]: the parameters are built, [json.dumps] among
    them, before the statement binds them one by one. *)
Definition create_prescription (body : list (pystr * json)) : M State PrescriptionItem :=
  let patient_id := dict_get (lit "patient_id") body in
  let doctor_name := dict_get (lit "doctor_name") body in
  let diagnosis := dict_get (lit "diagnosis") body in
  let medicines := default (JList []) (dict_get (lit "medicines") body) in
  let notes := default (JStr []) (dict_get (lit "notes") body) in
  encoded <- lift_outcome (Json.dumps_call medicines) ;;
  p1 <- lift_outcome (bind_param patient_id) ;;
  p2 <- lift_outcome (bind_param doctor_name) ;;
  p3 <- lift_outcome (bind_param diagnosis) ;;
  p4 <- ret (SText encoded) ;;
  p5 <- lift_outcome (bind_param (Some notes)) ;;
  st <- gets id ;;
  inserted <- lift_outcome (insert_prescription p1 p2 p3 p4 p5 (now st) (db st)) ;;
  let '(lastrowid, d) := inserted in
  let row := select_prescription_by_id lastrowid d in
  modify (set_db d) ;;;
  match row with
  | None => raise (PyException (lit "TypeError") (lit "'NoneType' object is not iterable"))
  | Some r => lift_outcome (decode_row r)
  end.

(** [upload_report]. *)
Definition upload_report (patient_id : Z) (doctor_name title : pystr) (file : UploadFile)
  : M State ReportRow :=
  try_except
    (let content := upload_content file in
     when (bool_decide (content = []))
       (raise (HTTPException 400 (lit "File is empty"))) ;;;
     let filename := str_of_Z patient_id +++ lit "_" +++ upload_filename file in
     (if can_write filename
      then modify (fun st => set_uploads (<[filename := content]> (uploads st)) st)
      else raise (PyException (lit "OSError") (lit "cannot write the file"))) ;;;
     modify (app_logger (lit "Report saved: data/uploads/" +++ filename)) ;;;
     p1 <- lift_outcome (bind_param (Some (JInt patient_id))) ;;
     p2 <- lift_outcome (bind_param (Some (JStr doctor_name))) ;;
     p3 <- lift_outcome (bind_param (Some (JStr title))) ;;
     p4 <- lift_outcome (bind_param (Some (JStr filename))) ;;
     st <- gets id ;;
     inserted <- lift_outcome (insert_report p1 p2 p3 p4 (now st) (db st)) ;;
     let '(lastrowid, d) := inserted in
     let row := select_report_by_id lastrowid d in
     modify (set_db d) ;;;
     match row with
     | None => raise (PyException (lit "TypeError") (lit "'NoneType' object is not iterable"))
     | Some r => ret r
     end)
    (fun e =>
       modify (app_logger (lit "Error uploading report: " +++ str_exn e)) ;;;
       raise (HTTPException 500 (lit "Upload failed: " +++ str_exn e))).

(** What can happen to the state between two requests: a prescription is
    posted, a report is uploaded, the seed script inserts a prescription
    with the same INSERT, or the clock moves. The other routes read, or
    write tables that are not modelled. *)
Inductive step : State -> State -> Prop :=
| step_create_prescription body st :
    step st (snd (create_prescription body st))
| step_upload_report patient_id doctor_name title file st :
    step st (snd (upload_report patient_id doctor_name title file st))
| step_seed p1 p2 p3 p4 p5 st lastrowid d :
    insert_prescription p1 p2 p3 p4 p5 (now st) (db st) = Return (lastrowid, d) ->
    step st (set_db d st)
| step_clock t st :
    step st {| db := db st; uploads := uploads st; now := t; log := log st |}.

(** [later st st']: [st'] is the state after any number of such steps. *)
Definition later : State -> State -> Prop := rtc step.

(** [decodable st]: the [medicines] column of every row is a text the
    decoder reads. *)
Definition decodable (st : State) : Prop :=
  forall r, r ∈ prescriptions (db st) ->
    exists medicines, loads_column (rx_medicines r) = Return medicines.

(** [kept row st]: the row is in the table, and no other row has its id. *)
Definition kept (row : PrescriptionRow) (st : State) : Prop :=
  row ∈ prescriptions (db st)
  /\ forall r, r ∈ prescriptions (db st) -> rx_id r = rx_id row -> r = row.

End Handlers.
End Patients.

(* ===================================================================== *)
(** ** The retrieval pipeline behind [rag_pipeline] *)
(* ===================================================================== *)

(** The pipeline object the routes import lives in [app/rag/rag_pipeline.py],
    which is not among the sources at hand; its components are modelled
    from the specification, section 4, one definition per contract. *)
Module Rag.
Local Open Scope nat_scope.

(** An embedding: a vector of rationals. *)
Abbreviation vector := (list Q).

(** Modelled from the spec: the Chunk record of section 3 (the source of the
    index is missing). *)
Record Chunk := {
  chunk_id : nat;
  doc_id : pystr;
  text : pystr;
  char_offset_start : nat;
  char_offset_end : nat;
  embedding : vector;
  created_at : nat }.

(** Modelled from the spec: the two external collaborators of section 6
    (embedding service with its similarity metric, generation service);
    either call may fail. *)
Class Collaborators := {
  embed : pystr -> outcome vector;
  similarity : vector -> vector -> Q;
  generate : pystr -> outcome pystr }.

(** Modelled from the spec: the configuration the contracts refer to: chunk
    size, overlap, the lookback window and the boundary the chunker prefers
    in it ([prefer_end text lo hi] is the end it would give a chunk among
    the offsets [lo] to [hi], if it finds the end of a sentence or a
    paragraph there: which characters end one, which of several it takes
    and on which side of it the cut falls are the chunker's), the default
    [top_k], the prompt budget and the provenance tag of a chunk in a
    prompt. *)
Record Config := {
  chunk_size : nat;
  overlap : nat;
  lookback : nat;
  prefer_end : pystr -> nat -> nat -> option nat;
  default_top_k : nat;
  max_prompt_chars : nat;
  chunk_tag : Chunk -> pystr }.

(** The state of the pipeline: the index in insertion order, the next chunk
    id, the clock, and the prompts handed to the generation service so far. *)
Record RagState := {
  index : list Chunk;
  next_chunk_id : nat;
  rag_clock : nat;
  generation_log : list pystr }.

Definition ConfigurationError : exn :=
  PyException (lit "ConfigurationError") (lit "invalid chunk size or overlap").
Definition EmbeddingError (msg : pystr) : exn :=
  PyException (lit "EmbeddingError") msg.

(** *** Chunker *)

(** One chunker's preference: the boundary nearest to the limit from below,
    the cut falling behind the character that ends the sentence or the
    paragraph. *)
Definition boundary_before (is_boundary : N -> bool) (document : pystr) (p : nat) : bool :=
  match p with
  | O => false
  | S i => match document !! i with Some c => is_boundary c | None => false end
  end.

Fixpoint nearest_boundary (is_boundary : N -> bool) (document : pystr) (lo p : nat)
  : option nat :=
  match p with
  | O => None
  | S p' =>
      if p <? lo then None
      else if boundary_before is_boundary document p then Some p
      else nearest_boundary is_boundary document lo p'
  end.

(** Where the chunk that starts at [start] ends when the text goes on past
    [start + chunk_size]: at the boundary preferred inside the lookback
    window, else at the hard limit. The window never reaches back into the
    part the next chunk repeats, so every chunk brings new text and the
    sequence is finite. *)
Definition chunk_end (cfg : Config) (document : pystr) (start : nat) : nat :=
  let hard := start + chunk_size cfg in
  let lo := Nat.max (start + overlap cfg + 1) (hard - lookback cfg) in
  match prefer_end cfg document lo hard with
  | Some p => if (lo <=? p) && (p <=? hard) then p else hard
  | None => hard
  end.

Fixpoint split_from (fuel : nat) (cfg : Config) (document : pystr) (start : nat)
  : list (nat * nat) :=
  match fuel with
  | O => []
  | S fuel' =>
      if length document <=? start + chunk_size cfg then [(start, length document)]
      else
        let e := chunk_end cfg document start in
        (start, e) :: split_from fuel' cfg document (e - overlap cfg)
  end.

Definition split_ranges (cfg : Config) (document : pystr) : list (nat * nat) :=
  match document with
  | [] => []
  | _ :: _ => split_from (length document) cfg document 0
  end.

Definition slice (document : pystr) (r : nat * nat) : pystr :=
  take (snd r - fst r) (drop (fst r) document).

(** Modelled from the spec: Chunker.split of section 4.1 (the source of the
    chunker is missing): positive sizes with [overlap < chunk_size] or a
    configuration error; no chunk for an empty text; each chunk ends at the
    sentence or paragraph boundary preferred inside the lookback window
    before the size limit, else at the limit; the next chunk starts
    [overlap] characters before the end of the previous one. *)
Definition split (cfg : Config) (document : pystr) : outcome (list (pystr * nat * nat)) :=
  if (0 <? overlap cfg)%nat && (overlap cfg <? chunk_size cfg)%nat
  then Return (map (fun r => (slice document r, fst r, snd r)) (split_ranges cfg document))
  else Raise ConfigurationError.

(** The character range of a chunk. *)
Definition range_of (c : pystr * nat * nat) : nat * nat := (snd (fst c), snd c).

(** Every position of a text of length [L] lies in one of the ranges. *)
Definition covers (ranges : list (nat * nat)) (L : nat) : Prop :=
  forall p, p < L -> exists r, r ∈ ranges /\ fst r <= p < snd r.

(** The number of positions two ranges share. *)
Definition range_overlap (a b : nat * nat) : nat :=
  Nat.min (snd a) (snd b) - Nat.max (fst a) (fst b).

(** Each range shares with the next at least [ov] positions, or all that is
    left of the text from where the next one starts. *)
Definition adjacent_overlap (ranges : list (nat * nat)) (ov L : nat) : Prop :=
  forall i a b,
    ranges !! i = Some a -> ranges !! S i = Some b ->
    Nat.min ov (L - fst b) <= range_overlap a b.

(** The text a chunk carries is the part of the document its range names. *)
Definition carries (document : pystr) (c : pystr * nat * nat) : Prop :=
  let '(chunk_text, start, stop) := c in
  start < stop <= length document
  /\ chunk_text = take (stop - start) (drop start document).

(** No boundary is found when the text is split, and every chunk but the
    last is cut at the size limit: the lookback window is empty, or the
    chunker finds no end of a sentence or paragraph in the text. *)
Definition hard_splits (cfg : Config) (document : pystr) : Prop :=
  lookback cfg = 0 \/ forall lo hi, prefer_end cfg document lo hi = None.

(** [ceil(a / b)]. *)
Definition ceil_div (a b : nat) : nat := (a + b - 1) / b.

(** *** EmbeddingIndex *)

Section Pipeline.
Context `{Collaborators}.
Context (cfg : Config).

(** Modelled from the spec: EmbeddingIndex.insert of section 4.2: embed the
    text, refuse a vector whose dimension differs from the one the first
    insert established, give the chunk the next id and append it. *)
Definition insert (piece : pystr * nat * nat) (doc : pystr) : M RagState Chunk :=
  fun st =>
    let '(chunk_text, start, stop) := piece in
    match embed chunk_text with
    | Raise e => (Raise e, st)
    | Return v =>
        let fits := match index st with
                    | [] => true
                    | c :: _ => bool_decide (length v = length (embedding c))
                    end in
        if fits then
          let c := {| chunk_id := next_chunk_id st; doc_id := doc; text := chunk_text;
                      char_offset_start := start; char_offset_end := stop;
                      embedding := v; created_at := rag_clock st |} in
          (Return c, {| index := index st ++ [c];
                        next_chunk_id := S (next_chunk_id st);
                        rag_clock := rag_clock st;
                        generation_log := generation_log st |})
        else (Raise (EmbeddingError (lit "dimension mismatch")), st)
    end.

(** [a] ranks before [b]: its score is higher, or the scores are equal and
    its chunk id is not larger. *)
Definition rank_leb (a b : Chunk * Q) : bool :=
  match Qcompare (snd a) (snd b) with
  | Gt => true
  | Eq => (chunk_id (fst a) <=? chunk_id (fst b))%nat
  | Lt => false
  end.

Definition ranks_before (a b : Chunk * Q) : Prop := rank_leb a b = true.

#[global] Instance ranks_before_dec a b : Decision (ranks_before a b).
Proof. unfold ranks_before. apply _. Defined.

(** Modelled from the spec: EmbeddingIndex.query of section 4.2: score every
    stored chunk against the query embedding, order by descending score with
    ties to the earlier chunk id, return the first [k]. *)
Definition query (idx : list Chunk) (q : vector) (k : nat) : list (Chunk * Q) :=
  take k (merge_sort ranks_before (map (fun c => (c, similarity q (embedding c))) idx)).

(** The scores never increase along the results. *)
Definition scores_non_increasing (results : list (Chunk * Q)) : Prop :=
  forall i j a b,
    i < j -> results !! i = Some a -> results !! j = Some b -> (snd b <= snd a)%Q.

(** *** RetrievalPlanner *)

(** Modelled from the spec: the resolution of [top_k] of section 4.3: the
    configured default when absent, else the value clamped into [1, 20]. *)
Definition resolve_top_k (requested : option Z) : nat :=
  match requested with
  | None => default_top_k cfg
  | Some v => Z.to_nat (Z.max 1 (Z.min 20 v))
  end.

(** Modelled from the spec: RetrievalPlanner.plan of section 4.3. *)
Definition plan (query_text : pystr) (requested_top_k : option Z)
  : M RagState (list (Chunk * Q)) :=
  fun st =>
    match embed query_text with
    | Raise e => (Raise e, st)
    | Return v => (Return (query (index st) v (resolve_top_k requested_top_k)), st)
    end.

(** *** PromptAssembler *)

Definition render (instruction : pystr) (included : list (Chunk * Q)) : pystr :=
  instruction ++ flat_map (fun r => chunk_tag cfg (fst r) ++ text (fst r)) included.

(** The longest prefix of at most [n] results whose prompt fits the budget,
    and never less than the top result. *)
Fixpoint fit (instruction : pystr) (results : list (Chunk * Q)) (budget n : nat)
  : list (Chunk * Q) :=
  match n with
  | O => []
  | S O => take 1 results
  | S m =>
      if (length (render instruction (take n results)) <=? budget)%nat
      then take n results
      else fit instruction results budget m
  end.

(** Modelled from the spec: PromptAssembler.assemble of section 4.4: the
    prompt and the chunks it includes. *)
Definition assemble (instruction : pystr) (results : list (Chunk * Q)) (budget : nat)
  : pystr * list (Chunk * Q) :=
  let included := fit instruction results budget (length results) in
  (render instruction included, included).

(** *** RAGOrchestrator *)

Definition summary_instruction : pystr := lit "produce a comprehensive summary".
Definition answer_instruction : pystr :=
  lit "answer the question using only the provided context.".

(** A call of the generation service: the prompt is recorded, then the
    service answers or fails. *)
Definition call_generate (prompt : pystr) : M RagState pystr :=
  fun st =>
    (generate prompt,
     {| index := index st; next_chunk_id := next_chunk_id st;
        rag_clock := rag_clock st;
        generation_log := generation_log st ++ [prompt] |}).

(** The state after one more prompt went to the generation service. *)
Definition log_prompt (prompt : pystr) (st : RagState) : RagState :=
  {| index := index st; next_chunk_id := next_chunk_id st;
     rag_clock := rag_clock st;
     generation_log := generation_log st ++ [prompt] |}.

(** The outcome of a call, with its value packaged by [f]. *)
Definition outcome_map {A B} (f : A -> B) (o : outcome A) : outcome B :=
  match o with
  | Return a => Return (f a)
  | Raise e => Raise e
  end.

Fixpoint insert_all (pieces : list (pystr * nat * nat)) (doc : pystr) : M RagState nat :=
  match pieces with
  | [] => ret O
  | p :: ps =>
      insert p doc ;;;
      n <- insert_all ps doc ;;
      ret (S n)
  end.

(** Modelled from the spec: RAGOrchestrator.ingest of section 4.5: chunk,
    then insert chunk by chunk; what was inserted before a failure stays. *)
Definition ingest (document_text : pystr) (doc : pystr) : M RagState nat :=
  pieces <- (fun st => (split cfg document_text, st)) ;;
  insert_all pieces doc.

(** Modelled from the spec: RAGOrchestrator.summarize_with_retrieval of
    section 4.5. *)
Definition summarize_with_retrieval (query_text : pystr) (top_k : option Z)
  : M RagState (pystr * list Chunk) :=
  results <- plan query_text top_k ;;
  let '(prompt, used) := assemble summary_instruction results (max_prompt_chars cfg) in
  summary_text <- call_generate prompt ;;
  ret (summary_text, map fst used).

(** Modelled from the spec: RAGOrchestrator.answer_with_retrieval of section
    4.5. *)
Definition answer_with_retrieval (question : pystr) (top_k : option Z)
  : M RagState (pystr * list Chunk * nat) :=
  results <- plan question top_k ;;
  let '(prompt, used) := assemble answer_instruction results (max_prompt_chars cfg) in
  answer_text <- call_generate prompt ;;
  ret (answer_text, map fst used, length used).

End Pipeline.
End Rag.

(* ===================================================================== *)
(** ** A small concrete process, to run the handlers on *)
(* ===================================================================== *)

(** Concrete collaborators: a loader that is available, a pipeline that
    indexes one chunk per three characters and answers with fixed texts, a
    document processor that reads the temporary file back, and a file system
    with one temporary file at a time. *)
Module Doubles.

Record World := {
  w_available : bool;
  w_loaded : bool;
  w_indexed : Z;
  w_tmp : option (pystr * list N);
  w_log : list pystr }.

Definition start : World :=
  {| w_available := true; w_loaded := false; w_indexed := 0;
     w_tmp := None; w_log := [] |}.

Definition unavailable : World :=
  {| w_available := false; w_loaded := true; w_indexed := 0;
     w_tmp := None; w_log := [] |}.

#[global] Instance loader : ModelLoader World := {
  is_available := w_available;
  is_loaded := w_loaded;
  load_model := modify (fun w =>
    {| w_available := w_available w; w_loaded := true; w_indexed := w_indexed w;
       w_tmp := w_tmp w; w_log := w_log w |}) }.

Definition chunks_of (document : pystr) : Z := len document / 3 + 1.

#[global] Instance pipeline : RagPipeline World := {
  process_large_document document := fun w =>
    (Return (JInt (chunks_of document)),
     {| w_available := w_available w; w_loaded := w_loaded w;
        w_indexed := w_indexed w + chunks_of document;
        w_tmp := w_tmp w; w_log := w_log w |});
  generate_summary_with_rag query top_k := ret (lit "Stable. Continue Metformin.");
  answer_question_with_rag question top_k :=
    ret {| result_question := question;
           result_answer := lit "Metformin 500mg";
           result_num_chunks_used := 2;
           result_relevant_chunks := Some [lit "Rx: Metformin"; lit "500mg twice daily"] |} }.

#[global] Instance processor : DocumentProcessor World := {
  validate_file_size path := ret tt;
  process_document path := fun w =>
    match w_tmp w with
    | Some (name, content) =>
        if bool_decide (name = path) then (Return content, w)
        else (Raise (PyException (lit "FileNotFoundError") path), w)
    | None => (Raise (PyException (lit "FileNotFoundError") path), w)
    end }.

Definition add_log (msg : pystr) (w : World) : World :=
  {| w_available := w_available w; w_loaded := w_loaded w; w_indexed := w_indexed w;
     w_tmp := w_tmp w; w_log := w_log w ++ [msg] |}.

#[global] Instance platform : Platform World := {
  log_info := add_log;
  log_error := add_log;
  named_temporary_file suffix content := fun w =>
    (Return (lit "/tmp/tmp0" +++ suffix),
     {| w_available := w_available w; w_loaded := w_loaded w; w_indexed := w_indexed w;
        w_tmp := Some (lit "/tmp/tmp0" +++ suffix, content); w_log := w_log w |});
  unlink_missing_ok path := modify (fun w =>
    {| w_available := w_available w; w_loaded := w_loaded w; w_indexed := w_indexed w;
       w_tmp := None; w_log := w_log w |});
  path_suffix name := lit ".txt" }.

Definition report_file : UploadFile :=
  {| upload_filename := lit "report.txt"; upload_content := lit "BP 160/100" |}.

Definition summary_request (k : option Z) : RAGSummaryRequest.body :=
  {| RAGSummaryRequest.body_query := None; RAGSummaryRequest.body_top_k := k |}.

Definition question_request (k : option Z) : RAGQuestionRequest.body :=
  {| RAGQuestionRequest.body_question := Some (lit "Which medicine?");
     RAGQuestionRequest.body_top_k := k |}.

(** An embedding service that counts the letters a, b and c, with the dot
    product as the metric, and a generation service that answers with the
    prompt followed by a full stop. *)
Definition count_char (c : N) (s : pystr) : Q :=
  inject_Z (len (filter (fun x => x = c) s)).

Fixpoint dot (u v : Rag.vector) : Q :=
  match u, v with
  | a :: u', b :: v' => (a * b + dot u' v')%Q
  | _, _ => 0%Q
  end.

#[global] Instance collaborators : Rag.Collaborators := {
  Rag.embed s := Return [count_char 97 s; count_char 98 s; count_char 99 s];
  Rag.similarity := dot;
  Rag.generate prompt := Return (prompt +++ lit ".") }.

(** Chunks of 500 characters that repeat 50, cut after a full stop or a line
    feed found in the last 100 characters. *)
Definition config : Rag.Config :=
  {| Rag.chunk_size := 500; Rag.overlap := 50; Rag.lookback := 100;
     Rag.prefer_end := Rag.nearest_boundary (fun c => (c =? 46)%N || (c =? 10)%N);
     Rag.default_top_k := 5; Rag.max_prompt_chars := 2000;
     Rag.chunk_tag := fun c =>
       lit "[" +++ str_of_Z (Z.of_nat (Rag.char_offset_start c)) +++ lit "] " |}.

(** 5000 letters, and 5000 characters with one full stop at offset 479. *)
Definition plain_document : pystr := repeat 97%N 5000.

Definition empty_rag : Rag.RagState :=
  {| Rag.index := []; Rag.next_chunk_id := 0; Rag.rag_clock := 0;
     Rag.generation_log := [] |}.

(** An index of three chunks, about a, b and c. *)
Definition three_chunks : Rag.RagState :=
  snd (Rag.insert_all
         [ (lit "aaa", 0%nat, 3%nat); (lit "bbb", 3%nat, 6%nat); (lit "ccc", 6%nat, 9%nat) ]
         (lit "doc-2") empty_rag).

(** A storage engine that reads no text as a number and writes a REAL as
    [repr] does, and a file system that accepts every name. *)
#[global] Instance storage : Database.Storage := {
  Database.numeric_of_text := fun _ => None;
  Database.text_of_real := Float.repr;
  Database.can_write := fun _ => true }.

Definition empty_db : Database.Db :=
  {| Database.prescriptions := []; Database.prescriptions_seq := 0;
     Database.reports := []; Database.reports_seq := 0 |}.

(** A prescription as the client posts it. *)
Definition sample_medicines : json :=
  JList [ JStr (lit "Metformin 500mg " +++ [8211%N] +++ lit " twice daily after meals");
          JStr (lit "Aspirin 75mg " +++ [8211%N] +++ lit " once daily");
          JDict [ (lit "name", JStr (lit "Amlodipine")); (lit "mg", JInt 5);
                  (lit "units", JFloat (Float.of_decimal false 25 (-1)));
                  (lit "note", JStr [128138%N; 10%N]) ] ].

Definition sample_body : list (pystr * json) :=
  [ (lit "patient_id", JInt 1);
    (lit "doctor_name", JStr (lit "Dr. Anjali Rao"));
    (lit "diagnosis", JStr (lit "Type 2 Diabetes Mellitus"));
    (lit "medicines", sample_medicines);
    (lit "notes", JStr (lit "Follow-up in 4 weeks.")) ].

(** A second prescription for the same patient. *)
Definition second_body : list (pystr * json) :=
  [ (lit "patient_id", JInt 1);
    (lit "doctor_name", JStr (lit "Dr. Anjali Rao"));
    (lit "diagnosis", JStr (lit "Hypertension"));
    (lit "medicines", JList [JStr (lit "Amlodipine 5mg"); JFloat (Float.of_decimal false 5 (-1))]) ].

Definition empty_state : Database.State :=
  {| Database.db := empty_db; Database.uploads := ∅;
     Database.now := lit "2024-05-01 10:00:00"; Database.log := [] |}.

End Doubles.

(* ===================================================================== *)
(** * Properties *)
(* ===================================================================== *)

(** ** The handler monad *)

(** Case analysis on the next collaborator call of a handler run. *)
Ltac step_run :=
  match goal with
  | H : context [match ?m ?w with (_, _) => _ end] |- _ =>
      let o := fresh "o" in let w' := fresh "w" in let E := fresh "E" in
      destruct (m w) as [o w'] eqn:E; try destruct o
  | H : context [if ?b then _ else _] |- _ =>
      let E := fresh "E" in destruct b eqn:E
  end.

Ltac unfold_run H :=
  unfold try_except, try_finally, bind, ret, raise, gets, modify, when in H; simpl in H.

Lemma reraise_never_returns {W A} `{!Platform W} (what : pystr) (e : exn) (w w' : W) (a : A) :
  Routes.reraise_http_else_500 what e w <> (Return a, w').
Proof.
  unfold Routes.reraise_http_else_500.
  destruct (is_HTTPException e); unfold bind, modify, raise; simpl; congruence.
Qed.

Lemma wrap_500_never_returns {W A} `{!Platform W} (what : pystr) (e : exn) (w w' : W) (a : A) :
  Routes.wrap_500 what e w <> (Return a, w').
Proof. unfold Routes.wrap_500, bind, modify, raise; simpl; congruence. Qed.

(** ** Health check *)

Section RoutesFacts.
Import HealthResponse SummaryResponse RAGAnswerResponse DocumentUploadResponse.
Import Routes.
Context {W : Type}.
Context `{!ModelLoader W, !RagPipeline W, !DocumentProcessor W, !Platform W}.

(** C8: in every health-check response [model_loaded] implies
    [ml_available]: when the ML dependencies are reported unavailable, the
    model is reported not loaded. *)
Theorem health_check_loaded_implies_available (app_version : pystr) (w w' : W)
    (r : HealthResponse.t) :
  health_check app_version w = (Return r, w') ->
  ml_available r = false ->
  model_loaded r = false.
Proof.
  unfold health_check. intros Hrun Hml.
  inversion Hrun; subst; clear Hrun. simpl in *.
  now rewrite Hml.
Qed.

(** ** Request validation *)

Lemma validate_optional_int_out_of_range (field : pystr) (lo hi k : Z) :
  k < lo \/ hi < k ->
  exists err, validate_optional_int field lo hi (Some k) = inl err.
Proof.
  intros Hk. unfold validate_optional_int.
  destruct (Z.ltb_spec k lo); [eauto|].
  destruct (Z.ltb_spec hi k); [eauto|]. lia.
Qed.

Lemma validate_optional_int_in_range (field : pystr) (lo hi k : Z) :
  lo <= k <= hi ->
  validate_optional_int field lo hi (Some k) = inr (Some k).
Proof.
  intros Hk. unfold validate_optional_int.
  destruct (Z.ltb_spec k lo); [lia|].
  destruct (Z.ltb_spec hi k); [lia|]. reflexivity.
Qed.

(** C1 (as the code has it): a RAG summarize or question request that
    supplies a [top_k] outside [1, 20] fails request validation: the
    endpoint answers with status 422, the handler does not run and the
    state is untouched; the value is not clamped. A supplied [top_k] inside
    [1, 20] reaches the handler of either endpoint unchanged: the endpoint
    runs the handler on the request with that [top_k]. *)
Theorem top_k_out_of_range_is_rejected (k : Z) (q : option pystr) (question : option pystr)
    (w : W) :
  (k < 1 \/ 20 < k ->
   (exists detail,
      post_rag_summarize {| RAGSummaryRequest.body_query := q; RAGSummaryRequest.body_top_k := Some k |} w
      = (Raise (HTTPException 422 detail), w)) /\
   (exists detail,
      post_rag_question {| RAGQuestionRequest.body_question := question; RAGQuestionRequest.body_top_k := Some k |} w
      = (Raise (HTTPException 422 detail), w))) /\
  (1 <= k <= 20 ->
   post_rag_summarize {| RAGSummaryRequest.body_query := q; RAGSummaryRequest.body_top_k := Some k |} w
   = rag_summarize {| RAGSummaryRequest.query := default RAGSummaryRequest.default_query q;
                      RAGSummaryRequest.top_k := Some k |} w
   /\ forall text,
        question = Some text ->
        post_rag_question {| RAGQuestionRequest.body_question := question; RAGQuestionRequest.body_top_k := Some k |} w
        = rag_question {| RAGQuestionRequest.question := text;
                          RAGQuestionRequest.top_k := Some k |} w).
Proof.
  split.
  - intros Hk.
    destruct (validate_optional_int_out_of_range (lit "top_k") 1 20 k Hk) as [err Herr].
    split.
    + unfold post_rag_summarize, endpoint, RAGSummaryRequest.validate.
      cbn [RAGSummaryRequest.body_top_k]. rewrite Herr. eexists. reflexivity.
    + unfold post_rag_question, endpoint, RAGQuestionRequest.validate.
      cbn [RAGQuestionRequest.body_question RAGQuestionRequest.body_top_k].
      destruct question as [s|]; cbn [validate_required].
      * rewrite Herr. eexists. reflexivity.
      * eexists. reflexivity.
  - intros Hk.
    pose proof (validate_optional_int_in_range (lit "top_k") 1 20 k Hk) as Hin.
    split.
    + unfold post_rag_summarize, endpoint, RAGSummaryRequest.validate.
      cbn [RAGSummaryRequest.body_top_k RAGSummaryRequest.body_query].
      rewrite Hin. reflexivity.
    + intros text ->.
      unfold post_rag_question, endpoint, RAGQuestionRequest.validate.
      cbn [RAGQuestionRequest.body_question RAGQuestionRequest.body_top_k validate_required].
      rewrite Hin. reflexivity.
Qed.

(** Both request schemas keep a supplied [top_k] inside [1, 20]. *)
Lemma top_k_in_range_is_kept (k : Z) (q : option pystr) (text : pystr) :
  1 <= k <= 20 ->
  RAGSummaryRequest.validate {| RAGSummaryRequest.body_query := q; RAGSummaryRequest.body_top_k := Some k |}
  = inr {| RAGSummaryRequest.query := default RAGSummaryRequest.default_query q;
           RAGSummaryRequest.top_k := Some k |}
  /\ RAGQuestionRequest.validate {| RAGQuestionRequest.body_question := Some text; RAGQuestionRequest.body_top_k := Some k |}
     = inr {| RAGQuestionRequest.question := text; RAGQuestionRequest.top_k := Some k |}.
Proof.
  intros Hk. unfold RAGSummaryRequest.validate, RAGQuestionRequest.validate.
  cbn [RAGSummaryRequest.body_top_k RAGSummaryRequest.body_query
       RAGQuestionRequest.body_question RAGQuestionRequest.body_top_k validate_required].
  rewrite validate_optional_int_in_range by assumption.
  split; reflexivity.
Qed.

(** ** RAG summarize *)

(** C2 (as the code has it): the response of a successful RAG summarize
    call carries the text the pipeline generated, an input length of zero
    and the length of the text; these are its only fields, and no list of
    chunks is among them. *)
Theorem rag_summarize_response (request : RAGSummaryRequest.t) (w w' : W)
    (r : SummaryResponse.t) :
  rag_summarize request w = (Return r, w') ->
  (exists w1 w2,
     generate_summary_with_rag (RAGSummaryRequest.query request) (RAGSummaryRequest.top_k request) w1
     = (Return (summary r), w2)) /\
  input_length r = 0 /\
  summary_length r = len (summary r) /\
  dict_keys (SummaryResponse.dump r)
  = [lit "summary"; lit "input_length"; lit "summary_length"] /\
  dict_get (lit "chunks_used") (SummaryResponse.dump r) = None.
Proof.
  unfold rag_summarize, try_except. intros Hrun.
  match type of Hrun with
  | context [match ?body w with _ => _ end] => destruct (body w) as [[a|e] w0] eqn:Hbody
  end.
  2: { exfalso. eapply reraise_never_returns. exact Hrun. }
  inversion Hrun; subst; clear Hrun.
  unfold_run Hbody.
  repeat (step_run; unfold_run Hbody; try discriminate).
  all: inversion Hbody; subst; clear Hbody; simpl.
  all: split; [eauto|]; repeat split; reflexivity.
Qed.

(** ** RAG question *)

(** C4: the response of a successful RAG answer call carries the answer
    text, the list of chunks and the chunk count, each as the pipeline
    returned it, under the fields [answer], [relevant_chunks] and
    [num_chunks_used]. *)
Theorem rag_question_response (request : RAGQuestionRequest.t) (w w' : W)
    (r : RAGAnswerResponse.t) :
  rag_question request w = (Return r, w') ->
  (exists result w1 w2,
     answer_question_with_rag (RAGQuestionRequest.question request) (RAGQuestionRequest.top_k request) w1
     = (Return result, w2)
     /\ answer r = result_answer result
     /\ relevant_chunks r = result_relevant_chunks result
     /\ num_chunks_used r = result_num_chunks_used result) /\
  dict_get (lit "answer") (RAGAnswerResponse.dump r) = Some (JStr (answer r)) /\
  dict_get (lit "relevant_chunks") (RAGAnswerResponse.dump r)
  = Some (match relevant_chunks r with
          | None => JNull
          | Some l => JList (map JStr l)
          end) /\
  dict_get (lit "num_chunks_used") (RAGAnswerResponse.dump r)
  = Some (JInt (num_chunks_used r)).
Proof.
  unfold rag_question, try_except. intros Hrun.
  match type of Hrun with
  | context [match ?body w with _ => _ end] => destruct (body w) as [[a|e] w0] eqn:Hbody
  end.
  2: { exfalso. eapply reraise_never_returns. exact Hrun. }
  inversion Hrun; subst; clear Hrun.
  unfold_run Hbody.
  repeat (step_run; unfold_run Hbody; try discriminate).
  all: inversion Hbody; subst; clear Hbody; simpl.
  all: split; [eauto 10|]; repeat split; reflexivity.
Qed.

(** ** Document upload *)

(** C3 (as the code has it): the response of a successful document upload
    carries the file name, the size of the file in bytes, its format, the
    flag [processed] and a fixed message; these are its only fields. What
    the pipeline returns from indexing is not read, and no chunk count is
    reported. *)
Theorem upload_document_response (file : UploadFile) (w w' : W)
    (r : DocumentUploadResponse.t) :
  upload_document file w = (Return r, w') ->
  r = {| filename := upload_filename file;
         file_size := len (upload_content file);
         format := lstrip_dot (path_suffix (upload_filename file));
         processed := true;
         message := lit "Document processed and indexed successfully" |} /\
  dict_keys (DocumentUploadResponse.dump r)
  = [lit "filename"; lit "file_size"; lit "format"; lit "processed"; lit "message"] /\
  dict_get (lit "chunks_indexed") (DocumentUploadResponse.dump r) = None /\
  dict_get (lit "chunk_count") (DocumentUploadResponse.dump r) = None.
Proof.
  unfold upload_document, try_except. intros Hrun.
  match type of Hrun with
  | context [match ?body w with _ => _ end] => destruct (body w) as [[a|e] w0] eqn:Hbody
  end.
  2: { exfalso. eapply wrap_500_never_returns. exact Hrun. }
  inversion Hrun; subst; clear Hrun.
  unfold_run Hbody.
  repeat (step_run; unfold_run Hbody; try discriminate).
  all: inversion Hbody; subst; clear Hbody; simpl.
  all: repeat split; reflexivity.
Qed.

End RoutesFacts.

(** ** The handlers on the concrete process *)

Section RoutesRuns.
Import HealthResponse SummaryResponse RAGAnswerResponse DocumentUploadResponse.
Import Routes Doubles.

Lemma health_check_loaded_implies_available_witness :
  health_check (lit "1.5.0") unavailable
  = (Return {| status := lit "healthy"; model_loaded := false;
               version := lit "1.5.0"; ml_available := false |}, unavailable)
  /\ model_loaded {| status := lit "healthy"; model_loaded := false;
                     version := lit "1.5.0"; ml_available := false |} = false.
Proof.
  split; [reflexivity|].
  apply (health_check_loaded_implies_available (lit "1.5.0") unavailable unavailable).
  - reflexivity.
  - reflexivity.
Defined.

(** C1, as stated, fails: with [top_k = 0] and with [top_k = 999] both RAG
    endpoints answer 422 and run nothing; the value is neither clamped to 1
    nor to 20. *)
Lemma top_k_0_and_999_are_rejected :
  (exists detail, post_rag_summarize (summary_request (Some 0)) start
                  = (Raise (HTTPException 422 detail), start)) /\
  (exists detail, post_rag_summarize (summary_request (Some 999)) start
                  = (Raise (HTTPException 422 detail), start)) /\
  (exists detail, post_rag_question (question_request (Some 0)) start
                  = (Raise (HTTPException 422 detail), start)) /\
  (exists detail, post_rag_question (question_request (Some 999)) start
                  = (Raise (HTTPException 422 detail), start)).
Proof. repeat split; eexists; vm_compute; reflexivity. Qed.

Lemma top_k_out_of_range_is_rejected_witness :
  ((exists detail,
      post_rag_summarize {| RAGSummaryRequest.body_query := None; RAGSummaryRequest.body_top_k := Some 999 |} start
      = (Raise (HTTPException 422 detail), start)) /\
   (exists detail,
      post_rag_question {| RAGQuestionRequest.body_question := Some (lit "Which medicine?");
                           RAGQuestionRequest.body_top_k := Some 999 |} start
      = (Raise (HTTPException 422 detail), start))) /\
  (post_rag_summarize {| RAGSummaryRequest.body_query := None; RAGSummaryRequest.body_top_k := Some 5 |} start
   = rag_summarize {| RAGSummaryRequest.query := RAGSummaryRequest.default_query;
                      RAGSummaryRequest.top_k := Some 5 |} start
   /\ post_rag_question {| RAGQuestionRequest.body_question := Some (lit "Which medicine?");
                           RAGQuestionRequest.body_top_k := Some 5 |} start
      = rag_question {| RAGQuestionRequest.question := lit "Which medicine?";
                        RAGQuestionRequest.top_k := Some 5 |} start).
Proof.
  split.
  - apply (top_k_out_of_range_is_rejected 999 None (Some (lit "Which medicine?")) start).
    right. lia.
  - destruct (top_k_out_of_range_is_rejected 5 None (Some (lit "Which medicine?")) start)
      as [_ Hin].
    destruct (Hin ltac:(lia)) as [Hsummary Hquestion].
    split; [exact Hsummary|]. apply Hquestion. reflexivity.
Defined.

(** C2, as stated, fails: a successful RAG summarize call answers with a
    summary and two lengths, and with no [chunks_used]. *)
Lemma rag_summarize_has_no_chunks_used :
  exists r w',
    post_rag_summarize (summary_request (Some 5)) start = (Return r, w')
    /\ SummaryResponse.dump r
       = [ (lit "summary", JStr (lit "Stable. Continue Metformin."));
           (lit "input_length", JInt 0);
           (lit "summary_length", JInt 27) ]
    /\ dict_get (lit "chunks_used") (SummaryResponse.dump r) = None.
Proof. do 2 eexists. vm_compute. repeat split. Qed.

Lemma rag_summarize_response_witness :
  (exists w1 w2,
     generate_summary_with_rag RAGSummaryRequest.default_query (Some 5) w1
     = (Return (lit "Stable. Continue Metformin."), w2)) /\
  0 = 0 /\
  27 = len (lit "Stable. Continue Metformin.") /\
  [lit "summary"; lit "input_length"; lit "summary_length"]
  = [lit "summary"; lit "input_length"; lit "summary_length"] /\
  dict_get (lit "chunks_used")
    (SummaryResponse.dump {| summary := lit "Stable. Continue Metformin.";
                             input_length := 0; summary_length := 27 |}) = None.
Proof.
  apply (rag_summarize_response
           {| RAGSummaryRequest.query := RAGSummaryRequest.default_query;
              RAGSummaryRequest.top_k := Some 5 |}
           start
           (add_log (lit "Received RAG summarization request")
              {| w_available := true; w_loaded := true; w_indexed := 0;
                 w_tmp := None; w_log := [] |})
           {| summary := lit "Stable. Continue Metformin.";
              input_length := 0; summary_length := 27 |}).
  vm_compute. reflexivity.
Defined.

Lemma rag_question_response_witness :
  exists r w',
    rag_question {| RAGQuestionRequest.question := lit "Which medicine?";
                    RAGQuestionRequest.top_k := None |} start
    = (Return r, w')
    /\ dict_get (lit "answer") (RAGAnswerResponse.dump r) = Some (JStr (answer r))
    /\ dict_get (lit "num_chunks_used") (RAGAnswerResponse.dump r) = Some (JInt 2).
Proof.
  eexists. eexists.
  split; [vm_compute; reflexivity|].
  split.
  - refine (proj1 (proj2 (rag_question_response
             {| RAGQuestionRequest.question := lit "Which medicine?";
                    RAGQuestionRequest.top_k := None |}
             start _ _ _))).
    vm_compute. reflexivity.
  - reflexivity.
Defined.

(** C3, as stated, fails: the upload of a ten-byte report indexes four
    chunks, and the response names the file, its size, its format and a
    message: no field counts the chunks. *)
Lemma upload_document_has_no_chunk_count :
  exists r w',
    upload_document report_file start = (Return r, w')
    /\ w_indexed w' = w_indexed start + 4
    /\ DocumentUploadResponse.dump r
       = [ (lit "filename", JStr (lit "report.txt"));
           (lit "file_size", JInt 10);
           (lit "format", JStr (lit "txt"));
           (lit "processed", JBool true);
           (lit "message", JStr (lit "Document processed and indexed successfully")) ]
    /\ dict_get (lit "chunks_indexed") (DocumentUploadResponse.dump r) = None
    /\ dict_get (lit "chunk_count") (DocumentUploadResponse.dump r) = None.
Proof. do 2 eexists. vm_compute. repeat split. Qed.

Lemma upload_document_response_witness :
  exists r w',
    upload_document report_file start = (Return r, w')
    /\ dict_keys (DocumentUploadResponse.dump r)
       = [lit "filename"; lit "file_size"; lit "format"; lit "processed"; lit "message"].
Proof.
  eexists. eexists.
  split; [vm_compute; reflexivity|].
  refine (proj1 (proj2 (upload_document_response report_file start _ _ _))).
  vm_compute. reflexivity.
Defined.

End RoutesRuns.

(** ** Report upload *)

Section ReportFacts.
Import Database Patients.
Context `{Storage}.

(** C10: the upload of a report whose file is empty fails with status 500
    (the inner 400 "File is empty" is caught by the generic handler and
    wrapped), and it writes no file to the upload directory and inserts no
    row: the upload directory and the database are as before. *)
Theorem upload_report_empty_file (patient_id : Z) (doctor_name title : pystr)
    (file : UploadFile) (st : State) :
  upload_content file = [] ->
  exists st',
    upload_report patient_id doctor_name title file st
    = (Raise (HTTPException 500 (lit "Upload failed: 400: File is empty")), st')
    /\ uploads st' = uploads st
    /\ db st' = db st
    /\ reports (db st') = reports (db st).
Proof.
  intros Hempty. unfold upload_report, try_except.
  unfold bind at 1. rewrite Hempty.
  cbn [when bool_decide decide_rel]. simpl.
  eexists. split; [reflexivity|]. repeat split; reflexivity.
Qed.

End ReportFacts.

Lemma upload_report_empty_file_witness :
  exists st',
    Patients.upload_report 7 (lit "Dr. Rao") (lit "CBC")
      {| upload_filename := lit "cbc.pdf"; upload_content := [] |} Doubles.empty_state
    = (Raise (HTTPException 500 (lit "Upload failed: 400: File is empty")), st')
    /\ Database.uploads st' = Database.uploads Doubles.empty_state
    /\ Database.db st' = Database.db Doubles.empty_state
    /\ Database.reports (Database.db st') = Database.reports (Database.db Doubles.empty_state).
Proof.
  apply (upload_report_empty_file 7 (lit "Dr. Rao") (lit "CBC")
           {| upload_filename := lit "cbc.pdf"; upload_content := [] |}
           Doubles.empty_state).
  reflexivity.
Defined.

(** ** EmbeddingIndex.query *)

Section QueryFacts.
Import Rag.
Local Open Scope nat_scope.
Context `{Collaborators}.

Lemma rank_leb_scores (a b : Chunk * Q) :
  rank_leb a b = true -> (snd b <= snd a)%Q.
Proof.
  unfold rank_leb. destruct (Qcompare (snd a) (snd b)) eqn:E; intros Hr.
  - apply Qeq_alt in E. rewrite E. apply Qle_refl.
  - discriminate.
  - apply Qgt_alt in E. apply Qlt_le_weak. exact E.
Qed.

#[local] Instance ranks_before_total : Total ranks_before.
Proof.
  intros a b. unfold ranks_before, rank_leb.
  rewrite <- (Qcompare_antisym (snd a) (snd b)).
  destruct (Qcompare (snd a) (snd b)); simpl; auto.
  destruct (Nat.leb_spec (chunk_id (fst a)) (chunk_id (fst b))); [auto|].
  right. apply Nat.leb_le. lia.
Qed.

Lemma Sorted_weaken {A} (R R' : relation A) (l : list A) :
  (forall a b, R a b -> R' a b) -> Sorted R l -> Sorted R' l.
Proof.
  intros HR Hs. induction Hs as [|x l Hs IH Hhd]; constructor.
  - exact IH.
  - destruct Hhd; constructor. apply HR. assumption.
Qed.

Lemma sorted_scores (l : list (Chunk * Q)) :
  Sorted ranks_before l -> scores_non_increasing l.
Proof.
  intros Hs.
  assert (Hss : StronglySorted (fun a b => (snd b <= snd a)%Q) l).
  { apply Sorted_StronglySorted.
    - intros x y z Hxy Hyz. eapply Qle_trans; eassumption.
    - eapply Sorted_weaken; [|exact Hs].
      intros a b Hab. apply rank_leb_scores. exact Hab. }
  clear Hs. induction Hss as [|x l Hss IH Hx]; intros i j a b Hij Hi Hj.
  - rewrite lookup_nil in Hi. discriminate.
  - destruct j as [|j]; [lia|]. simpl in Hj.
    destruct i as [|i]; simpl in Hi.
    + inversion Hi; subst. rewrite Forall_forall in Hx.
      apply Hx. eapply list_elem_of_lookup_2. exact Hj.
    + eapply IH; [|exact Hi|exact Hj]. lia.
Qed.

Lemma scores_non_increasing_take (k : nat) (l : list (Chunk * Q)) :
  scores_non_increasing l -> scores_non_increasing (take k l).
Proof.
  intros Hl i j a b Hij Hi Hj.
  apply lookup_take_Some in Hi as [Hi _]. apply lookup_take_Some in Hj as [Hj _].
  eapply Hl; eassumption.
Qed.

Lemma query_length (idx : list Chunk) (q : vector) (k : nat) :
  length (query idx q k) = Nat.min k (length idx).
Proof.
  unfold query. rewrite length_take.
  rewrite (Permutation_length (merge_sort_Permutation ranks_before _)).
  rewrite length_map. reflexivity.
Qed.

Lemma query_splits (idx : list Chunk) (q : vector) (k : nat) :
  map fst (query idx q k)
  ++ map fst (drop k (merge_sort ranks_before
                        (map (fun c => (c, similarity q (embedding c))) idx)))
  ≡ₚ idx.
Proof.
  unfold query. rewrite <- map_app, take_drop.
  rewrite (merge_sort_Permutation ranks_before _).
  rewrite map_map. simpl. rewrite map_id. reflexivity.
Qed.

(** C6: on an index of N chunks, [query] returns exactly k results when
    N >= k, all N when N < k and none when N = 0, in an order in which the
    scores never increase; it is a total function, so no case is an error.
    Every result is a chunk of the index with its score; the results are
    distinct entries of the index, all of them when N <= k, and no entry
    left out scores higher than a result. *)
Theorem query_top_k_sorted (idx : list Chunk) (q : vector) (k : nat) :
  (k <= length idx -> length (query idx q k) = k) /\
  (length idx < k -> length (query idx q k) = length idx) /\
  (length idx = 0 -> query idx q k = []) /\
  scores_non_increasing (query idx q k) /\
  (forall r, r ∈ query idx q k ->
             fst r ∈ idx /\ snd r = similarity q (embedding (fst r))) /\
  (length idx <= k -> map fst (query idx q k) ≡ₚ idx) /\
  (exists rest,
     map fst (query idx q k) ++ rest ≡ₚ idx
     /\ forall r c, r ∈ query idx q k -> c ∈ rest ->
                    (similarity q (embedding c) <= snd r)%Q).
Proof.
  split; [|split; [|split; [|split; [|split; [|split]]]]].
  - intros Hk. rewrite query_length. lia.
  - intros Hk. rewrite query_length. lia.
  - intros Hn. apply length_zero_iff_nil. rewrite query_length. lia.
  - unfold query. apply scores_non_increasing_take, sorted_scores.
    apply Sorted_merge_sort. apply _.
  - intros r Hr. unfold query in Hr.
    apply elem_of_take in Hr as (i & Hr & _).
    apply list_elem_of_lookup_2 in Hr.
    rewrite (merge_sort_Permutation ranks_before _) in Hr.
    apply list_elem_of_fmap in Hr as (c & -> & Hc). simpl. auto.
  - intros Hk. rewrite <- (query_splits idx q k) at 2.
    rewrite drop_ge.
    + simpl. rewrite app_nil_r. reflexivity.
    + rewrite (Permutation_length (merge_sort_Permutation ranks_before _)).
      rewrite length_map. exact Hk.
  - eexists. split; [apply query_splits|].
    intros r c Hr Hc.
    set (sorted := merge_sort ranks_before
                     (map (fun c => (c, similarity q (embedding c))) idx)) in *.
    assert (Hsorted : scores_non_increasing sorted).
    { apply sorted_scores. apply Sorted_merge_sort. apply _. }
    unfold query in Hr. fold sorted in Hr.
    apply list_elem_of_lookup in Hr as [i Hi].
    apply lookup_take_Some in Hi as [Hi Hik].
    apply list_elem_of_fmap in Hc as (r' & -> & Hr').
    apply list_elem_of_lookup in Hr' as [j Hj].
    rewrite lookup_drop in Hj.
    assert (Hscore : snd r' = similarity q (embedding (fst r'))).
    { apply list_elem_of_lookup_2 in Hj. unfold sorted in Hj.
      rewrite (merge_sort_Permutation ranks_before _) in Hj.
      apply list_elem_of_fmap in Hj as (c & -> & _). reflexivity. }
    rewrite <- Hscore.
    apply (Hsorted i (k + j) r r'); [lia|exact Hi|exact Hj].
Qed.

End QueryFacts.

(** ** Chunker.split *)

Section ChunkerFacts.
Import Rag.
Local Open Scope nat_scope.
Context (cfg : Config) (document : pystr).

Lemma chunk_end_bounds (start : nat) :
  overlap cfg < chunk_size cfg ->
  start + overlap cfg < chunk_end cfg document start <= start + chunk_size cfg.
Proof.
  intros Hov. unfold chunk_end.
  destruct (prefer_end cfg document _ _) as [q|]; [|lia].
  destruct (Nat.leb_spec (Nat.max (start + overlap cfg + 1)
                            (start + chunk_size cfg - lookback cfg)) q);
    cbn [andb]; [|lia].
  destruct (Nat.leb_spec q (start + chunk_size cfg)); lia.
Qed.

Lemma split_from_succ (fuel start : nat) :
  split_from (S fuel) cfg document start
  = if length document <=? start + chunk_size cfg then [(start, length document)]
    else (start, chunk_end cfg document start)
         :: split_from fuel cfg document (chunk_end cfg document start - overlap cfg).
Proof. reflexivity. Qed.

(** Where no boundary is found, a chunk ends at the size limit. *)
Lemma chunk_end_hard (start : nat) :
  hard_splits cfg document ->
  overlap cfg < chunk_size cfg ->
  chunk_end cfg document start = start + chunk_size cfg.
Proof.
  intros [Hlook|Hnone] Hov; unfold chunk_end.
  - rewrite Hlook, Nat.sub_0_r.
    rewrite Nat.max_r by lia.
    destruct (prefer_end cfg document _ _) as [q|]; [|reflexivity].
    destruct (Nat.leb_spec (start + chunk_size cfg) q); cbn [andb]; [|reflexivity].
    destruct (Nat.leb_spec q (start + chunk_size cfg)); lia.
  - rewrite Hnone. reflexivity.
Qed.

Lemma ceil_div_small (a b : nat) : 0 < a <= b -> ceil_div a b = 1.
Proof.
  intros Ha. unfold ceil_div. symmetry.
  apply (Nat.div_unique (a + b - 1) b 1 (a - 1)); lia.
Qed.

Lemma ceil_div_step (a b : nat) : 0 < b -> b < a -> ceil_div a b = S (ceil_div (a - b) b).
Proof.
  intros Hb Ha. unfold ceil_div.
  replace (a + b - 1) with ((a - b + b - 1) + 1 * b) by lia.
  rewrite Nat.div_add by lia. lia.
Qed.

(** The chunks of a text in which no boundary is found: their number, and
    the range of each. *)
Lemma split_from_hard (fuel start : nat) :
  hard_splits cfg document ->
  overlap cfg < chunk_size cfg ->
  start + overlap cfg < length document ->
  length document - start <= fuel ->
  length (split_from fuel cfg document start)
  = ceil_div (length document - start - overlap cfg) (chunk_size cfg - overlap cfg)
  /\ forall i, i < length (split_from fuel cfg document start) ->
       split_from fuel cfg document start !! i
       = Some (start + i * (chunk_size cfg - overlap cfg),
               Nat.min (length document)
                 (start + i * (chunk_size cfg - overlap cfg) + chunk_size cfg)).
Proof.
  intros Hhard Hov. revert start.
  induction fuel as [|fuel IH]; intros start Hstart Hfuel; [lia|].
  rewrite split_from_succ.
  destruct (Nat.leb_spec (length document) (start + chunk_size cfg)) as [Hlast|Hmore].
  - split.
    + rewrite ceil_div_small by lia. reflexivity.
    + intros i Hi. simpl in Hi. replace i with 0 by lia. simpl.
      rewrite Nat.add_0_r. rewrite Nat.min_l by lia. reflexivity.
  - rewrite (chunk_end_hard start Hhard Hov).
    destruct (IH (start + chunk_size cfg - overlap cfg) ltac:(lia) ltac:(lia))
      as [Hlen Hnth].
    split.
    + cbn [length]. rewrite Hlen.
      rewrite (ceil_div_step (length document - start - overlap cfg)) by lia.
      f_equal. f_equal. lia.
    + intros [|i] Hi.
      * simpl. rewrite Nat.add_0_r. rewrite Nat.min_r by lia. reflexivity.
      * cbn [length] in Hi. cbn [lookup list_lookup]. rewrite Hnth by lia.
        f_equal. f_equal; [|f_equal]; lia.
Qed.

(** One step of [split_from] with enough fuel: the last chunk, or a chunk
    that ends inside the text, past the part the next chunk repeats. *)
Lemma split_from_step (fuel start : nat) :
  overlap cfg < chunk_size cfg ->
  split_from (S fuel) cfg document start = [(start, length document)]
  \/ exists e,
       start + overlap cfg < e /\ e < length document /\
       split_from (S fuel) cfg document start
       = (start, e) :: split_from fuel cfg document (e - overlap cfg).
Proof.
  intros Hov. rewrite split_from_succ.
  destruct (Nat.leb_spec (length document) (start + chunk_size cfg)); [left; reflexivity|].
  right. exists (chunk_end cfg document start).
  pose proof (chunk_end_bounds start Hov). repeat split; lia.
Qed.

Lemma split_from_head (fuel start : nat) :
  overlap cfg < chunk_size cfg ->
  start < length document ->
  exists e rest,
    split_from (S fuel) cfg document start = (start, e) :: rest
    /\ e <= length document
    /\ (start + overlap cfg < length document -> start + overlap cfg < e).
Proof.
  intros Hov Hstart.
  destruct (split_from_step fuel start Hov) as [E|(e & He1 & He2 & E)]; rewrite E.
  - eexists _, _. split; [reflexivity|]. lia.
  - eexists _, _. split; [reflexivity|]. lia.
Qed.

Lemma split_from_covers (fuel start : nat) :
  overlap cfg < chunk_size cfg ->
  start < length document ->
  length document - start <= fuel ->
  forall p, start <= p < length document ->
    exists r, r ∈ split_from fuel cfg document start /\ fst r <= p < snd r.
Proof.
  intros Hov. revert start.
  induction fuel as [|fuel IH]; intros start Hstart Hfuel p Hp; [lia|].
  destruct (split_from_step fuel start Hov) as [E|(e & He1 & He2 & E)]; rewrite E.
  - exists (start, length document). split; [apply list_elem_of_here|simpl; lia].
  - destruct (Nat.lt_ge_cases p e) as [Hpe|Hpe].
    + exists (start, e). split; [apply list_elem_of_here|simpl; lia].
    + destruct (IH (e - overlap cfg) ltac:(lia) ltac:(lia) p ltac:(lia)) as (r & Hr & Hrp).
      exists r. split; [apply list_elem_of_further; exact Hr|exact Hrp].
Qed.

Lemma split_from_adjacent (fuel start i : nat) (a b : nat * nat) :
  overlap cfg < chunk_size cfg ->
  start < length document ->
  length document - start <= fuel ->
  split_from fuel cfg document start !! i = Some a ->
  split_from fuel cfg document start !! S i = Some b ->
  fst b + overlap cfg = snd a /\ fst a < fst b /\ snd a < snd b.
Proof.
  intros Hov. revert start i.
  induction fuel as [|fuel IH]; intros start i Hstart Hfuel Ha Hb; [lia|].
  destruct (split_from_step fuel start Hov) as [E|(e & He1 & He2 & E)];
    rewrite E in Ha, Hb.
  - simpl in Hb. rewrite lookup_nil in Hb. discriminate.
  - destruct i as [|i]; simpl in Ha, Hb.
    + inversion Ha; subst a; clear Ha.
      destruct fuel as [|fuel']; [lia|].
      destruct (split_from_head fuel' (e - overlap cfg) Hov ltac:(lia))
        as (e' & rest & E' & _ & He').
      rewrite E' in Hb. simpl in Hb. inversion Hb; subst b; clear Hb.
      simpl. specialize (He' ltac:(lia)). lia.
    + eapply (IH (e - overlap cfg) i); [lia|lia|exact Ha|exact Hb].
Qed.

Lemma split_ranges_eq :
  0 < length document ->
  split_ranges cfg document = split_from (length document) cfg document 0.
Proof.
  unfold split_ranges. destruct document; simpl; [lia|reflexivity].
Qed.

Lemma split_from_bounds (fuel start : nat) (r : nat * nat) :
  overlap cfg < chunk_size cfg ->
  start < length document ->
  r ∈ split_from fuel cfg document start ->
  fst r < snd r <= length document.
Proof.
  intros Hov. revert start.
  induction fuel as [|fuel IH]; intros start Hstart Hr; [inversion Hr|].
  destruct (split_from_step fuel start Hov) as [E|(e & He1 & He2 & E)];
    rewrite E in Hr.
  - apply list_elem_of_singleton in Hr. subst r. simpl. lia.
  - apply elem_of_cons in Hr as [->|Hr]; [simpl; lia|].
    apply (IH (e - overlap cfg)); [lia|exact Hr].
Qed.

Lemma split_ranges_of (ranges : list (nat * nat)) :
  map range_of (map (fun r => (slice document r, fst r, snd r)) ranges) = ranges.
Proof.
  induction ranges as [|[s e] l IH]; simpl; [reflexivity|]. rewrite IH. reflexivity.
Qed.


End ChunkerFacts.

Section ChunkerRuns.
Import Rag Doubles.
Local Open Scope nat_scope.

Lemma nearest_boundary_none (is_boundary : N -> bool) (document : pystr) (lo p : nat) :
  Forall (fun c => is_boundary c = false) document ->
  nearest_boundary is_boundary document lo p = None.
Proof.
  intros Hnone. induction p as [|p IH]; [reflexivity|].
  cbn [nearest_boundary].
  destruct (S p <? lo); [reflexivity|].
  unfold boundary_before.
  destruct (document !! p) as [c|] eqn:E; [|exact IH].
  rewrite Forall_forall in Hnone.
  rewrite (Hnone c) by (eapply list_elem_of_lookup_2; exact E). exact IH.
Qed.


End ChunkerRuns.

(** ** Queries on an empty index *)

Section OrchestratorFacts.
Import Rag.
Local Open Scope nat_scope.
Context `{Collaborators}.
Context (cfg : Config).

Lemma query_empty_index (q : vector) (k : nat) : query [] q k = [].
Proof. unfold query. simpl. apply take_nil. Qed.

Lemma assemble_no_results (instruction : pystr) (budget : nat) :
  assemble cfg instruction [] budget = (instruction, []).
Proof. unfold assemble, render. simpl. rewrite app_nil_r. reflexivity. Qed.

(** C5: on an empty index, for any [top_k], both query operations hand the
    bare instruction (a prompt with an empty context) to the generation
    service exactly once, return what it produces with an empty chunk list
    and (for the answer) a chunk count of 0, and raise no error of their
    own: the outcome is the outcome of the generation service. *)
Theorem empty_index_best_effort (st : RagState) (text : pystr) (top_k : option Z)
    (v : vector) :
  index st = [] ->
  embed text = Return v ->
  summarize_with_retrieval cfg text top_k st
  = (outcome_map (fun summary => (summary, [])) (generate summary_instruction),
     log_prompt summary_instruction st)
  /\ answer_with_retrieval cfg text top_k st
     = (outcome_map (fun answer => (answer, [], 0)) (generate answer_instruction),
        log_prompt answer_instruction st)
  /\ (forall summary, generate summary_instruction = Return summary ->
        fst (summarize_with_retrieval cfg text top_k st) = Return (summary, []))
  /\ (forall answer, generate answer_instruction = Return answer ->
        fst (answer_with_retrieval cfg text top_k st) = Return (answer, [], 0)).
Proof.
  intros Hidx Hembed.
  assert (Hs : summarize_with_retrieval cfg text top_k st
               = (outcome_map (fun summary => (summary, [])) (generate summary_instruction),
                  log_prompt summary_instruction st)).
  { unfold summarize_with_retrieval, bind, plan. rewrite Hembed, Hidx.
    rewrite query_empty_index, assemble_no_results.
    unfold call_generate, log_prompt, ret. rewrite Hidx.
    destruct (generate summary_instruction); reflexivity. }
  assert (Ha : answer_with_retrieval cfg text top_k st
               = (outcome_map (fun answer => (answer, [], 0)) (generate answer_instruction),
                  log_prompt answer_instruction st)).
  { unfold answer_with_retrieval, bind, plan. rewrite Hembed, Hidx.
    rewrite query_empty_index, assemble_no_results.
    unfold call_generate, log_prompt, ret. rewrite Hidx.
    destruct (generate answer_instruction); reflexivity. }
  split; [exact Hs|]. split; [exact Ha|]. split.
  - intros summary Hgen. rewrite Hs, Hgen. reflexivity.
  - intros answer Hgen. rewrite Ha, Hgen. reflexivity.
Qed.

End OrchestratorFacts.

Lemma empty_index_best_effort_witness :
  Rag.summarize_with_retrieval Doubles.config (lit "abc") (Some 999) Doubles.empty_rag
  = (Return (Rag.summary_instruction +++ lit ".", []),
     Rag.log_prompt Rag.summary_instruction Doubles.empty_rag)
  /\ Rag.answer_with_retrieval Doubles.config (lit "abc") (Some 999) Doubles.empty_rag
     = (Return (Rag.answer_instruction +++ lit ".", [], 0%nat),
        Rag.log_prompt Rag.answer_instruction Doubles.empty_rag).
Proof.
  destruct (empty_index_best_effort Doubles.config Doubles.empty_rag (lit "abc") (Some 999)
              [1%Q; 1%Q; 1%Q]) as (Hs & Ha & _).
  - reflexivity.
  - vm_compute. reflexivity.
  - split; [exact Hs|exact Ha].
Defined.

(** ** [float] after [repr] *)

Section FloatFacts.
Import Float.

(** *** Equality *)

Lemma float_eqb_eq (x y : float) : eqb x y = true -> x = y.
Proof.
  destruct x as [|a|a|a m e], y as [|b|b|b m' e']; simpl; try discriminate; try reflexivity.
  - intros E. apply Bool.eqb_prop in E. congruence.
  - intros E. apply Bool.eqb_prop in E. congruence.
  - intros E. apply andb_true_iff in E as [E E3]. apply andb_true_iff in E as [E1 E2].
    apply Bool.eqb_prop in E1. apply Pos.eqb_eq in E2. apply Z.eqb_eq in E3. congruence.
Qed.

(** *** Reading an exact value *)

Lemma log2_bounds (a : Z) : 0 < a -> 2 ^ Z.log2 a <= a < 2 ^ (Z.log2 a + 1).
Proof. intros Ha. pose proof (Z.log2_spec a Ha). unfold Z.succ in *. lia. Qed.

Lemma pow2_lt_exponent (x y : Z) : 0 <= y -> 2 ^ x < 2 ^ y -> x < y.
Proof. intros Hy H. apply (Z.pow_lt_mono_r_iff 2); lia. Qed.

Lemma round_half_even_exact (m d : Z) : 0 < d -> round_half_even (m * d) d = m.
Proof.
  intros Hd. unfold round_half_even.
  rewrite Z.div_mul by lia. rewrite Z.mod_mul by lia.
  destruct (Z.ltb_spec (2 * 0) d); [reflexivity|lia].
Qed.

(** A quotient that is a double is read as that double. *)
Lemma nearest_exact (negative : bool) (a b : Z) (m : positive) (s : Z) :
  0 < b ->
  a = Zpos m * 2 ^ s * b ->
  (2 ^ 52 <= Zpos m < 2 ^ 53 /\ 0 <= s <= 2045) \/ (Zpos m < 2 ^ 52 /\ s = 0) ->
  nearest negative a b = FNum negative m (s - 1074).
Proof.
  intros Hb Ha Hcanon.
  assert (Hs : 0 <= s) by lia.
  assert (Hpow : 0 < 2 ^ s) by (apply Z.pow_pos_nonneg; lia).
  assert (Hapos : 0 < a) by (subst a; nia).
  pose proof (log2_bounds a Hapos) as [Hla1 Hla2].
  pose proof (log2_bounds b Hb) as [Hlb1 Hlb2].
  pose proof (Z.log2_nonneg a) as Hla0. pose proof (Z.log2_nonneg b) as Hlb0.
  set (la := Z.log2 a) in *. set (lb := Z.log2 b) in *.
  assert (Hshift : Z.max ((if a <? b * 2 ^ (la - lb) then la - lb - 1 else la - lb) - 52) 0 = s).
  { destruct Hcanon as [[[Hm1 Hm2] Hs2]|[Hm ->]].
    - (* normal *)
      assert (HT1 : 2 ^ (52 + s) * b <= a).
      { rewrite Z.pow_add_r by lia. subst a. nia. }
      assert (HT2 : a < 2 ^ (53 + s) * b).
      { rewrite Z.pow_add_r by lia. subst a. nia. }
      assert (Hle : 52 + s <= la - lb).
      { assert (2 ^ (lb + (52 + s)) < 2 ^ (la + 1)).
        { rewrite Z.pow_add_r by lia.
          assert (0 < 2 ^ (52 + s)) by (apply Z.pow_pos_nonneg; lia). nia. }
        apply pow2_lt_exponent in H; lia. }
      assert (Hge : la - lb <= 53 + s).
      { assert (2 ^ la < 2 ^ ((53 + s) + (lb + 1))).
        { rewrite (Z.pow_add_r 2 (53 + s)) by lia.
          assert (0 < 2 ^ (53 + s)) by (apply Z.pow_pos_nonneg; lia). nia. }
        apply pow2_lt_exponent in H; lia. }
      destruct (Z.ltb_spec a (b * 2 ^ (la - lb))) as [Hlt|Hnlt].
      + assert (la - lb <> 52 + s) by (intros E; rewrite E in Hlt; lia).
        lia.
      + assert (la - lb <> 53 + s) by (intros E; rewrite E in Hnlt; lia).
        lia.
    - (* subnormal *)
      assert (Hle : la - lb <= 52).
      { assert (2 ^ la < 2 ^ (52 + (lb + 1))).
        { rewrite (Z.pow_add_r 2 52) by lia. rewrite Z.pow_0_r in Ha. nia. }
        apply pow2_lt_exponent in H; lia. }
      destruct (a <? b * 2 ^ (la - lb)); lia. }
  unfold nearest. fold la lb. rewrite Hshift.
  replace a with (Zpos m * (b * 2 ^ s)) by (subst a; ring).
  rewrite round_half_even_exact by nia.
  destruct (Z.eqb_spec (Zpos m) (2 ^ 53)) as [E|_]; [lia|].
  destruct (Z.ltb_spec 2045 s); [lia|]. reflexivity.
Qed.

Lemma canonical_cases (negative : bool) (m : positive) (e : Z) :
  canonical (FNum negative m e) = true ->
  (2 ^ 52 <= Zpos m < 2 ^ 53 /\ 0 <= e + 1074 <= 2045) \/ (Zpos m < 2 ^ 52 /\ e + 1074 = 0).
Proof.
  unfold canonical. intros H. apply orb_true_iff in H as [H|H].
  - repeat (apply andb_true_iff in H as [H ?]).
    apply Z.leb_le in H, H1, H0. apply Z.ltb_lt in H2. left. lia.
  - apply andb_true_iff in H as [H1 H2]. apply Z.ltb_lt in H1. apply Z.eqb_eq in H2.
    right. lia.
Qed.

(** All the digits of a double read back as the double. *)
Lemma of_decimal_exact (negative : bool) (m : positive) (e : Z) :
  canonical (FNum negative m e) = true ->
  of_decimal negative
    (Npos (Z.to_pos (Zpos m * 2 ^ Z.max e 0 * 5 ^ Z.max (- e) 0))) (Z.min e 0)
  = FNum negative m e.
Proof.
  intros Hc. apply canonical_cases in Hc.
  assert (H2 : 0 < 2 ^ Z.max e 0) by (apply Z.pow_pos_nonneg; lia).
  assert (H5 : 0 < 5 ^ Z.max (- e) 0) by (apply Z.pow_pos_nonneg; lia).
  unfold of_decimal.
  rewrite Z2Pos.id by nia.
  replace (Z.max (Z.min e 0) 0) with 0 by lia. rewrite Z.pow_0_r, Z.mul_1_r.
  replace (Z.max (- Z.min e 0) 0) with (Z.max (- e) 0) by lia.
  replace e with ((e + 1074) - 1074) at 4 by lia.
  apply nearest_exact.
  - apply Z.pow_pos_nonneg; lia.
  - destruct (Z.le_gt_cases 0 e) as [He|He].
    + rewrite (Z.max_l e 0), (Z.max_r (- e) 0) by lia.
      rewrite !Z.pow_0_r. rewrite (Z.pow_add_r 2 e 1074) by lia. ring.
    + rewrite (Z.max_r e 0), (Z.max_l (- e) 0) by lia.
      rewrite Z.pow_0_r.
      replace 1074 with ((e + 1074) + (- e)) at 1 by lia.
      rewrite (Z.pow_add_r 2 (e + 1074) (- e)) by lia.
      replace 10 with (2 * 5) by reflexivity. rewrite Z.pow_mul_l. ring.
  - exact Hc.
Qed.

(** *** Digits *)



Lemma is_digit_cases (c : N) :
  is_digit c = true ->
  (c = 48 \/ c = 49 \/ c = 50 \/ c = 51 \/ c = 52 \/ c = 53 \/ c = 54 \/ c = 55
  \/ c = 56 \/ c = 57)%N.
Proof.
  unfold is_digit. intros Hc. apply andb_true_iff in Hc as [Hlo Hhi].
  apply N.leb_le in Hlo, Hhi. lia.
Qed.

Lemma scan_digits_no_digit (r : pystr) :
  no_digit_head r -> scan_digits r = (Decimal.Nil, r).
Proof. destruct r as [|c r]; simpl; [reflexivity|]. intros ->. reflexivity. Qed.

Lemma scan_digits_chars (d : Decimal.uint) (r : pystr) :
  no_digit_head r -> scan_digits (uint_chars d ++ r) = (d, r).
Proof.
  intros Hr. induction d; cbn [uint_chars app];
    [apply scan_digits_no_digit; exact Hr| cbn [scan_digits]; rewrite IHd; reflexivity ..].
Qed.

Lemma uint_chars_digits (d : Decimal.uint) : digit_text (uint_chars d).
Proof. induction d; cbn [uint_chars]; constructor; (reflexivity || assumption). Qed.

Lemma scan_digits_text (ds r : pystr) :
  digit_text ds -> no_digit_head r -> snd (scan_digits (ds ++ r)) = r.
Proof.
  intros Hds Hr. induction Hds as [|c ds Hc _ IH]; cbn [app].
  - rewrite scan_digits_no_digit by exact Hr. reflexivity.
  - cbn [scan_digits]. rewrite Hc. destruct (scan_digits (ds ++ r)). exact IH.
Qed.

Lemma scan_digits_text_some (c : N) (ds r : pystr) :
  is_digit c = true -> fst (scan_digits (c :: ds ++ r)) <> Decimal.Nil.
Proof.
  intros Hc. cbn [scan_digits]. rewrite Hc. destruct (scan_digits (ds ++ r)) as [d r'].
  cbn [fst]. apply is_digit_cases in Hc.
  repeat (destruct Hc as [->|Hc]; [discriminate|]). subst. discriminate.
Qed.


Lemma nb_digits_chars (d : Decimal.uint) : length (uint_chars d) = Decimal.nb_digits d.
Proof. induction d; simpl; congruence. Qed.

Lemma digit_cons_chars (c : N) (d : Decimal.uint) :
  is_digit c = true -> uint_chars (digit_cons c d) = c :: uint_chars d.
Proof.
  intros Hc. apply is_digit_cases in Hc.
  repeat (destruct Hc as [->|Hc]; [reflexivity|]). subst. reflexivity.
Qed.

Lemma nb_digits_cons (c : N) (d : Decimal.uint) :
  is_digit c = true -> Decimal.nb_digits (digit_cons c d) = S (Decimal.nb_digits d).
Proof.
  intros Hc. apply is_digit_cases in Hc.
  repeat (destruct Hc as [->|Hc]; [reflexivity|]). subst. reflexivity.
Qed.

Lemma app_digit_cons (c : N) (d : Decimal.uint) :
  is_digit c = true -> Decimal.app (digit_cons c Decimal.Nil) d = digit_cons c d.
Proof.
  intros Hc. apply is_digit_cases in Hc.
  repeat (destruct Hc as [->|Hc]; [reflexivity|]). subst. reflexivity.
Qed.

(** Digits start with a digit. *)
Lemma uint_head (u : Decimal.uint) :
  u <> Decimal.Nil -> exists c u', is_digit c = true /\ u = digit_cons c u'.
Proof.
  intros Hu. destruct u as [|u|u|u|u|u|u|u|u|u|u]; [contradiction|..].
  - exists 48%N, u. split; reflexivity.
  - exists 49%N, u. split; reflexivity.
  - exists 50%N, u. split; reflexivity.
  - exists 51%N, u. split; reflexivity.
  - exists 52%N, u. split; reflexivity.
  - exists 53%N, u. split; reflexivity.
  - exists 54%N, u. split; reflexivity.
  - exists 55%N, u. split; reflexivity.
  - exists 56%N, u. split; reflexivity.
  - exists 57%N, u. split; reflexivity.
Qed.

Lemma split_sign_text (negative : bool) (c : N) (s : pystr) :
  is_digit c = true -> split_sign (sign_text negative ++ c :: s) = (negative, c :: s).
Proof.
  intros Hc. destruct negative; [reflexivity|].
  apply is_digit_cases in Hc.
  repeat (destruct Hc as [->|Hc]; [reflexivity|]). subst. reflexivity.
Qed.

Lemma scan_digits_one (c : N) (r : pystr) :
  is_digit c = true -> no_digit_head r ->
  scan_digits (c :: r) = (digit_cons c Decimal.Nil, r).
Proof.
  intros Hc Hr. cbn [scan_digits]. rewrite Hc.
  rewrite (scan_digits_no_digit r Hr). reflexivity.
Qed.

(** The decimal digits of a positive number do not start with a zero. *)
Lemma to_uint_head (p : positive) (d : Decimal.uint) :
  Pos.to_uint p <> Decimal.D0 d.
Proof.
  intros Hd.
  pose proof (DecimalPos.Unsigned.to_of (Pos.to_uint p)) as Hnorm.
  rewrite DecimalPos.Unsigned.of_to in Hnorm. simpl in Hnorm.
  assert (Hnz : Decimal.nzhead (Pos.to_uint p) <> Decimal.Nil).
  { intros Hnil. apply unorm_0 in Hnil. rewrite <- Hnorm in Hnil.
    exact (DecimalPos.Unsigned.to_uint_nonzero p Hnil). }
  rewrite (unorm_nzhead _ Hnz) in Hnorm.
  apply (nzhead_nonzero (Pos.to_uint p) d). rewrite <- Hnorm. exact Hd.
Qed.

(** The digits of a positive number: a first digit that is no zero, and
    more digits. *)
Lemma digits_text_head (p : positive) :
  exists c u,
    is_digit c = true /\ c <> 48%N
    /\ Pos.to_uint p = digit_cons c u
    /\ digits_text p = c :: uint_chars u.
Proof.
  unfold digits_text.
  pose proof (DecimalPos.Unsigned.to_uint_nonnil p) as Hnil.
  pose proof (to_uint_head p) as Hhead.
  destruct (uint_head (Pos.to_uint p) Hnil) as (c & u & Hc & E).
  exists c, u. split; [exact Hc|]. split.
  - intros ->. apply (Hhead u). exact E.
  - split; [exact E|]. rewrite E. apply digit_cons_chars. exact Hc.
Qed.

(** The digits of an exponent as [repr] writes them. *)
Lemma exponent_digits (a : Z) :
  0 <= a ->
  exists c u,
    (if a <? 10 then [48%N] else []) ++ str_of_Z a = c :: uint_chars u
    /\ is_digit c = true
    /\ Z.of_N (N.of_uint (digit_cons c u)) = a.
Proof.
  intros Ha. destruct a as [|p|p]; [| |lia].
  - exists 48%N, (Decimal.D0 Decimal.Nil). repeat split.
  - pose proof (DecimalPos.Unsigned.of_to p) as Hof.
    destruct (Z.ltb_spec (Zpos p) 10).
    + exists 48%N, (Pos.to_uint p). split; [reflexivity|]. split; [reflexivity|].
      change (digit_cons 48 (Pos.to_uint p)) with (Decimal.D0 (Pos.to_uint p)).
      unfold N.of_uint. cbn [Pos.of_uint]. rewrite Hof. reflexivity.
    + destruct (digits_text_head p) as (c & u & Hc & _ & E & Et).
      exists c, u. split; [exact Et|]. split; [exact Hc|].
      rewrite <- E. unfold N.of_uint. rewrite Hof. reflexivity.
Qed.

Lemma scan_exponent_text (e : Z) :
  scan_exponent (101%N :: (if e <? 0 then [45%N] else [43%N])
                 ++ (if Z.abs e <? 10 then [48%N] else []) ++ str_of_Z (Z.abs e))
  = (e, []).
Proof.
  destruct (exponent_digits (Z.abs e) ltac:(lia)) as (c & u & -> & Hc & Hval).
  assert (Hscan : scan_digits (c :: uint_chars u) = (digit_cons c u, [])).
  { rewrite <- (digit_cons_chars c u Hc). rewrite <- (app_nil_r (uint_chars _)).
    apply scan_digits_chars. exact I. }
  destruct (Z.ltb_spec e 0); cbn [app scan_exponent N.eqb Pos.eqb orb];
    rewrite Hc, Hscan, Hval; f_equal; lia.
Qed.

(** A text in the exponent form reads as its digits and exponent say. *)
Lemma of_literal_exp_text (negative : bool) (c : N) (u : Decimal.uint) (e : Z) :
  is_digit c = true ->
  of_literal (sign_text negative
              ++ format_exp (c :: uint_chars u) (e + 1))
  = Some (of_decimal negative (N.of_uint (digit_cons c u))
            (e - Z.of_nat (Decimal.nb_digits u))).
Proof.
  intros Hc. unfold format_exp.
  change (take 1 (c :: uint_chars u)) with [c].
  change (drop 1 (c :: uint_chars u)) with (uint_chars u). cbn [app].
  replace (e + 1 - 1) with e by lia.
  set (tail := 101%N :: (if e <? 0 then [45%N] else [43%N])
               ++ (if Z.abs e <? 10 then [48%N] else []) ++ str_of_Z (Z.abs e)).
  unfold of_literal. rewrite (split_sign_text negative c _ Hc).
  assert (Hcases : u = Decimal.Nil \/ u <> Decimal.Nil)
    by (destruct u; [left; reflexivity|right; discriminate ..]).
  destruct Hcases as [->|Hu].
  - cbn [uint_chars app].
    rewrite (scan_digits_one c tail Hc) by reflexivity.
    cbn [scan_fraction tail]. fold tail. unfold tail at 1.
    rewrite scan_exponent_text.
    rewrite (nb_digits_cons c _ Hc). rewrite (app_digit_cons c _ Hc).
    cbn [Decimal.nb_digits Z.of_nat]. reflexivity.
  - destruct (uint_head u Hu) as (c2 & u2 & Hc2 & Hu2).
    assert (Echars : uint_chars u = c2 :: uint_chars u2)
      by (rewrite Hu2; apply digit_cons_chars; exact Hc2).
    rewrite Echars. cbn [app].
    rewrite (scan_digits_one c _ Hc) by reflexivity.
    cbn [scan_fraction]. rewrite Hc2.
    change (c2 :: uint_chars u2 ++ tail) with ((c2 :: uint_chars u2) ++ tail).
    rewrite <- Echars. rewrite (scan_digits_chars u tail) by reflexivity.
    unfold tail at 1. rewrite scan_exponent_text.
    rewrite (nb_digits_cons c _ Hc). rewrite (app_digit_cons c _ Hc). reflexivity.
Qed.

(** All the digits of a number in the exponent form read as the number. *)
Lemma exact_text_reads_back (negative : bool) (d : positive) (e : Z) :
  of_literal (sign_text negative
              ++ format_exp (digits_text d) (e + Z.of_nat (length (digits_text d))))
  = Some (of_decimal negative (Npos d) e).
Proof.
  destruct (digits_text_head d) as (c & u & Hc & _ & E & ->).
  cbn [length]. rewrite nb_digits_chars.
  replace (e + Z.of_nat (S (Decimal.nb_digits u)))
    with ((e + Z.of_nat (Decimal.nb_digits u)) + 1) by lia.
  rewrite (of_literal_exp_text negative c u _ Hc).
  rewrite <- E. unfold N.of_uint. rewrite DecimalPos.Unsigned.of_to.
  f_equal. f_equal. lia.
Qed.

Lemma candidate_text (negative : bool) (d e : Z) (t : pystr) :
  candidate negative d e = Some t -> exists d', t = decimal_text negative d' e.
Proof. destruct d; simpl; [discriminate| |discriminate]. intros [= <-]. eauto. Qed.

Lemma reads_back_spec (x : float) (t : option pystr) :
  reads_back x t = true -> exists t', t = Some t' /\ of_literal t' = Some x.
Proof.
  destruct t as [t'|]; simpl; [|discriminate].
  destruct (of_literal t') as [y|] eqn:Hread; [|discriminate].
  intros E. apply float_eqb_eq in E. subst y. eauto.
Qed.

(** What the search finds reads back as the number. *)
Lemma shortest_reads_back (fuel : nat) (n : Z) (x : float) (negative : bool)
    (num den k : Z) (t : pystr) :
  shortest fuel n x negative num den k = Some t ->
  of_literal t = Some x /\ exists d e, t = decimal_text negative d e.
Proof.
  revert n. induction fuel as [|fuel IH]; intros n; [discriminate|].
  cbn [shortest]. cbv zeta.
  set (j := n - 1 - k). set (p := num * 10 ^ Z.max j 0). set (q := den * 10 ^ Z.max (- j) 0).
  destruct (reads_back x (candidate negative (p / q) (- j))) eqn:Hbelow;
    destruct (reads_back x (candidate negative (p / q + 1) (- j))) eqn:Habove.
  - apply reads_back_spec in Hbelow as (t1 & E1 & R1).
    apply reads_back_spec in Habove as (t2 & E2 & R2).
    destruct (_ || _); intros Ht.
    + rewrite E1 in Ht. injection Ht as <-. split; [exact R1|].
      apply candidate_text in E1 as [d' ->]. eauto.
    + rewrite E2 in Ht. injection Ht as <-. split; [exact R2|].
      apply candidate_text in E2 as [d' ->]. eauto.
  - apply reads_back_spec in Hbelow as (t1 & E1 & R1). intros Ht.
    rewrite E1 in Ht. injection Ht as <-. split; [exact R1|].
    apply candidate_text in E1 as [d' ->]. eauto.
  - apply reads_back_spec in Habove as (t2 & E2 & R2). intros Ht.
    rewrite E2 in Ht. injection Ht as <-. split; [exact R2|].
    apply candidate_text in E2 as [d' ->]. eauto.
  - apply IH.
Qed.

(** [float(repr(x)) == x] for every double but NaN. *)
Lemma repr_reads_back (x : float) :
  canonical x = true ->
  match x with
  | FNum _ _ _ | FZero _ => of_literal (repr x) = Some x
  | _ => True
  end.
Proof.
  intros Hc. destruct x as [|negative|negative|negative m e]; [exact I|exact I| |].
  - destruct negative; reflexivity.
  - unfold repr.
    destruct (shortest 17 1 _ negative _ _ _) as [t|] eqn:Hsearch.
    + apply shortest_reads_back in Hsearch as [Hread _]. exact Hread.
    + rewrite exact_text_reads_back. f_equal. apply of_decimal_exact. exact Hc.
Qed.

(** *** The shape of what [repr] writes *)

Lemma digit_text_app (a b : pystr) : digit_text a -> digit_text b -> digit_text (a ++ b).
Proof. intros Ha Hb. apply Forall_app. split; assumption. Qed.

Lemma zeros_digits (k : nat) : digit_text (repeat 48%N k).
Proof. induction k; simpl; constructor; (reflexivity || assumption). Qed.

Lemma format_exp_shape (c : N) (tl : pystr) (decpt : Z) :
  is_digit c = true -> c <> 48%N -> digit_text tl ->
  float_shape (format_exp (c :: tl) decpt).
Proof.
  intros Hc Hnz Htl. unfold format_exp.
  change (take 1 (c :: tl)) with [c]. change (drop 1 (c :: tl)) with tl.
  destruct (exponent_digits (Z.abs (decpt - 1)) ltac:(lia)) as (c' & u & E & Hc' & _).
  eexists [c], _, _.
  split; [reflexivity|]. split; [|split; [|split]].
  - right. exists c, []. split; [reflexivity|]. split; [exact Hc|]. split; [exact Hnz|constructor].
  - destruct tl as [|c2 tl]; [left; reflexivity|].
    right. exists (c2 :: tl). split; [reflexivity|]. split; [discriminate|exact Htl].
  - right.
    exists (if decpt - 1 <? 0 then [45%N] else [43%N]),
      ((if Z.abs (decpt - 1) <? 10 then [48%N] else []) ++ str_of_Z (Z.abs (decpt - 1))).
    split; [reflexivity|]. split.
    + destruct (decpt - 1 <? 0); auto.
    + rewrite E. split; [discriminate|].
      constructor; [exact Hc'|apply uint_chars_digits].
  - right. discriminate.
Qed.

Lemma format_fixed_shape (c : N) (tl : pystr) (decpt : Z) :
  is_digit c = true -> c <> 48%N -> digit_text tl ->
  float_shape (format_fixed (c :: tl) decpt).
Proof.
  intros Hc Hnz Htl. unfold format_fixed.
  assert (Hds : digit_text (c :: tl)) by (constructor; assumption).
  destruct (Z.leb_spec decpt 0) as [Hneg|Hpos].
  - exists [48%N], (46%N :: repeat 48%N (Z.to_nat (- decpt)) ++ c :: tl), [].
    split; [rewrite app_nil_r; reflexivity|]. split; [left; reflexivity|].
    split; [|split; [left; reflexivity|left; discriminate]].
    right. eexists. split; [reflexivity|]. split.
    + destruct (repeat 48%N (Z.to_nat (- decpt))); discriminate.
    + apply digit_text_app; [apply zeros_digits|exact Hds].
  - destruct (Z.ltb_spec decpt (Z.of_nat (length (c :: tl)))) as [Hin|Hout].
    + destruct (Z.to_nat decpt) as [|k] eqn:Ek; [lia|].
      exists (c :: take k tl), (46%N :: drop (S k) (c :: tl)), [].
      split; [rewrite app_nil_r; reflexivity|]. split.
      * right. exists c, (take k tl). split; [reflexivity|]. split; [exact Hc|].
        split; [exact Hnz|].
        apply Forall_take. exact Htl.
      * split; [|split; [left; reflexivity|left; discriminate]].
        right. eexists. split; [reflexivity|]. split.
        -- intros Hnil. apply (f_equal length) in Hnil.
           rewrite length_drop in Hnil. cbn [length] in Hnil, Hin. lia.
        -- apply Forall_drop. exact Hds.
    + exists (c :: tl ++ repeat 48%N (Z.to_nat (decpt - Z.of_nat (length (c :: tl))))),
        [46%N; 48%N], [].
      split; [rewrite app_nil_r; cbn [app]; rewrite <- app_assoc; reflexivity|]. split.
      * right. eexists _, _. split; [reflexivity|]. split; [exact Hc|].
        split; [exact Hnz|].
        apply digit_text_app; [exact Htl|apply zeros_digits].
      * split; [|split; [left; reflexivity|left; discriminate]].
        right. eexists. split; [reflexivity|]. split; [discriminate|].
        constructor; [reflexivity|constructor].
Qed.

Lemma format_short_shape (d : positive) (decpt : Z) :
  float_shape (format_short (digits_text d) decpt).
Proof.
  destruct (digits_text_head d) as (c & u & Hc & Hnz & _ & ->).
  unfold format_short. destruct (_ || _).
  - apply format_exp_shape; [exact Hc|exact Hnz|apply uint_chars_digits].
  - apply format_fixed_shape; [exact Hc|exact Hnz|apply uint_chars_digits].
Qed.

(** What [repr] writes for a number: a minus sign or none, and a number
    with a fraction, an exponent or both. *)
Lemma repr_shape (x : float) :
  match x with
  | FNum negative _ _ | FZero negative =>
      exists body, repr x = sign_text negative ++ body /\ float_shape body
  | _ => True
  end.
Proof.
  destruct x as [|negative|negative|negative m e]; [exact I|exact I| |].
  - exists (lit "0.0"). split; [reflexivity|].
    exists [48%N], [46%N; 48%N], []. split; [reflexivity|].
    split; [left; reflexivity|]. split; [|split; [left; reflexivity|left; discriminate]].
    right. eexists. split; [reflexivity|]. split; [discriminate|].
    constructor; [reflexivity|constructor].
  - unfold repr.
    destruct (shortest 17 1 _ negative _ _ _) as [t|] eqn:Hsearch.
    + apply shortest_reads_back in Hsearch as [_ (d & e' & ->)].
      unfold decimal_text. destruct (strip_zeros _ d e') as [d' e''].
      eexists. split; [reflexivity|]. apply format_short_shape.
    + eexists. split; [reflexivity|].
      destruct (digits_text_head (Z.to_pos (Zpos m * 2 ^ Z.max e 0 * 5 ^ Z.max (- e) 0)))
        as (c & u & Hc & Hnz & _ & ->).
      apply format_exp_shape; [exact Hc|exact Hnz|apply uint_chars_digits].
Qed.

End FloatFacts.

(** ** [json.loads] after [json.dumps] *)

Section JsonFacts.
Import Json.
Local Open Scope N_scope.

(** *** Strings *)

Lemma hex_value_digit (d : N) : d < 16 -> hex_value (hex_digit d) = Some d.
Proof.
  intros Hd. unfold hex_digit, hex_value.
  destruct (N.ltb_spec d 10).
  - replace ((48 <=? 48 + d) && (48 + d <=? 57)) with true.
    + f_equal. lia.
    + symmetry. apply andb_true_intro. split; apply N.leb_le; lia.
  - replace ((48 <=? 87 + d) && (87 + d <=? 57)) with false.
    + replace ((97 <=? 87 + d) && (87 + d <=? 102)) with true.
      * f_equal. lia.
      * symmetry. apply andb_true_intro. split; apply N.leb_le; lia.
    + symmetry. apply andb_false_intro2. apply N.leb_gt. lia.
Qed.

Lemma decode_hex4 (c h1 h2 h3 h4 : N) :
  c < 65536 -> hex4 c = [h1; h2; h3; h4] -> decode_uXXXX h1 h2 h3 h4 = Some c.
Proof.
  intros Hc Hh. unfold hex4 in Hh. inversion Hh; subst; clear Hh.
  unfold decode_uXXXX.
  rewrite !hex_value_digit by (apply N.mod_upper_bound; lia).
  f_equal.
  zify; Z.to_euclidean_division_equations; lia.
Qed.

Lemma decode_u_escape (c : N) (r : pystr) :
  c < 65536 ->
  exists h1 h2 h3 h4,
    u_escape c ++ r = 92 :: 117 :: h1 :: h2 :: h3 :: h4 :: r
    /\ decode_uXXXX h1 h2 h3 h4 = Some c.
Proof.
  intros Hc. unfold u_escape.
  eexists _, _, _, _. split; [reflexivity|].
  apply (decode_hex4 c); [exact Hc|reflexivity].
Qed.

(** [a | x] adds [x] when [x] fits under the low ten bits of [a], all zero. *)
Lemma lor_low_bits (a x : N) : x < 1024 -> N.land a 1023 = 0 -> N.lor a x = a + x.
Proof.
  intros Hx Ha.
  assert (Hland : N.land a x = 0);
    [|rewrite N.add_nocarry_lxor, N.lxor_lor by exact Hland; reflexivity].
  apply N.bits_inj. intros i. rewrite N.land_spec, N.bits_0.
  destruct (N.lt_ge_cases i 10) as [Hi|Hi].
  - assert (Hbit : N.testbit (N.land a 1023) i = false) by (rewrite Ha; apply N.bits_0).
    rewrite N.land_spec in Hbit.
    change 1023 with (N.ones 10) in Hbit. rewrite N.ones_spec_low in Hbit by exact Hi.
    rewrite andb_true_r in Hbit. rewrite Hbit. reflexivity.
  - replace (N.testbit x i) with false; [apply andb_false_r|].
    symmetry. destruct (N.eq_dec x 0) as [->|Hnz]; [apply N.bits_0|].
    apply N.bits_above_log2. apply N.log2_lt_pow2; [lia|].
    apply N.lt_le_trans with (2 ^ 10); [exact Hx|].
    apply N.pow_le_mono_r; lia.
Qed.

(** The two surrogates of a code point above the basic plane, and the code
    point they join to. *)
Lemma surrogate_pair (c : N) :
  65536 <= c -> c < 1114112 ->
  let n := c - 65536 in
  let s1 := N.lor 55296 (N.land (N.shiftr n 10) 1023) in
  let s2 := N.lor 56320 (N.land n 1023) in
  is_high_surrogate s1 = true /\ is_low_surrogate s2 = true /\
  s1 < 65536 /\ s2 < 65536 /\ join_surrogates s1 s2 = c.
Proof.
  intros Hlo Hhi n s1 s2.
  assert (Hn : n < 1048576) by (unfold n; lia).
  assert (Hhigh : N.land (N.shiftr n 10) 1023 = N.shiftr n 10).
  { change 1023 with (N.ones 10). rewrite N.land_ones.
    apply N.mod_small. rewrite N.shiftr_div_pow2.
    apply N.Div0.div_lt_upper_bound. exact Hn. }
  assert (Hx : N.shiftr n 10 < 1024).
  { rewrite N.shiftr_div_pow2. apply N.Div0.div_lt_upper_bound. exact Hn. }
  assert (Hy : N.land n 1023 < 1024).
  { change 1023 with (N.ones 10). rewrite N.land_ones. apply N.mod_upper_bound. discriminate. }
  assert (Hs1 : s1 = 55296 + N.shiftr n 10).
  { unfold s1. rewrite Hhigh. apply lor_low_bits; [exact Hx|reflexivity]. }
  assert (Hs2 : s2 = 56320 + N.land n 1023).
  { unfold s2. apply lor_low_bits; [exact Hy|reflexivity]. }
  unfold is_high_surrogate, is_low_surrogate, join_surrogates.
  rewrite Hs1, Hs2.
  repeat split.
  - apply andb_true_intro; split; apply N.leb_le; lia.
  - apply andb_true_intro; split; apply N.leb_le; lia.
  - lia.
  - lia.
  - replace (55296 + N.shiftr n 10 - 55296) with (N.shiftr n 10) by lia.
    replace (56320 + N.land n 1023 - 56320) with (N.land n 1023) by lia.
    change 1023 with (N.ones 10).
    rewrite <- N.ldiff_ones_r. rewrite N.lor_ldiff_and. unfold n. lia.
Qed.

Lemma scanstring_plain (c : N) (r : pystr) :
  c <> 34 -> 32 <= c -> c <> 92 ->
  scanstring (c :: r) = cons_char c (scanstring r).
Proof.
  intros H34 H32 H92. cbn [scanstring].
  destruct (N.eqb_spec c 34); [contradiction|].
  destruct (N.ltb_spec c 32); [lia|].
  destruct (N.eqb_spec c 92); [contradiction|]. reflexivity.
Qed.

Lemma scanstring_u (h1 h2 h3 h4 : N) (r2 : pystr) :
  scanstring (92 :: 117 :: h1 :: h2 :: h3 :: h4 :: r2)
  = match decode_uXXXX h1 h2 h3 h4 with
    | None => None
    | Some uni =>
        if is_high_surrogate uni then
          match r2 with
          | 92 :: 117 :: r3 =>
              match r3 with
              | l1 :: l2 :: l3 :: l4 :: r4 =>
                  match decode_uXXXX l1 l2 l3 l4 with
                  | None => None
                  | Some uni2 =>
                      if is_low_surrogate uni2
                      then cons_char (join_surrogates uni uni2) (scanstring r4)
                      else cons_char uni (scanstring r2)
                  end
              | _ => None
              end
          | _ => cons_char uni (scanstring r2)
          end
        else cons_char uni (scanstring r2)
    end.
Proof. reflexivity. Qed.

(** One escaped character scans back to the character, when it is no high
    surrogate. *)
Lemma scanstring_escape (c : N) (r : pystr) :
  c < 1114112 -> is_high_surrogate c = false ->
  scanstring (escape_char c ++ r) = cons_char c (scanstring r).
Proof.
  intros Hmax Hc. unfold escape_char.
  destruct (N.eqb_spec c 34) as [->|H34]; [reflexivity|].
  destruct (N.eqb_spec c 92) as [->|H92]; [reflexivity|].
  destruct (N.eqb_spec c 10) as [->|H10]; [reflexivity|].
  destruct (N.eqb_spec c 13) as [->|H13]; [reflexivity|].
  destruct (N.eqb_spec c 9) as [->|H9]; [reflexivity|].
  destruct (N.eqb_spec c 12) as [->|H12]; [reflexivity|].
  destruct (N.eqb_spec c 8) as [->|H8]; [reflexivity|].
  destruct ((32 <=? c) && (c <=? 126)) eqn:Hprint.
  - apply andb_true_iff in Hprint as [Hlo _]. apply N.leb_le in Hlo.
    apply scanstring_plain; assumption.
  - destruct (N.ltb_spec c 65536) as [Hbmp|Hsup].
    + destruct (decode_u_escape c r Hbmp) as (h1 & h2 & h3 & h4 & -> & Hdec).
      rewrite scanstring_u, Hdec, Hc. reflexivity.
    + destruct (surrogate_pair c Hsup Hmax) as (Hhigh & Hlow & Hs1 & Hs2 & Hjoin).
      cbv zeta. rewrite <- app_assoc.
      set (s1 := N.lor 55296 (N.land (N.shiftr (c - 65536) 10) 1023)) in *.
      set (s2 := N.lor 56320 (N.land (c - 65536) 1023)) in *.
      destruct (decode_u_escape s1 (u_escape s2 ++ r) Hs1) as (h1 & h2 & h3 & h4 & -> & Hdec1).
      destruct (decode_u_escape s2 r Hs2) as (l1 & l2 & l3 & l4 & -> & Hdec2).
      rewrite scanstring_u, Hdec1, Hhigh, Hdec2, Hlow, Hjoin. reflexivity.
Qed.

Lemma high_not_low (c : N) : is_high_surrogate c = true -> is_low_surrogate c = false.
Proof.
  unfold is_high_surrogate, is_low_surrogate. intros Hc.
  apply andb_true_iff in Hc as [_ Hc]. apply N.leb_le in Hc.
  apply andb_false_intro1. apply N.leb_gt. lia.
Qed.

Lemma escape_high_surrogate (c : N) :
  is_high_surrogate c = true -> c < 65536 /\ escape_char c = u_escape c.
Proof.
  unfold is_high_surrogate. intros Hc.
  apply andb_true_iff in Hc as [Hlo Hhi]. apply N.leb_le in Hlo, Hhi.
  split; [lia|]. unfold escape_char.
  repeat match goal with
         | |- context [?a =? ?b] => destruct (N.eqb_spec a b); [lia|]
         end.
  destruct (N.leb_spec c 126); [lia|]. rewrite andb_false_r.
  destruct (N.ltb_spec c 65536); [reflexivity|lia].
Qed.

(** The characters [dumps] writes as they are. *)
Lemma printable_cases (c : N) :
  32 <= c -> c <= 126 -> In c (map N.of_nat (seq 32 95)).
Proof.
  intros Hlo Hhi. apply in_map_iff. exists (N.to_nat c).
  split; [lia|]. apply in_seq. lia.
Qed.

(** A high surrogate scans back to itself when what follows is the end of
    the string or the escape of a character that is no low surrogate. *)
Lemma scanstring_high_end (c : N) (r : pystr) :
  is_high_surrogate c = true ->
  scanstring (escape_char c ++ 34 :: r) = cons_char c (scanstring (34 :: r)).
Proof.
  intros Hc. destruct (escape_high_surrogate c Hc) as [Hbmp ->].
  destruct (decode_u_escape c (34 :: r) Hbmp) as (h1 & h2 & h3 & h4 & -> & Hdec).
  rewrite scanstring_u, Hdec, Hc. reflexivity.
Qed.

Lemma scanstring_high (c c2 : N) (r : pystr) :
  is_high_surrogate c = true ->
  c2 < 1114112 -> is_low_surrogate c2 = false ->
  scanstring (escape_char c ++ escape_char c2 ++ r)
  = cons_char c (scanstring (escape_char c2 ++ r)).
Proof.
  intros Hc Hmax Hlow. destruct (escape_high_surrogate c Hc) as [Hbmp ->].
  destruct (decode_u_escape c (escape_char c2 ++ r) Hbmp)
    as (h1 & h2 & h3 & h4 & -> & Hdec).
  rewrite scanstring_u, Hdec, Hc. clear Hdec.
  unfold escape_char.
  destruct (N.eqb_spec c2 34) as [->|H34]; [reflexivity|].
  destruct (N.eqb_spec c2 92) as [->|H92]; [reflexivity|].
  destruct (N.eqb_spec c2 10) as [->|H10]; [reflexivity|].
  destruct (N.eqb_spec c2 13) as [->|H13]; [reflexivity|].
  destruct (N.eqb_spec c2 9) as [->|H9]; [reflexivity|].
  destruct (N.eqb_spec c2 12) as [->|H12]; [reflexivity|].
  destruct (N.eqb_spec c2 8) as [->|H8]; [reflexivity|].
  destruct ((32 <=? c2) && (c2 <=? 126)) eqn:Hprint.
  - apply andb_true_iff in Hprint as [Hlo Hhi]. apply N.leb_le in Hlo, Hhi.
    pose proof (printable_cases c2 Hlo Hhi) as Hcases. cbn in Hcases.
    repeat (destruct Hcases as [<-|Hcases]; [try reflexivity; contradiction|]).
    contradiction.
  - destruct (N.ltb_spec c2 65536) as [Hbmp2|Hsup].
    + destruct (decode_u_escape c2 r Hbmp2) as (l1 & l2 & l3 & l4 & -> & Hdec2).
      cbv iota beta. rewrite Hdec2, Hlow. reflexivity.
    + destruct (surrogate_pair c2 Hsup Hmax) as (Hhigh & _ & Hs1 & _ & _).
      cbv zeta. rewrite <- app_assoc.
      set (s1 := N.lor 55296 (N.land (N.shiftr (c2 - 65536) 10) 1023)) in *.
      destruct (decode_u_escape s1 (u_escape (N.lor 56320 (N.land (c2 - 65536) 1023)) ++ r) Hs1)
        as (l1 & l2 & l3 & l4 & -> & Hdec1).
      cbv iota beta. rewrite Hdec1, (high_not_low s1 Hhigh). reflexivity.
Qed.

Lemma scanstring_encoded (s : pystr) (r : pystr) :
  unpaired s = true ->
  scanstring (flat_map escape_char s ++ 34 :: r) = Some (s, r).
Proof.
  induction s as [|c s IH]; intros Hs.
  - reflexivity.
  - cbn [unpaired] in Hs. apply andb_true_iff in Hs as [Hc Hs].
    apply andb_true_iff in Hc as [Hmax Hpair]. apply N.ltb_lt in Hmax.
    apply negb_true_iff in Hpair. specialize (IH Hs).
    cbn [flat_map]. rewrite <- app_assoc.
    destruct (is_high_surrogate c) eqn:Hhigh.
    + destruct s as [|c2 s].
      * cbn [flat_map app]. rewrite scanstring_high_end by exact Hhigh. reflexivity.
      * cbn [andb] in Hpair.
        assert (Hmax2 : c2 < 1114112).
        { cbn [unpaired] in Hs. apply andb_true_iff in Hs as [Hs _].
          apply andb_true_iff in Hs as [Hs _]. apply N.ltb_lt in Hs. exact Hs. }
        cbn [flat_map] in *. rewrite <- app_assoc in *.
        rewrite scanstring_high by assumption. rewrite IH. reflexivity.
    + rewrite scanstring_escape by assumption. rewrite IH. reflexivity.
Qed.

(** *** Numbers *)

Lemma ends_value_cases (rest : pystr) :
  ends_value rest = true ->
  rest = [] \/ exists r, rest = 44 :: r \/ rest = 93 :: r \/ rest = 125 :: r.
Proof.
  destruct rest as [|c r]; [auto|]. simpl. intros Hc. right. exists r.
  apply orb_true_iff in Hc as [Hc|Hc]; [apply orb_true_iff in Hc as [Hc|Hc]|];
    apply N.eqb_eq in Hc; subst; auto.
Qed.

Lemma scan_digits_end (rest : pystr) :
  ends_value rest = true -> scan_digits rest = (Decimal.Nil, rest).
Proof.
  intros Hr. destruct (ends_value_cases rest Hr) as [->|(r & [->|[->| ->]])]; reflexivity.
Qed.

Lemma float_follows_end (rest : pystr) :
  ends_value rest = true -> float_follows rest = false.
Proof.
  intros Hr. destruct (ends_value_cases rest Hr) as [->|(r & [->|[->| ->]])]; reflexivity.
Qed.

Lemma scan_digits_uint (d : Decimal.uint) (rest : pystr) :
  ends_value rest = true ->
  scan_digits (uint_chars d ++ rest) = (d, rest).
Proof.
  intros Hr. induction d; cbn [uint_chars app];
    [apply scan_digits_end; exact Hr| cbn [scan_digits]; rewrite IHd; reflexivity ..].
Qed.

Lemma match_number_digits (neg : bool) (p : positive) (rest : pystr) :
  ends_value rest = true ->
  (Decimal.nb_digits (Pos.to_uint p) <=? max_str_digits)%nat = true ->
  match_number ((if neg then [45] else []) ++ uint_chars (Pos.to_uint p) ++ rest)
  = Some (JInt (if neg then Zneg p else Zpos p), rest).
Proof.
  intros Hr Hshort.
  pose proof (DecimalPos.Unsigned.of_to p) as Hof.
  pose proof (to_uint_head p) as Hhead.
  pose proof (DecimalPos.Unsigned.to_uint_nonnil p) as Hnil.
  destruct (Pos.to_uint p) as [|d|d|d|d|d|d|d|d|d|d];
    [contradiction|exfalso; exact (Hhead d eq_refl)|..];
    destruct neg; unfold match_number; cbn [uint_chars app Float.split_sign];
    cbn [scan_digits is_digit N.leb N.eqb N.compare Pos.compare Pos.compare_cont andb Pos.eqb];
    rewrite (scan_digits_uint d rest Hr); cbn [digit_cons N.eqb Pos.eqb];
    rewrite (float_follows_end rest Hr), Hshort;
    unfold N.of_uint; rewrite Hof; reflexivity.
Qed.

Lemma match_number_str (z : Z) (rest : pystr) :
  ends_value rest = true ->
  (int_digits z <=? max_str_digits)%nat = true ->
  match_number (str_of_Z z ++ rest) = Some (JInt z, rest).
Proof.
  intros Hr. unfold int_digits. destruct z as [|p|p].
  - intros _. unfold match_number. cbn. rewrite (float_follows_end rest Hr). reflexivity.
  - change (str_of_Z (Z.abs (Zpos p))) with (uint_chars (Pos.to_uint p)).
    rewrite nb_digits_chars. apply (match_number_digits false p rest Hr).
  - change (str_of_Z (Z.abs (Zneg p))) with (uint_chars (Pos.to_uint p)).
    rewrite nb_digits_chars. apply (match_number_digits true p rest Hr).
Qed.

Lemma serializable_writable (v : json) : serializable v = true -> writable v = true.
Proof.
  induction v as [|b|z|x|s|l IH|d IH] using json_nested_ind; cbn [serializable writable];
    try reflexivity.
  - auto.
  - intros Hl. apply forallb_forall. intros x Hx.
    rewrite forallb_forall in Hl. rewrite Forall_forall in IH.
    apply IH; [apply list_elem_of_In; exact Hx|apply Hl; exact Hx].
  - intros Hd. apply andb_true_iff in Hd as [Hd _].
    apply forallb_forall. intros kv Hkv.
    rewrite forallb_forall in Hd. rewrite Forall_forall in IH.
    apply IH; [apply list_elem_of_In; exact Hkv|].
    specialize (Hd kv Hkv). apply andb_true_iff in Hd as [_ Hd]. exact Hd.
Qed.

(** *** Values *)

Lemma value_start_cases (c : N) :
  value_start c = true ->
  is_digit c = true \/ c = 45 \/ c = 34 \/ c = 91 \/ c = 123 \/ c = 110 \/ c = 116 \/ c = 102
  \/ c = 78 \/ c = 73.
Proof.
  unfold value_start. intros Hc.
  repeat (apply orb_true_iff in Hc as [Hc|Hc]); try (apply N.eqb_eq in Hc); auto 12.
Qed.

(** Case analysis on the character a value starts with. *)
Ltac by_value_start Hc :=
  apply value_start_cases in Hc as [Hc|Hc];
  [ apply is_digit_cases in Hc;
    repeat (destruct Hc as [->|Hc]; [reflexivity|]); subst; reflexivity
  | repeat (destruct Hc as [->|Hc]; [reflexivity|]); subst; reflexivity ].

Lemma value_start_skip_ws (c : N) (t : pystr) :
  value_start c = true -> skip_ws (c :: t) = c :: t.
Proof. intros Hc. by_value_start Hc. Qed.

Lemma str_of_Z_head (z : Z) :
  exists c t, str_of_Z z = c :: t /\ (is_digit c = true \/ c = 45).
Proof.
  destruct z as [|p|p].
  - eexists _, _. split; [reflexivity|]. left. reflexivity.
  - pose proof (DecimalPos.Unsigned.to_uint_nonnil p) as Hnil. cbn [str_of_Z].
    destruct (Pos.to_uint p); [contradiction|..];
      (eexists _, _; split; [reflexivity|]; left; reflexivity).
  - eexists _, _. split; [reflexivity|]. right. reflexivity.
Qed.

Lemma dumps_list (l : list json) : dumps (JList l) = 91 :: dumps_items l ++ [93].
Proof. reflexivity. Qed.

Lemma dumps_dict (d : list (pystr * json)) : dumps (JDict d) = 123 :: dumps_pairs d ++ [125].
Proof. reflexivity. Qed.

Lemma digit_value_start (c : N) : is_digit c = true -> value_start c = true.
Proof. intros Hc. unfold value_start. rewrite Hc. reflexivity. Qed.

Lemma scan_once_number (fuel : nat) (c : N) (t : pystr) :
  is_digit c = true \/ c = 45 ->
  scan_once (S fuel) (c :: t)
  = match match_number (c :: t) with
    | Some number => Some number
    | None => match_constant (c :: t)
    end.
Proof.
  intros [Hc| ->]; [|reflexivity].
  apply is_digit_cases in Hc.
  repeat (destruct Hc as [->|Hc]; [reflexivity|]). subst. reflexivity.
Qed.

(** *** Floats *)

Lemma ends_value_no_digit (rest : pystr) :
  ends_value rest = true -> Float.no_digit_head rest.
Proof.
  intros Hr. destruct (ends_value_cases rest Hr) as [->|(r & [->|[->| ->]])];
    [exact I|reflexivity ..].
Qed.

Lemma digit_not_sign (c : N) : is_digit c = true -> (c =? 43) || (c =? 45) = false.
Proof.
  intros Hc. apply is_digit_cases in Hc.
  repeat (destruct Hc as [->|Hc]; [reflexivity|]). subst. reflexivity.
Qed.

Lemma digit_text_head (ds : pystr) :
  ds <> [] -> Float.digit_text ds ->
  exists c tl, ds = c :: tl /\ is_digit c = true /\ Float.digit_text tl.
Proof.
  intros Hne Hds. destruct Hds as [|c tl Hc Htl]; [contradiction|]. eauto.
Qed.

Lemma take_app_prefix {A} (a b : list A) :
  take (length (a ++ b) - length b) (a ++ b) = a.
Proof.
  rewrite length_app. replace (length a + length b - length b)%nat with (length a) by lia.
  apply take_app_length.
Qed.

Lemma float_shape_head (body : pystr) :
  Float.float_shape body -> exists c t, body = c :: t /\ is_digit c = true.
Proof.
  intros (i & f & x & -> & [->|(c & tl & -> & Hc & _)] & _).
  - eexists _, _. split; reflexivity.
  - eexists _, _. split; [reflexivity|exact Hc].
Qed.

(** What follows the digits before the point of a float. *)
Lemma float_follows_shape (f x rest : pystr) :
  Float.frac_shape f -> Float.exp_shape x -> f <> [] \/ x <> [] ->
  float_follows (f ++ x ++ rest) = true /\ Float.no_digit_head (f ++ x ++ rest).
Proof.
  intros [->|(ds & -> & Hne & Hds)] Hx Hsome.
  - destruct Hx as [->|(sign & ds & -> & Hsign & Hne & Hds)]; [destruct Hsome; contradiction|].
    destruct (digit_text_head ds Hne Hds) as (c & tl & -> & Hc & _).
    split; [|reflexivity].
    destruct Hsign as [->|[->| ->]]; cbn [app float_follows N.eqb Pos.eqb orb].
    + rewrite (digit_not_sign c Hc). exact Hc.
    + exact Hc.
    + exact Hc.
  - destruct (digit_text_head ds Hne Hds) as (c & tl & -> & Hc & _).
    split; [exact Hc|reflexivity].
Qed.

Lemma scan_exponent_shape (x rest : pystr) :
  Float.exp_shape x -> ends_value rest = true ->
  snd (Float.scan_exponent (x ++ rest)) = rest
  /\ Float.no_digit_head (x ++ rest).
Proof.
  intros [->|(sign & ds & -> & Hsign & Hne & Hds)] Hr.
  - split; [|apply ends_value_no_digit; exact Hr].
    destruct (ends_value_cases rest Hr) as [->|(r & [->|[->| ->]])]; reflexivity.
  - split; [|reflexivity].
    destruct (digit_text_head ds Hne Hds) as (c & tl & -> & Hc & Htl).
    pose proof (scan_digits_text (c :: tl) rest
                  ltac:(constructor; assumption) (ends_value_no_digit rest Hr)) as Hscan.
    destruct Hsign as [->|[->| ->]];
      cbn [app Float.scan_exponent N.eqb Pos.eqb orb];
      rewrite ?(digit_not_sign c Hc), Hc;
      change (c :: tl ++ rest) with ((c :: tl) ++ rest);
      destruct (scan_digits ((c :: tl) ++ rest)); exact Hscan.
Qed.

Lemma scan_fraction_shape (f x rest : pystr) :
  Float.frac_shape f -> Float.exp_shape x -> f <> [] \/ x <> [] ->
  ends_value rest = true ->
  snd (Float.scan_fraction (f ++ x ++ rest)) = x ++ rest.
Proof.
  intros [->|(ds & -> & Hne & Hds)] Hx Hsome Hr.
  - destruct Hx as [->|(sign & ds & -> & _)]; [destruct Hsome; contradiction|].
    reflexivity.
  - destruct (digit_text_head ds Hne Hds) as (c & tl & -> & Hc & Htl).
    cbn [app Float.scan_fraction]. rewrite Hc.
    change (c :: tl ++ x ++ rest) with ((c :: tl) ++ x ++ rest).
    apply scan_digits_text; [constructor; assumption|].
    apply (scan_exponent_shape x rest Hx Hr).
Qed.

(** The decoder reads a number with a fraction or an exponent, followed by
    what [dumps] writes after a value, with [float]. *)
Lemma match_number_float (negative : bool) (body rest : pystr) :
  Float.float_shape body -> ends_value rest = true ->
  match_number (Float.sign_text negative ++ body ++ rest)
  = match Float.of_literal (Float.sign_text negative ++ body) with
    | Some x => Some (JFloat x, rest)
    | None => None
    end.
Proof.
  intros (i & f & x & -> & Hi & Hf & Hx & Hsome) Hr.
  destruct (float_follows_shape f x rest Hf Hx Hsome) as [Hfollows Hnodigit].
  pose proof (scan_fraction_shape f x rest Hf Hx Hsome Hr) as Hfrac.
  destruct (scan_exponent_shape x rest Hx Hr) as [Hexp _].
  assert (Hint : exists c tl d,
             i = c :: tl /\ is_digit c = true
             /\ (if c =? 48 then (Decimal.D0 Decimal.Nil, tl ++ f ++ x ++ rest)
                 else scan_digits (c :: tl ++ f ++ x ++ rest))
                = (d, f ++ x ++ rest)).
  { destruct Hi as [->|(c & tl & -> & Hc & Hnz & Htl)].
    - eexists _, _, _. split; [reflexivity|]. split; reflexivity.
    - exists c, tl, (fst (scan_digits ((c :: tl) ++ f ++ x ++ rest))).
      split; [reflexivity|]. split; [exact Hc|].
      apply N.eqb_neq in Hnz. rewrite Hnz.
      change (c :: tl ++ f ++ x ++ rest) with ((c :: tl) ++ f ++ x ++ rest).
      rewrite (surjective_pairing (scan_digits _)). f_equal.
      apply scan_digits_text; [constructor; assumption|exact Hnodigit]. }
  destruct Hint as (c & tl & d & -> & Hc & Hint).
  unfold match_number.
  rewrite <- !app_assoc. cbn [app].
  rewrite (split_sign_text negative c _ Hc).
  rewrite Hc, Hint, Hfollows, Hfrac, Hexp.
  replace (Float.sign_text negative ++ c :: tl ++ f ++ x ++ rest)
    with ((Float.sign_text negative ++ c :: tl ++ f ++ x) ++ rest)
    by (rewrite <- !app_assoc; cbn [app]; rewrite <- !app_assoc; reflexivity).
  rewrite take_app_prefix. reflexivity.
Qed.

Lemma floatstr_head (x : float) :
  exists c t, floatstr x = c :: t /\ value_start c = true.
Proof.
  pose proof (repr_shape x) as Hshape.
  destruct x as [|[|]|negative|negative m e];
    [eexists _, _; split; reflexivity ..| |];
    destruct Hshape as (body & E & Hbody);
    destruct (float_shape_head body Hbody) as (c & t & -> & Hc);
    (destruct negative; cbn [floatstr]; rewrite E; cbn [Float.sign_text app];
     [eexists _, _; split; reflexivity
     |eexists _, _; split; [reflexivity|apply digit_value_start; exact Hc]]).
Qed.

(** A double scans back from what [dumps] writes for it. *)
Lemma scan_once_float (fuel : nat) (x : float) (rest : pystr) :
  Float.canonical x = true -> ends_value rest = true ->
  scan_once (S fuel) (floatstr x ++ rest) = Some (JFloat x, rest).
Proof.
  intros Hcanonical Hr.
  pose proof (repr_shape x) as Hshape.
  pose proof (repr_reads_back x Hcanonical) as Hread.
  assert (Hnumber : forall negative body,
             Float.float_shape body ->
             Float.of_literal (Float.sign_text negative ++ body) = Some x ->
             scan_once (S fuel) ((Float.sign_text negative ++ body) ++ rest)
             = Some (JFloat x, rest)).
  { intros negative body Hbody Hlit.
    pose proof (match_number_float negative body rest Hbody Hr) as Hmatch.
    rewrite Hlit in Hmatch. rewrite <- app_assoc.
    destruct (float_shape_head body Hbody) as (c & t & -> & Hc).
    destruct negative; cbn [Float.sign_text app] in *.
    - rewrite scan_once_number by (right; reflexivity). rewrite Hmatch. reflexivity.
    - rewrite scan_once_number by (left; exact Hc). rewrite Hmatch. reflexivity. }
  destruct x as [|[|]|negative|negative m e]; [reflexivity ..| |];
    destruct Hshape as (body & E & Hbody); cbn [floatstr];
    rewrite E in *; apply Hnumber; assumption.
Qed.

(** *** Encodings *)

Lemma dumps_head (v : json) : exists c t, dumps v = c :: t /\ value_start c = true.
Proof.
  destruct v as [|[|]|z|x|s|l|d].
  - eexists _, _. split; reflexivity.
  - eexists _, _. split; reflexivity.
  - eexists _, _. split; reflexivity.
  - destruct (str_of_Z_head z) as (c & t & E & Hc). exists c, t. split; [exact E|].
    unfold value_start. destruct Hc as [->| ->]; reflexivity.
  - apply floatstr_head.
  - eexists _, _. split; reflexivity.
  - rewrite dumps_list. eexists _, _. split; reflexivity.
  - rewrite dumps_dict. eexists _, _. split; reflexivity.
Qed.

Lemma skip_ws_dumps (v : json) (rest : pystr) :
  skip_ws (dumps v ++ rest) = dumps v ++ rest.
Proof.
  destruct (dumps_head v) as (c & t & -> & Hc). apply value_start_skip_ws. exact Hc.
Qed.

Lemma dict_set_fresh {V} (k : pystr) (v : V) (d : list (pystr * V)) :
  k ∉ map fst d -> dict_set k v d = d ++ [(k, v)].
Proof.
  induction d as [|[k' v'] d IH]; intros Hk; [reflexivity|].
  cbn [dict_set]. simpl in Hk. apply not_elem_of_cons in Hk as [Hne Hk].
  destruct (decide (k' = k)) as [->|_]; [contradiction|].
  rewrite IH by exact Hk. reflexivity.
Qed.

Lemma dict_of_pairs_app (d acc : list (pystr * json)) :
  NoDup (map fst (acc ++ d)) ->
  fold_left (fun d kv => dict_set (fst kv) (snd kv) d) d acc = acc ++ d.
Proof.
  revert acc. induction d as [|[k v] d IH]; intros acc Hnd.
  - rewrite app_nil_r. reflexivity.
  - cbn [fold_left fst snd].
    assert (Hk : k ∉ map fst acc).
    { rewrite map_app in Hnd. apply NoDup_app in Hnd as (_ & Hdisj & _).
      intros Hin. apply (Hdisj k Hin). simpl. apply list_elem_of_here. }
    rewrite dict_set_fresh by exact Hk.
    rewrite IH; rewrite <- app_assoc; [reflexivity|exact Hnd].
Qed.

(** A dict rebuilt from its own pairs is the dict. *)
Lemma dict_of_pairs_nodup (d : list (pystr * json)) :
  NoDup (map fst d) -> dict_of_pairs d = d.
Proof. intros Hnd. unfold dict_of_pairs. apply (dict_of_pairs_app d []). exact Hnd. Qed.

Lemma scan_once_list (fuel : nat) (r : pystr) :
  scan_once (S fuel) (91 :: r)
  = match skip_ws r with
    | 93 :: r' => Some (JList [], r')
    | r' =>
        match array_items fuel r' with
        | Some (values, r'') => Some (JList values, r'')
        | None => None
        end
    end.
Proof. reflexivity. Qed.

Lemma scan_once_dict (fuel : nat) (r : pystr) :
  scan_once (S fuel) (123 :: r)
  = match skip_ws r with
    | 125 :: r' => Some (JDict [], r')
    | 34 :: r' =>
        match object_items fuel r' with
        | Some (pairs, r'') => Some (JDict (dict_of_pairs pairs), r'')
        | None => None
        end
    | _ => None
    end.
Proof. reflexivity. Qed.

Lemma scan_once_str (fuel : nat) (r : pystr) :
  scan_once (S fuel) (34 :: r)
  = match scanstring r with
    | Some (str, r') => Some (JStr str, r')
    | None => None
    end.
Proof. reflexivity. Qed.

Lemma array_items_succ (fuel : nat) (s : pystr) :
  array_items (S fuel) s
  = match scan_once fuel s with
    | None => None
    | Some (value, r) =>
        match skip_ws r with
        | c :: r' =>
            if c =? 93 then Some ([value], r')
            else if c =? 44 then
              match array_items fuel (skip_ws r') with
              | Some (values, r'') => Some (value :: values, r'')
              | None => None
              end
            else None
        | [] => None
        end
    end.
Proof. reflexivity. Qed.

Lemma object_items_succ (fuel : nat) (s : pystr) :
  object_items (S fuel) s
  = match scanstring s with
    | None => None
    | Some (key, r) =>
        match skip_ws r with
        | 58 :: r1 =>
            match scan_once fuel (skip_ws r1) with
            | None => None
            | Some (value, r2) =>
                match skip_ws r2 with
                | c :: r3 =>
                    if c =? 125 then Some ([(key, value)], r3)
                    else if c =? 44 then
                      match skip_ws r3 with
                      | 34 :: r4 =>
                          match object_items fuel r4 with
                          | Some (pairs, r5) => Some ((key, value) :: pairs, r5)
                          | None => None
                          end
                      | _ => None
                      end
                    else None
                | [] => None
                end
            end
        | _ => None
        end
    end.
Proof. reflexivity. Qed.

(** What the round trip says of one value: with fuel for its size, and
    followed by what [dumps] writes after a value, it scans back. *)
Definition scans_back (v : json) : Prop :=
  serializable v = true ->
  forall (fuel : nat) (rest : pystr),
    (jsize v <= fuel)%nat -> ends_value rest = true ->
    scan_once fuel (dumps v ++ rest) = Some (v, rest).

Lemma array_items_dumps (l : list json) :
  Forall scans_back l -> forallb serializable l = true -> l <> [] ->
  forall (fuel : nat) (rest : pystr),
    (list_sum (map (fun x => S (jsize x)) l) <= fuel)%nat ->
    array_items fuel (dumps_items l ++ 93 :: rest) = Some (l, rest).
Proof.
  induction l as [|x l IH]; intros HP Hser Hne fuel rest Hfuel; [contradiction|].
  apply Forall_cons in HP as [Hx HP].
  cbn [forallb] in Hser. apply andb_true_iff in Hser as [Hsx Hser].
  cbn [map list_sum] in Hfuel.
  destruct fuel as [|fuel]; [simpl in Hfuel; lia|].
  rewrite array_items_succ. cbn [dumps_items].
  destruct l as [|y l'].
  - rewrite app_nil_r. rewrite (Hx Hsx fuel (93 :: rest)) by (simpl in *; (lia || reflexivity)).
    reflexivity.
  - change (lit ", ") with [44; 32]. rewrite <- !app_assoc. cbn [app].
    rewrite (Hx Hsx fuel (44 :: 32 :: dumps_items (y :: l') ++ 93 :: rest))
      by (simpl in *; (lia || reflexivity)).
    cbn [skip_ws is_ws N.eqb Pos.eqb orb].
    assert (Hskip : skip_ws (dumps_items (y :: l') ++ 93 :: rest)
                    = dumps_items (y :: l') ++ 93 :: rest).
    { cbn [dumps_items]. rewrite <- app_assoc. apply skip_ws_dumps. }
    rewrite Hskip.
    rewrite (IH HP Hser ltac:(discriminate) fuel rest) by (simpl in *; lia).
    reflexivity.
Qed.

Lemma dumps_pairs_cons (k : pystr) (x : json) (d : list (pystr * json)) :
  dumps_pairs ((k, x) :: d)
  = 34 :: flat_map escape_char k ++ 34 :: 58 :: 32 :: dumps x
            ++ match d with
               | [] => []
               | _ :: _ => 44 :: 32 :: dumps_pairs d
               end.
Proof.
  cbn [dumps_pairs]. unfold encode_string. change (lit ": ") with [58; 32].
  change (lit ", ") with [44; 32]. cbn [app]. rewrite <- app_assoc.
  destruct d; reflexivity.
Qed.

Lemma object_items_dumps (d : list (pystr * json)) :
  Forall (fun kv => scans_back (snd kv)) d ->
  forallb (fun kv => unpaired (fst kv) && serializable (snd kv)) d = true ->
  forall (fuel : nat) (rest body : pystr),
    (list_sum (map (fun kv => S (jsize (snd kv))) d) <= fuel)%nat ->
    dumps_pairs d = 34 :: body ->
    object_items fuel (body ++ 125 :: rest) = Some (d, rest).
Proof.
  induction d as [|[k x] d IH]; intros HP Hser fuel rest body Hfuel Hbody;
    [discriminate|].
  apply Forall_cons in HP as [Hx HP]. cbn [snd] in Hx.
  cbn [forallb fst snd] in Hser. apply andb_true_iff in Hser as [Hkx Hser].
  apply andb_true_iff in Hkx as [Hk Hsx].
  cbn [map list_sum snd] in Hfuel.
  destruct fuel as [|fuel]; [simpl in Hfuel; lia|].
  rewrite dumps_pairs_cons in Hbody. injection Hbody as <-.
  rewrite object_items_succ. rewrite <- !app_assoc. cbn [app].
  rewrite scanstring_encoded by exact Hk.
  cbn [skip_ws is_ws N.eqb Pos.eqb orb].
  rewrite <- app_assoc. rewrite skip_ws_dumps.
  destruct d as [|[k' y] d'].
  - cbn [app]. rewrite (Hx Hsx fuel (125 :: rest)) by (simpl in *; (lia || reflexivity)).
    reflexivity.
  - rewrite dumps_pairs_cons. cbn [app].
    rewrite (Hx Hsx fuel) by (simpl in *; (lia || reflexivity)).
    cbn [skip_ws is_ws N.eqb Pos.eqb orb].
    erewrite (IH HP Hser fuel rest); [reflexivity|simpl in *; lia|].
    rewrite dumps_pairs_cons. reflexivity.
Qed.

(** Every value scans back from its encoding. *)
Lemma scan_once_dumps (v : json) : scans_back v.
Proof.
  induction v as [|b|z|x|s|l IH|d IH] using json_nested_ind;
    intros Hser fuel rest Hfuel Hrest;
    (destruct fuel as [|fuel]; [simpl in Hfuel; lia|]).
  - reflexivity.
  - destruct b; reflexivity.
  - cbn [dumps]. destruct (str_of_Z_head z) as (c & t & E & Hc).
    pose proof (match_number_str z rest Hrest Hser) as Hnum.
    rewrite E in *. cbn [app] in *. rewrite scan_once_number by exact Hc.
    rewrite Hnum. reflexivity.
  - cbn [serializable] in Hser. apply andb_true_iff in Hser as [Hser _].
    apply scan_once_float; assumption.
  - cbn [dumps]. unfold encode_string. rewrite <- app_comm_cons, <- app_assoc.
    rewrite scan_once_str. cbn [app]. rewrite scanstring_encoded by exact Hser.
    reflexivity.
  - rewrite dumps_list. rewrite <- app_comm_cons, <- app_assoc. cbn [app].
    rewrite scan_once_list.
    destruct l as [|x l]; [reflexivity|].
    assert (Hskip : skip_ws (dumps_items (x :: l) ++ 93 :: rest)
                    = dumps_items (x :: l) ++ 93 :: rest).
    { cbn [dumps_items]. rewrite <- app_assoc. apply skip_ws_dumps. }
    rewrite Hskip.
    pose proof (array_items_dumps (x :: l) IH Hser ltac:(discriminate) fuel rest
                  ltac:(cbn [jsize] in Hfuel; lia)) as Harr.
    destruct (dumps_head x) as (c & t & E & Hc).
    revert Harr. cbn [dumps_items]. rewrite E. rewrite <- !app_assoc. cbn [app].
    intros Harr. clear E Hskip.
    apply value_start_cases in Hc as [Hc|Hc]; [apply is_digit_cases in Hc|];
      repeat (destruct Hc as [->|Hc]; [cbv iota beta; rewrite Harr; reflexivity|]);
      subst c; cbv iota beta; rewrite Harr; reflexivity.
  - rewrite dumps_dict. rewrite <- app_comm_cons, <- app_assoc. cbn [app].
    rewrite scan_once_dict.
    destruct d as [|[k x] d]; [reflexivity|].
    cbn [serializable] in Hser. apply andb_true_iff in Hser as [Hser Hnd].
    apply bool_decide_eq_true in Hnd.
    rewrite dumps_pairs_cons. cbn [app skip_ws is_ws N.eqb Pos.eqb orb].
    erewrite (object_items_dumps ((k, x) :: d) IH Hser fuel rest);
      [|cbn [jsize] in Hfuel; lia|apply dumps_pairs_cons].
    rewrite dict_of_pairs_nodup by exact Hnd. reflexivity.
Qed.

Lemma items_size_le_length (l : list json) :
  Forall (fun x => (jsize x <= length (dumps x))%nat) l ->
  (list_sum (map (fun x => S (jsize x)) l) <= 1 + length (dumps_items l))%nat.
Proof.
  induction l as [|x l IH]; intros Hl; [simpl; lia|].
  apply Forall_cons in Hl as [Hx Hl]. specialize (IH Hl).
  cbn [map list_sum dumps_items]. rewrite length_app.
  destruct l as [|y l'].
  - simpl. lia.
  - change (lit ", ") with [44; 32]. cbn [app length].
    unfold list_sum in *. cbn [fold_right map] in *. lia.
Qed.

Lemma pairs_size_le_length (d : list (pystr * json)) :
  Forall (fun kv => (jsize (snd kv) <= length (dumps (snd kv)))%nat) d ->
  (list_sum (map (fun kv => S (jsize (snd kv))) d) <= 1 + length (dumps_pairs d))%nat.
Proof.
  induction d as [|[k x] d IH]; intros Hd; [simpl; lia|].
  apply Forall_cons in Hd as [Hx Hd]. specialize (IH Hd). cbn [snd] in Hx.
  rewrite dumps_pairs_cons. cbn [map list_sum snd length].
  rewrite length_app. cbn [length]. rewrite length_app.
  unfold list_sum in *. cbn [fold_right map snd] in *.
  destruct d as [|[k' y] d'].
  - simpl. lia.
  - cbn [length]. lia.
Qed.

(** The length of an encoding is fuel enough to scan it. *)
Lemma jsize_le_length (v : json) : (jsize v <= length (dumps v))%nat.
Proof.
  induction v as [|b|z|x|s|l IH|d IH] using json_nested_ind.
  - simpl. lia.
  - destruct b; simpl; lia.
  - destruct (str_of_Z_head z) as (c & t & E & _). cbn [dumps jsize]. rewrite E. simpl. lia.
  - destruct (floatstr_head x) as (c & t & E & _). cbn [dumps jsize]. rewrite E. simpl. lia.
  - cbn [dumps jsize]. simpl. lia.
  - rewrite dumps_list. cbn [jsize length]. rewrite length_app. cbn [length].
    pose proof (items_size_le_length l IH). lia.
  - rewrite dumps_dict. cbn [jsize length]. rewrite length_app. cbn [length].
    pose proof (pairs_size_le_length d IH). lia.
Qed.

(** Decoding the encoding of a value gives the value back. *)
Lemma loads_dumps (v : json) :
  serializable v = true -> loads (dumps v) = Some v.
Proof.
  intros Hser. unfold loads.
  pose proof (skip_ws_dumps v []) as Hskip. rewrite app_nil_r in Hskip. rewrite Hskip.
  pose proof (scan_once_dumps v Hser (S (length (dumps v))) []) as Hscan.
  rewrite app_nil_r in Hscan. rewrite Hscan.
  - reflexivity.
  - pose proof (jsize_le_length v). lia.
  - reflexivity.
Qed.

End JsonFacts.

(** ** Prescriptions *)

Section PrescriptionFacts.
Import Database Patients.
Context `{Storage}.

Lemma next_rowid_above (seq : Z) (ids : list Z) (x : Z) :
  x ∈ ids -> x < next_rowid seq ids.
Proof.
  unfold next_rowid. induction ids as [|y ids IH]; intros Hx.
  - inversion Hx.
  - apply elem_of_cons in Hx as [->|Hx]; simpl; [lia|]. specialize (IH Hx). lia.
Qed.

(** What a successful insert leaves: the table with one more row, whose id
    is above every id of the table. *)
Lemma insert_prescription_row (p1 p2 p3 p4 p5 : sqlval) (t : pystr) (d d' : Db) (id : Z) :
  insert_prescription p1 p2 p3 p4 p5 t d = Return (id, d') ->
  exists row,
    prescriptions d' = prescriptions d ++ [row]
    /\ rx_id row = id
    /\ rx_patient_id row = integer_affinity p1
    /\ rx_medicines row = text_affinity p4
    /\ (forall r, r ∈ prescriptions d -> rx_id r < id).
Proof.
  unfold insert_prescription.
  destruct (is_null (integer_affinity p1)); [discriminate|].
  destruct (is_null (text_affinity p2)); [discriminate|].
  destruct (is_null (text_affinity p3)); [discriminate|].
  destruct (is_null (text_affinity p4)); [discriminate|].
  destruct (int64_max <? _); [discriminate|].
  intros [= <- <-]. eexists. repeat split.
  intros r Hr. apply next_rowid_above. apply list_elem_of_fmap. eauto.
Qed.

Lemma find_fresh_row (rows : list PrescriptionRow) (row : PrescriptionRow) :
  (forall r, r ∈ rows -> rx_id r < rx_id row) ->
  find (fun r => rx_id r =? rx_id row) (rows ++ [row]) = Some row.
Proof.
  induction rows as [|r rows IH]; intros Hfresh; simpl.
  - rewrite Z.eqb_refl. reflexivity.
  - destruct (Z.eqb_spec (rx_id r) (rx_id row)) as [E|_].
    + specialize (Hfresh r ltac:(apply list_elem_of_here)). lia.
    + apply IH. intros r' Hr'. apply Hfresh. apply list_elem_of_further. exact Hr'.
Qed.

(** The run of [create_prescription], call by call. *)
Lemma create_prescription_run (body : list (pystr * json)) (st : State) :
  create_prescription body st
  = match Json.dumps_call (default (JList []) (dict_get (lit "medicines") body)) with
    | Raise e => (Raise e, st)
    | Return encoded =>
    match bind_param (dict_get (lit "patient_id") body) with
    | Raise e => (Raise e, st)
    | Return p1 =>
    match bind_param (dict_get (lit "doctor_name") body) with
    | Raise e => (Raise e, st)
    | Return p2 =>
    match bind_param (dict_get (lit "diagnosis") body) with
    | Raise e => (Raise e, st)
    | Return p3 =>
    match bind_param (Some (default (JStr []) (dict_get (lit "notes") body))) with
    | Raise e => (Raise e, st)
    | Return p5 =>
    match insert_prescription p1 p2 p3 (SText encoded) p5 (now st) (db st) with
    | Raise e => (Raise e, st)
    | Return (lastrowid, d) =>
        match select_prescription_by_id lastrowid d with
        | None => (Raise (PyException (lit "TypeError")
                            (lit "'NoneType' object is not iterable")), set_db d st)
        | Some r => (decode_row r, set_db d st)
        end
    end end end end end end.
Proof.
  unfold create_prescription, bind, lift_outcome, ret, gets, modify, raise.
  destruct (Json.dumps_call _); [|reflexivity].
  destruct (bind_param (dict_get (lit "patient_id") body)); [|reflexivity].
  destruct (bind_param (dict_get (lit "doctor_name") body)); [|reflexivity].
  destruct (bind_param (dict_get (lit "diagnosis") body)); [|reflexivity].
  destruct (bind_param (Some _)); [|reflexivity].
  unfold id. destruct (insert_prescription _ _ _ _ _ _ _) as [[lastrowid d]|]; [|reflexivity].
  destruct (select_prescription_by_id lastrowid d); reflexivity.
Qed.

Lemma dumps_call_returns (v : json) (encoded : pystr) :
  Json.dumps_call v = Return encoded -> encoded = Json.dumps v.
Proof.
  unfold Json.dumps_call. destruct (Json.writable v); [|discriminate].
  intros [= <-]. reflexivity.
Qed.

(** A request leaves the table as it was, or with one more row under a new
    id. *)
Lemma create_prescription_table (body : list (pystr * json)) (st : State) :
  prescriptions (db (snd (create_prescription body st))) = prescriptions (db st)
  \/ exists row,
       prescriptions (db (snd (create_prescription body st)))
       = prescriptions (db st) ++ [row]
       /\ forall r, r ∈ prescriptions (db st) -> rx_id r < rx_id row.
Proof.
  rewrite create_prescription_run.
  destruct (Json.dumps_call _); [|auto].
  destruct (bind_param (dict_get (lit "patient_id") body)); [|auto].
  destruct (bind_param (dict_get (lit "doctor_name") body)); [|auto].
  destruct (bind_param (dict_get (lit "diagnosis") body)); [|auto].
  destruct (bind_param (Some _)); [|auto].
  destruct (insert_prescription _ _ _ _ _ _ _) as [[lastrowid d]|] eqn:Hins; [|auto].
  apply insert_prescription_row in Hins as (row & Hrows & Hid & _ & _ & Hfresh).
  right. exists row. subst lastrowid.
  destruct (select_prescription_by_id _ d); simpl; auto.
Qed.

(** What a successful request returns: the decoded new row. *)
Lemma create_prescription_returns (body : list (pystr * json)) (st st' : State)
    (item : PrescriptionItem) :
  create_prescription body st = (Return item, st') ->
  exists row,
    prescriptions (db st') = prescriptions (db st) ++ [row]
    /\ (forall r, r ∈ prescriptions (db st) -> rx_id r < rx_id row)
    /\ rx_medicines row
       = SText (Json.dumps (default (JList []) (dict_get (lit "medicines") body)))
    /\ decode_row row = Return item.
Proof.
  rewrite create_prescription_run.
  destruct (Json.dumps_call _) as [encoded|] eqn:Hdumps; [|discriminate].
  apply dumps_call_returns in Hdumps. subst encoded.
  destruct (bind_param (dict_get (lit "patient_id") body)); [|discriminate].
  destruct (bind_param (dict_get (lit "doctor_name") body)); [|discriminate].
  destruct (bind_param (dict_get (lit "diagnosis") body)); [|discriminate].
  destruct (bind_param (Some _)); [|discriminate].
  destruct (insert_prescription _ _ _ _ _ _ _) as [[lastrowid d]|] eqn:Hins; [|discriminate].
  apply insert_prescription_row in Hins as (row & Hrows & Hid & _ & Hmed & Hfresh).
  subst lastrowid. unfold select_prescription_by_id. rewrite Hrows.
  rewrite find_fresh_row by exact Hfresh.
  intros [= Hdec <-]. exists row. simpl. auto.
Qed.

Lemma insert_report_table (p1 p2 p3 p4 : sqlval) (t : pystr) (d d' : Db) (id : Z) :
  insert_report p1 p2 p3 p4 t d = Return (id, d') ->
  prescriptions d' = prescriptions d.
Proof.
  unfold insert_report. cbv zeta.
  repeat match goal with
         | |- context [if ?b then _ else _] => destruct b; [discriminate|]
         end.
  intros [= _ <-]. reflexivity.
Qed.

(** The next call of a handler run whose outcome decides how it goes on. *)
Ltac next_call :=
  cbv beta iota zeta;
  match goal with
  | |- context [match ?x with Return _ => _ | Raise _ => _ end] =>
      lazymatch x with
      | context [match _ with _ => _ end] => fail
      | context [if _ then _ else _] => fail
      | _ => let E := fresh "E" in destruct x eqn:E
      end
  | |- context [if ?b then _ else _] =>
      lazymatch b with
      | context [match _ with _ => _ end] => fail
      | context [if _ then _ else _] => fail
      | _ => let E := fresh "E" in destruct b eqn:E
      end
  end.

Lemma upload_report_table (patient_id : Z) (doctor_name title : pystr) (file : UploadFile)
    (st : State) :
  prescriptions (db (snd (upload_report patient_id doctor_name title file st)))
  = prescriptions (db st).
Proof.
  unfold upload_report, try_except, bind, when, lift_outcome, ret, gets, modify, raise, id.
  repeat next_call; cbv beta iota zeta; try reflexivity.
  match goal with
  | E : insert_report _ _ _ _ _ _ = Return ?a |- _ =>
      destruct a as [lastrowid d]; apply insert_report_table in E;
      cbn [db app_logger set_uploads] in E;
      destruct (select_report_by_id lastrowid d);
      cbv beta iota zeta; cbn [snd db set_db app_logger]; exact E
  end.
Qed.

Lemma kept_app (row : PrescriptionRow) (rows : list PrescriptionRow) (new : PrescriptionRow) :
  (row ∈ rows /\ forall r, r ∈ rows -> rx_id r = rx_id row -> r = row) ->
  (forall r, r ∈ rows -> rx_id r < rx_id new) ->
  row ∈ rows ++ [new]
  /\ forall r, r ∈ rows ++ [new] -> rx_id r = rx_id row -> r = row.
Proof.
  intros [Hin Huniq] Hfresh. split.
  - apply elem_of_app. left. exact Hin.
  - intros r Hr Hid. apply elem_of_app in Hr as [Hr|Hr]; [auto|].
    apply list_elem_of_singleton in Hr. subst r.
    specialize (Hfresh row Hin). lia.
Qed.

Lemma step_kept (row : PrescriptionRow) (st st' : State) :
  step st st' -> kept row st -> kept row st'.
Proof.
  intros Hstep Hkept.
  destruct Hstep as [body st|pid doctor title file st|p1 p2 p3 p4 p5 st id d Hins|t st].
  - unfold kept.
    destruct (create_prescription_table body st) as [E|(new & E & Hfresh)]; rewrite E.
    + exact Hkept.
    + apply kept_app; assumption.
  - unfold kept. rewrite upload_report_table. exact Hkept.
  - apply insert_prescription_row in Hins as (new & E & Hid & _ & _ & Hfresh).
    unfold kept. cbn [db set_db]. rewrite E. subst id. apply kept_app; assumption.
  - exact Hkept.
Qed.

Lemma later_kept (row : PrescriptionRow) (st st' : State) :
  later st st' -> kept row st -> kept row st'.
Proof.
  intros Hlater. induction Hlater as [st|st st1 st2 Hstep _ IH]; intros Hkept.
  - exact Hkept.
  - apply IH. eapply step_kept; eassumption.
Qed.

Lemma decode_rows_items (rows : list PrescriptionRow) (items : list PrescriptionItem) :
  decode_rows rows = Return items ->
  Forall2 (fun r it => decode_row r = Return it) rows items.
Proof.
  revert items. induction rows as [|r rows IH]; intros items; simpl.
  - intros [= <-]. constructor.
  - destruct (decode_row r) as [it|] eqn:Hr; [|discriminate].
    destruct (decode_rows rows) as [its|]; [|discriminate].
    intros [= <-]. constructor; [exact Hr|]. apply IH. reflexivity.
Qed.

Lemma decode_row_id (r : PrescriptionRow) (it : PrescriptionItem) :
  decode_row r = Return it ->
  item_id it = rx_id r /\ item_patient_id it = rx_patient_id r.
Proof.
  unfold decode_row. destruct (loads_column (rx_medicines r)); [|discriminate].
  intros [= <-]. split; reflexivity.
Qed.

(** The run of [list_prescriptions]: an id outside 64 bits cannot be bound;
    else the rows of the patient are decoded. *)
Lemma list_prescriptions_run (pid : Z) (st : State) :
  list_prescriptions pid st
  = if (int64_min <=? pid) && (pid <=? int64_max)
    then (decode_rows (select_prescriptions_of pid (db st)), st)
    else (Raise (PyException (lit "OverflowError")
                   (lit "Python int too large to convert to SQLite INTEGER")), st).
Proof.
  unfold list_prescriptions, bind, lift_outcome, gets, bind_param.
  destruct ((int64_min <=? pid) && (pid <=? int64_max)); reflexivity.
Qed.

Lemma select_prescriptions_of_rows (pid : Z) (d : Db) (r : PrescriptionRow) :
  r ∈ select_prescriptions_of pid d
  <-> r ∈ prescriptions d /\ sql_eq_int (rx_patient_id r) pid = true.
Proof.
  unfold select_prescriptions_of. rewrite merge_sort_Permutation.
  rewrite list_elem_of_filter. tauto.
Qed.

(** The rows behind the items [list_prescriptions] returns. *)
Lemma list_prescriptions_rows (pid : Z) (st st' : State) (items : list PrescriptionItem) :
  list_prescriptions pid st = (Return items, st') ->
  (forall it, it ∈ items ->
     exists r, r ∈ prescriptions (db st) /\ decode_row r = Return it)
  /\ (forall r, r ∈ prescriptions (db st) -> rx_patient_id r = SInt pid ->
        exists it, it ∈ items /\ decode_row r = Return it).
Proof.
  rewrite list_prescriptions_run.
  destruct ((int64_min <=? pid) && (pid <=? int64_max)); [|discriminate].
  intros [= Hdec _]. apply decode_rows_items in Hdec.
  split.
  - intros it Hit.
    apply list_elem_of_lookup in Hit as [i Hi].
    destruct (Forall2_lookup_r _ _ _ i it Hdec Hi) as (r & Hr & Hrit).
    apply list_elem_of_lookup_2 in Hr. exists r. split; [|exact Hrit].
    apply select_prescriptions_of_rows in Hr as [Hr _]. exact Hr.
  - intros r Hr Hpid.
    assert (Hsel : r ∈ select_prescriptions_of pid (db st)).
    { apply select_prescriptions_of_rows. split; [exact Hr|].
      rewrite Hpid. simpl. apply Z.eqb_refl. }
    apply list_elem_of_lookup in Hsel as [i Hi].
    destruct (Forall2_lookup_l _ _ _ i r Hdec Hi) as (it & Hit & Hrit).
    apply list_elem_of_lookup_2 in Hit. eauto.
Qed.

(** Rows that decode one by one decode together. *)
Lemma decode_rows_returns (rows : list PrescriptionRow) :
  Forall (fun r => exists it, decode_row r = Return it) rows ->
  exists items, decode_rows rows = Return items.
Proof.
  induction 1 as [|r rows [it Hr] _ [items IH]]; simpl.
  - eauto.
  - rewrite Hr, IH. eauto.
Qed.

Lemma decode_row_returns (r : PrescriptionRow) (medicines : json) :
  loads_column (rx_medicines r) = Return medicines ->
  exists it, decode_row r = Return it.
Proof. intros Hm. unfold decode_row. rewrite Hm. eauto. Qed.

(** A request with a serializable [medicines] value, and an upload, leave
    a table whose [medicines] columns all decode such a table. *)
Lemma create_prescription_decodable (body : list (pystr * json)) (st : State) :
  Json.serializable (default (JList []) (dict_get (lit "medicines") body)) = true ->
  decodable st -> decodable (snd (create_prescription body st)).
Proof.
  intros Hser Hst. unfold decodable.
  rewrite create_prescription_run.
  destruct (Json.dumps_call _) as [encoded|] eqn:Hdumps; [|exact Hst].
  apply dumps_call_returns in Hdumps. subst encoded.
  destruct (bind_param (dict_get (lit "patient_id") body)); [|exact Hst].
  destruct (bind_param (dict_get (lit "doctor_name") body)); [|exact Hst].
  destruct (bind_param (dict_get (lit "diagnosis") body)); [|exact Hst].
  destruct (bind_param (Some _)); [|exact Hst].
  destruct (insert_prescription _ _ _ _ _ _ _) as [[lastrowid d]|] eqn:Hins; [|exact Hst].
  apply insert_prescription_row in Hins as (row & Hrows & _ & _ & Hmed & _).
  assert (Hd : forall r, r ∈ prescriptions d ->
                 exists m, loads_column (rx_medicines r) = Return m).
  { intros r Hr. rewrite Hrows in Hr. apply elem_of_app in Hr as [Hr|Hr]; [auto|].
    apply list_elem_of_singleton in Hr. subst r. rewrite Hmed.
    cbn [text_affinity loads_column]. rewrite (loads_dumps _ Hser). eauto. }
  destruct (select_prescription_by_id lastrowid d); exact Hd.
Qed.

Lemma upload_report_decodable (patient_id : Z) (doctor_name title : pystr)
    (file : UploadFile) (st : State) :
  decodable st -> decodable (snd (upload_report patient_id doctor_name title file st)).
Proof. unfold decodable. rewrite upload_report_table. auto. Qed.


End PrescriptionFacts.


(** ** Further runs on the concrete process *)

Section MoreRuns.
Import Doubles.

(** The planner of the pipeline clamps where the endpoints reject: 0
    becomes 1, 999 becomes 20, and an absent value is the default. *)
Example resolve_top_k_clamps :
  Rag.resolve_top_k config (Some 0) = 1%nat
  /\ Rag.resolve_top_k config (Some 999) = 20%nat
  /\ Rag.resolve_top_k config (Some 7) = 7%nat
  /\ Rag.resolve_top_k config None = 5%nat.
Proof. repeat split. Qed.

Lemma resolve_top_k_range (cfg : Rag.Config) (v : Z) :
  (1 <= Rag.resolve_top_k cfg (Some v) <= 20)%nat.
Proof. unfold Rag.resolve_top_k. lia. Qed.

(** Ingesting the 5000 letters indexes 11 chunks with the ids 0 to 10. *)
Example ingest_plain_document :
  exists st,
    Rag.ingest config plain_document (lit "doc-1") empty_rag = (Return 11%nat, st)
    /\ map Rag.chunk_id (Rag.index st) = seq 0 11
    /\ Rag.next_chunk_id st = 11%nat.
Proof. eexists. split; [vm_compute; reflexivity|]. split; reflexivity. Qed.

(** Of three chunks about a, b and c, and for a query that is mostly b,
    the two best are the chunk of b and, the scores of a and c being equal,
    the earlier of the two. *)
Example query_three_chunks :
  map (fun r => (Rag.chunk_id (fst r), snd r))
    (Rag.query (Rag.index three_chunks) [1%Q; 2%Q; 1%Q] 2)
  = [ (1%nat, 6%Q); (0%nat, 3%Q) ].
Proof. vm_compute. reflexivity. Qed.

(** With chunks in the index both operations ground the prompt in them and
    report them. *)
Example answer_with_three_chunks :
  exists answer used st,
    Rag.answer_with_retrieval config (lit "abbc") (Some 2) three_chunks
    = (Return (answer, used, 2%nat), st)
    /\ map Rag.chunk_id used = [1%nat; 0%nat]
    /\ length (Rag.generation_log st) = 1%nat.
Proof. do 3 eexists. split; [vm_compute; reflexivity|]. split; reflexivity. Qed.

(** The encoding of the sample prescription and its decoding. *)
Example loads_dumps_sample :
  Json.loads (Json.dumps sample_medicines) = Some sample_medicines
  /\ Json.dumps (JList [JStr (lit "a" +++ [8211%N]); JInt (-5); JBool true; JNull])
     = [91%N; 34%N] +++ lit "a\u2013" +++ [34%N] +++ lit ", -5, true, null]".
Proof. split; vm_compute; reflexivity. Qed.

(** A high surrogate right before a low one decodes with it to one
    character: the round trip is stated for strings without such a pair. A
    surrogate on its own goes round. *)
Example loads_dumps_surrogates :
  Json.serializable (JStr [55357%N; 56832%N]) = false
  /\ Json.loads (Json.dumps (JStr [55357%N; 56832%N])) = Some (JStr [128512%N])
  /\ Json.dumps (JStr [55357%N; 97%N]) = 34%N :: lit "\ud83da" ++ [34%N]
  /\ Json.loads (Json.dumps (JStr [55357%N; 97%N])) = Some (JStr [55357%N; 97%N]).
Proof. repeat split; vm_compute; reflexivity. Qed.

(** Floats are written as [repr] writes them and read as [float] reads
    them. *)
Example dumps_floats :
  Json.dumps (JList [ JFloat (Float.of_decimal false 25 (-1));
                      JFloat (Float.of_decimal true 1 16);
                      JFloat (Float.of_decimal false 1 (-5));
                      JFloat (FZero true); JFloat FNan; JFloat (FInf true) ])
  = lit "[2.5, -1e+16, 1e-05, -0.0, NaN, -Infinity]".
Proof. vm_compute. reflexivity. Qed.

Example loads_floats :
  Json.loads (lit "[0.5, 2.50E2, 1e400, -Infinity, 7]")
  = Some (JList [ JFloat (FNum false 4503599627370496 (-53));
                  JFloat (FNum false 8796093022208000 (-45));
                  JFloat (FInf false); JFloat (FInf true); JInt 7 ])
  /\ Json.loads (lit "NaN") = Some (JFloat FNan)
  /\ Json.loads (lit "[1.]") = None.
Proof. repeat split; vm_compute; reflexivity. Qed.

(** A stored list of floats is listed as it is. *)
Example list_prescriptions_reads_floats :
  let row := {| Database.rx_id := 3; Database.rx_patient_id := Database.SInt 1;
                Database.rx_doctor_name := Database.SText (lit "Dr. Rao");
                Database.rx_diagnosis := Database.SText (lit "Anaemia");
                Database.rx_medicines := Database.SText (lit "[0.5]");
                Database.rx_notes := Database.SNull;
                Database.rx_created_at := Database.SText (lit "2024-05-01 10:00:00") |} in
  let st := Database.set_db
              {| Database.prescriptions := [row]; Database.prescriptions_seq := 3;
                 Database.reports := []; Database.reports_seq := 0 |} empty_state in
  exists it,
    Patients.list_prescriptions 1 st = (Return [it], st)
    /\ Patients.item_medicines it = JList [JFloat (Float.of_decimal false 5 (-1))].
Proof. eexists. split; vm_compute; reflexivity. Qed.

(** A report with content is written to the upload directory and gets the
    first row of [reports]. *)
Example upload_report_stores_file :
  exists row st,
    Patients.upload_report 7 (lit "Dr. Rao") (lit "CBC")
      {| upload_filename := lit "cbc.txt"; upload_content := lit "Hb 9.4" |} empty_state
    = (Return row, st)
    /\ Database.rp_id row = 1
    /\ Database.rp_file_path row = Database.SText (lit "7_cbc.txt")
    /\ Database.uploads st !! lit "7_cbc.txt" = Some (lit "Hb 9.4")
    /\ Database.reports (Database.db st) = [row].
Proof. do 2 eexists. split; [vm_compute; reflexivity|]. repeat split. Qed.

(** A prescription without a patient violates NOT NULL and changes nothing. *)
Example create_prescription_without_patient :
  exists e,
    Patients.create_prescription [(lit "medicines", sample_medicines)] empty_state
    = (Raise e, empty_state).
Proof. eexists. vm_compute. reflexivity. Qed.

End MoreRuns.
